(** * Microsoft 365 Mail tool: token lifecycle and paginated fetch engine

    A shallow embedding of [tokenStore.js], [auth.js], [index.js] and
    [graph.js], followed by the properties of the design document that
    concern them.

    Conventions of the embedding:
    - a JavaScript value that may be [undefined]/[null] is an [option];
    - a string is the sequence of the UTF-8 bytes of a well-formed text;
    - integers (epoch milliseconds, HTTP statuses, bounds, seconds) are [Z];
      [NaN] and fractional numbers are outside the model;
    - the SQLite table [tokens] (primary key [user_id]) is a
      [gmap string token_row];
    - the clock ([Date.now()]), the network and the token endpoint are
      explicit arguments; effects are returned next to the result. *)

From Stdlib Require Import ZArith Lia List String Ascii Bool DecimalString Sorted OrderedTypeEx.
From stdpp Require Import base option list gmap strings.

Local Open Scope Z_scope.
Local Open Scope string_scope.

(** ** JavaScript idioms used by the sources *)

Module JS.

(** Truthiness of a possibly-undefined string: [undefined], [null] and
    the empty string are falsy. *)
Definition truthy (o : option string) : bool :=
  match o with
  | Some s => negb (String.eqb s EmptyString)
  | None => false
  end.

(** [a || b] on possibly-undefined strings. *)
Definition or_else (a b : option string) : option string :=
  if truthy a then a else b.

(** [a || b] with [b] a string. *)
Definition str_or (a : option string) (b : string) : string :=
  match a with
  | Some s => if String.eqb s EmptyString then b else s
  | None => b
  end.

(** [a || b] on numbers, [a] being [None] for [NaN]: zero and [NaN] are
    falsy. *)
Definition num_or (a : option Z) (b : Z) : Z :=
  match a with
  | Some n => if Z.eqb n 0 then b else n
  | None => b
  end.

End JS.

(** ** tokenStore.js *)

Module TokenStore.

(** One row of the table [tokens]. [access_token], [expiry],
    [created_at] and [updated_at] are declared [NOT NULL]. *)
Record token_row := TokenRow {
  user_id : string;
  access_token : string;
  refresh_token : option string;
  expiry : Z;
  scopes : option string;
  created_at : Z;
  updated_at : Z
}.

(** The second argument of [set]. *)
Record credential := Credential {
  c_access_token : string;
  c_refresh_token : option string;
  c_expiry : Z;
  c_scopes : option string
}.

Abbreviation db := (gmap string token_row).

(** [upsertStmt]: insert a fresh row stamped [ts] twice, or on a
    conflicting [user_id] overwrite the four token columns and
    [updated_at], keeping the stored [created_at]. *)
Definition upsert (uid : string) (c : credential) (ts : Z) (d : db) : db :=
  match d !! uid with
  | None =>
      <[uid := TokenRow uid (c_access_token c) (c_refresh_token c)
                        (c_expiry c) (c_scopes c) ts ts]> d
  | Some old =>
      <[uid := TokenRow (user_id old) (c_access_token c) (c_refresh_token c)
                        (c_expiry c) (c_scopes c) (created_at old) ts]> d
  end.

(** [set(user_id, {...})]; [ts] is the value read from [Date.now()]. *)
Definition set (uid : string) (c : credential) (ts : Z) (d : db) : db :=
  upsert uid c ts d.

(** [get(user_id)]: the row or [null]. *)
Definition get (uid : string) (d : db) : option token_row := d !! uid.

(** [delete(user_id)]. *)
Definition delete (uid : string) (d : db) : db := base.delete uid d.

(** [delExpiredStmt]: [DELETE FROM tokens WHERE expiry <= ?]; the rows
    that stay are those on which the [WHERE] clause is false. *)
Definition delExpired (now : Z) (d : db) : db :=
  filter (fun kr => ~ (expiry kr.2 <= now)) d.

(** [deleteExpired()]: runs the statement at the time [now] read from
    [Date.now()] and returns [.changes], the number of rows deleted. *)
Definition deleteExpired (now : Z) (d : db) : Z * db :=
  (Z.of_nat (size (filter (fun kr => expiry kr.2 <= now) d)),
   delExpired now d).

(** [count()]. *)
Definition count (d : db) : Z := Z.of_nat (size d).

End TokenStore.

(** ** Strings: the library functions the handlers call *)

Module Str.

Definition between (lo hi : ascii) (c : ascii) : bool :=
  (nat_of_ascii lo <=? nat_of_ascii c)%nat && (nat_of_ascii c <=? nat_of_ascii hi)%nat.

Definition is_digit (c : ascii) : bool := between "0" "9" c.
Definition is_upper (c : ascii) : bool := between "A" "Z" c.
Definition is_lower (c : ascii) : bool := between "a" "z" c.

(** The white space [String.prototype.trim] removes (WhiteSpace and
    LineTerminator of ECMAScript), by the UTF-8 encoding of each
    character. One byte: TAB, LF, VT, FF, CR and SPACE. *)
Definition is_space (c : ascii) : bool :=
  between "009" "013" c || Ascii.eqb c " ".

(** Two bytes: U+00A0 (C2 A0). *)
Definition is_space2 (a b : ascii) : bool :=
  Ascii.eqb a "194" && Ascii.eqb b "160".

(** Three bytes: U+1680 (E1 9A 80), U+2000 to U+200A (E2 80 80 to
    E2 80 8A), U+2028, U+2029 and U+202F (E2 80 A8, E2 80 A9, E2 80 AF),
    U+205F (E2 81 9F), U+3000 (E3 80 80) and U+FEFF (EF BB BF). *)
Definition is_space3 (a b c : ascii) : bool :=
  (Ascii.eqb a "225" && Ascii.eqb b "154" && Ascii.eqb c "128")
  || (Ascii.eqb a "226" && Ascii.eqb b "128"
      && (between "128" "138" c || Ascii.eqb c "168" || Ascii.eqb c "169"
          || Ascii.eqb c "175"))
  || (Ascii.eqb a "226" && Ascii.eqb b "129" && Ascii.eqb c "159")
  || (Ascii.eqb a "227" && Ascii.eqb b "128" && Ascii.eqb c "128")
  || (Ascii.eqb a "239" && Ascii.eqb b "187" && Ascii.eqb c "191").

Fixpoint trimStart (s : string) : string :=
  match s with
  | String c s1 =>
      if is_space c then trimStart s1
      else
        match s1 with
        | String c2 s2 =>
            if is_space2 c c2 then trimStart s2
            else
              match s2 with
              | String c3 s3 => if is_space3 c c2 c3 then trimStart s3 else s
              | EmptyString => s
              end
        | EmptyString => s
        end
  | EmptyString => EmptyString
  end.

(** The string holds white space only. *)
Definition blank (s : string) : bool :=
  match trimStart s with
  | EmptyString => true
  | String _ _ => false
  end.

(** Drops the trailing white space: the string is cut where what is left
    of it is white space only. *)
Fixpoint trimEnd (s : string) : string :=
  match s with
  | String c s' => if blank s then EmptyString else String c (trimEnd s')
  | EmptyString => EmptyString
  end.

Definition trim (s : string) : string := trimEnd (trimStart s).

Definition lower_char (c : ascii) : ascii :=
  if is_upper c then ascii_of_nat (nat_of_ascii c + 32) else c.

(** [String.prototype.toLowerCase] on the letters A to Z; the bytes of
    every other character are left as they are. The engine also
    lower-cases the cased letters outside ASCII. None of them becomes a
    letter of the ASCII words the handlers compare the result with
    ([json], the placeholder keys, [search], [folder]), so that those
    comparisons are exact; the addresses the bootstrap lower-cases are
    exact when they are ASCII. *)
Fixpoint toLowerCase (s : string) : string :=
  match s with
  | String c s' => String (lower_char c) (toLowerCase s')
  | EmptyString => EmptyString
  end.

(** [s.startsWith(p)] *)
Fixpoint startsWith (p s : string) : bool :=
  match p, s with
  | EmptyString, _ => true
  | String a p', String b s' => Ascii.eqb a b && startsWith p' s'
  | String _ _, EmptyString => false
  end.

(** [s.slice(n)] for [0 <= n] *)
Fixpoint slice (n : nat) (s : string) : string :=
  match n, s with
  | O, _ => s
  | S n', String _ s' => slice n' s'
  | S _, EmptyString => EmptyString
  end.

Definition hex_digit (n : nat) : ascii :=
  if (n <? 10)%nat then ascii_of_nat (48 + n) else ascii_of_nat (55 + n).

(** Characters [encodeURIComponent] leaves alone:
    [A-Z a-z 0-9 - _ . ! ~ * ' ( )]. *)
Definition unreserved (c : ascii) : bool :=
  is_upper c || is_lower c || is_digit c ||
  existsb (Ascii.eqb c) ["-"; "_"; "."; "!"; "~"; "*"; "'"; "("; ")"]%char.

(** [encodeURIComponent] on the UTF-8 bytes of the string: every other
    byte becomes [%XX] in upper-case hexadecimal. *)
Fixpoint encodeURIComponent (s : string) : string :=
  match s with
  | String c s' =>
      if unreserved c then String c (encodeURIComponent s')
      else String "%" (String (hex_digit (nat_of_ascii c / 16))
                      (String (hex_digit (nat_of_ascii c mod 16))
                              (encodeURIComponent s')))
  | EmptyString => EmptyString
  end.

(** A regular expression that is a fixed sequence of character classes,
    anchored at both ends ([^...$]). *)
Fixpoint test_classes (p : list (ascii -> bool)) (s : string) : bool :=
  match p, s with
  | [], EmptyString => true
  | cl :: p', String c s' => cl c && test_classes p' s'
  | _, _ => false
  end.

(** [s.includes(needle)] *)
Fixpoint includes (needle s : string) : bool :=
  startsWith needle s ||
  match s with
  | String _ s' => includes needle s'
  | EmptyString => false
  end.

(** Bytes the [application/x-www-form-urlencoded] serialiser of
    [URLSearchParams] leaves alone: [A-Z a-z 0-9 * - . _]. *)
Definition form_safe (c : ascii) : bool :=
  is_upper c || is_lower c || is_digit c ||
  existsb (Ascii.eqb c) ["*"; "-"; "."; "_"]%char.

(** One name or value as [URLSearchParams.prototype.toString] writes it:
    a space becomes [+], every other byte outside the safe set becomes
    [%XX]. *)
Fixpoint formEncode (s : string) : string :=
  match s with
  | String c s' =>
      if form_safe c then String c (formEncode s')
      else if Ascii.eqb c " " then String "+" (formEncode s')
      else String "%" (String (hex_digit (nat_of_ascii c / 16))
                      (String (hex_digit (nat_of_ascii c mod 16))
                              (formEncode s')))
  | EmptyString => EmptyString
  end.

(** [new URLSearchParams(obj).toString()]: [k=v] pairs joined by [&]. *)
Fixpoint formSerialize (params : list (string * string)) : string :=
  match params with
  | [] => EmptyString
  | [(k, v)] => formEncode k ++ "=" ++ formEncode v
  | (k, v) :: rest => formEncode k ++ "=" ++ formEncode v ++ "&" ++ formSerialize rest
  end.

End Str.

(** ** HTTP replies of the express handlers *)

#[local] Set Warnings "-register-all".

Inductive json :=
| JNull
| JBool (b : bool)
| JNum (n : Z)
| JStr (s : string)
| JArr (elements : list json)
| JObj (fields : list (string * json)).

(** [res.status(n).send(text)], [res.status(n).json(obj)] and
    [res.status(n).type("html").send(page)]; [res.json(obj)] alone answers
    with status 200. *)
Inductive reply :=
| SendText (status : Z) (text : string)
| SendJson (status : Z) (body : json)
| SendHtml (status : Z) (page : string).

Definition reply_status (r : reply) : Z :=
  match r with
  | SendText n _ | SendJson n _ | SendHtml n _ => n
  end.


(** ** auth.js *)

Module Auth.

(** A member of [req.query] as express hands it over: a string, or,
    for a key that is repeated or written with brackets, an array or an
    object. Such a value is truthy whatever it holds; [shown] is what
    [String(v)] gives for it. *)
Inductive qvalue :=
| QStr (s : string)
| QOther (shown : string).

(** Truthiness of a possibly-missing member. *)
Definition q_truthy (v : option qvalue) : bool :=
  match v with
  | Some (QStr s) => negb (String.eqb s EmptyString)
  | Some (QOther _) => true
  | None => false
  end.

(** A member inside a template literal. *)
Definition show (v : option qvalue) : string :=
  match v with
  | Some (QStr s) => s
  | Some (QOther shown) => shown
  | None => "undefined"
  end.

(** [req.query] of [/auth/callback]. *)
Record query := Query {
  code : option qvalue;
  state : option qvalue;
  error : option qvalue;
  error_description : option qvalue;
  format : option qvalue
}.

(** [tokenResp.data] of a successful exchange, with the members a token
    response has. *)
Record token_data := TokenData {
  access_token : string;
  refresh_token : option string;
  expires_in : Z
}.

(** Outcome of [axios.post(TOKEN_URL, ...)]: the promise resolves, or it
    rejects with an error carrying [err.response?.data] and
    [err.message]. *)
Inductive post_result :=
| Resolved (d : token_data)
| Rejected (response_data : option string) (message : string).

(** One call of [tokenStore.set]. *)
Record set_call := SetCall {
  sc_user_id : qvalue;
  sc_fields : TokenStore.credential;
  sc_ts : Z
}.

(** [tokenStore.set] on a key taken from the query: the driver binds a
    string; for an array or an object [upsertStmt.run] throws a
    [TypeError] and nothing is written ([None]). *)
Definition store_set (k : qvalue) (c : TokenStore.credential) (ts : Z)
    (d : TokenStore.db) : option TokenStore.db :=
  match k with
  | QStr uid => Some (TokenStore.set uid c ts d)
  | QOther _ => None
  end.

Section Router.

(** Environment of the process. *)
Variables CLIENT_ID REDIRECT_URI SCOPES : string.

(** The token endpoint, as a function of the object that is serialised
    and posted. *)
Variable token_endpoint : list (string * qvalue) -> post_result.

(** The confirmation page, a template over the minutes shown, the
    identity key and [expires_in]. *)
Variable signed_in_page : Z -> string -> Z -> string.

(** The messages of the two [TypeError]s that can be thrown once the
    exchange has succeeded: by the driver, for a key it cannot bind, and
    by the engine, for [toLowerCase] on a value that is not a string. *)
Variables cannot_bind not_a_function : string.

Definition exchange_form (c : qvalue) : list (string * qvalue) :=
  [("client_id", QStr CLIENT_ID); ("scope", QStr SCOPES); ("code", c);
   ("redirect_uri", QStr REDIRECT_URI); ("grant_type", QStr "authorization_code")].

(** The [catch] of the handler for an error that has no [response]:
    [res.status(400).json({ error: err.message })]. *)
Definition caught (message : string) : reply :=
  SendJson 400 (JObj [("error", JStr message)]).

(** What follows [tokenStore.set] in the [try] block: the choice of the
    answer by [format]. *)
Definition answer (fmt : option qvalue) (uid : string) (tok : token_data) : reply :=
  match fmt with
  | Some (QOther _) => caught not_a_function
  | Some (QStr _) | None =>
      let text := match fmt with
                  | Some (QStr s) => s
                  | _ => EmptyString
                  end in
      if String.eqb (Str.toLowerCase text) "json" then
        SendJson 200 (JObj [("status", JStr "logged_in");
                            ("user_id", JStr uid);
                            ("expires_in", JNum (expires_in tok))])
      else
        let minutes := Z.max 1 (expires_in tok / 60) in
        SendHtml 200 (signed_in_page minutes uid (expires_in tok))
  end.

(** [router.get("/auth/callback", ...)]. [now] is the clock read for
    the expiry, [ts] the clock read inside [tokenStore.set]. The
    result is the reply, the table afterwards and the calls of
    [tokenStore.set] that were made. *)
Definition callback (q : query) (now ts : Z) (d : TokenStore.db)
  : reply * TokenStore.db * list set_call :=
  if q_truthy (error q) then
    (SendText 400 ("OAuth error: " ++ show (error q) ++ " - "
                     ++ show (error_description q)), d, [])
  else if negb (q_truthy (code q)) || negb (q_truthy (state q)) then
    (SendText 400 "Missing authorization code or state (user_id).", d, [])
  else
    match code q, state q with
    | Some c, Some user_id =>
        match token_endpoint (exchange_form c) with
        | Resolved tok =>
            let fields :=
              TokenStore.Credential
                (access_token tok)
                (JS.or_else (refresh_token tok) None)
                (now + expires_in tok * 1000)
                (Some SCOPES) in
            let calls := [SetCall user_id fields ts] in
            match user_id, store_set user_id fields ts d with
            | QStr uid, Some d' => (answer (format q) uid tok, d', calls)
            | _, _ => (caught cannot_bind, d, calls)
            end
        | Rejected data message =>
            (SendJson 400 (JObj [("error",
                                  JStr (default message (JS.or_else data None)))]),
             d, [])
        end
    | _, _ =>
        (* not reached: a truthy member is there *)
        (SendText 400 "Missing authorization code or state (user_id).", d, [])
    end.

End Router.

(** What [GET /login] answers: a JSON refusal or a redirect. *)
Inductive login_reply :=
| Refused (r : reply)
| Redirect (location : string).

Section Login.

Variables CLIENT_ID TENANT_ID REDIRECT_URI SCOPES : string.

Definition AUTH_URL : string :=
  "https://login.microsoftonline.com/" ++ TENANT_ID ++ "/oauth2/v2.0/authorize".

Definition TOKEN_URL : string :=
  "https://login.microsoftonline.com/" ++ TENANT_ID ++ "/oauth2/v2.0/token".

(** The parameters of the authorization request for an identity key. *)
Definition login_params (user_id : string) : list (string * string) :=
  [("client_id", CLIENT_ID); ("response_type", "code");
   ("redirect_uri", REDIRECT_URI); ("response_mode", "query");
   ("scope", SCOPES); ("state", user_id); ("prompt", "select_account")].

(** [router.get("/login", ...)], given [req.query.user_id] as
    [toString] renders it, [None] when it is missing. *)
Definition login (query_user_id : option string) : login_reply :=
  let user_id := Str.trim (JS.str_or query_user_id EmptyString) in
  if negb (JS.truthy (Some user_id)) then
    Refused (SendJson 400
               (JObj [("error",
                       JStr "Missing user_id. Call /execute_tool first to get login_url + user_id.")]))
  else
    Redirect (AUTH_URL ++ "?" ++ Str.formSerialize (login_params user_id)).

End Login.

End Auth.

(** ** index.js *)

Module Index.

(** [getValidToken(user_id)], [now] being [Date.now()]. *)
Definition getValidToken (uid : string) (now : Z) (d : TokenStore.db)
  : option string :=
  match TokenStore.get uid d with
  | None => None
  | Some rec =>
      let skewMs := 60 * 1000 in
      if TokenStore.expiry rec - skewMs >? now
      then Some (TokenStore.access_token rec)
      else None
  end.

(** [/[0-9a-f]/i] *)
Definition hex (c : ascii) : bool :=
  Str.is_digit c || Str.between "a" "f" c || Str.between "A" "F" c.

Definition dash (c : ascii) : bool := Ascii.eqb c "-".

(** [/^[0-9a-f]{8}-[0-9a-f]{4}-[1-5][0-9a-f]{3}-[89ab][0-9a-f]{3}-[0-9a-f]{12}$/i] *)
Definition UUID_RE : list (ascii -> bool) :=
  repeat hex 8 ++ [dash] ++
  repeat hex 4 ++ [dash] ++
  [Str.between "1" "5"] ++ repeat hex 3 ++ [dash] ++
  [fun c => existsb (Ascii.eqb c) ["8"; "9"; "a"; "b"; "A"; "B"]%char]
    ++ repeat hex 3 ++ [dash] ++
  repeat hex 12.

Definition BAD_TOKENS : list string := [EmptyString; "new"; "temp"; "current"; "me"; "self"].

(** The request of [POST /execute_tool]: the [Authorization] header and
    the members of the body. [body_user_id] is [req.body?.user_id] as
    [toString] renders it, [None] when it is missing or falsy. *)
Record request := Request {
  authorization : option string;
  body_user_id : option string;
  action : option string
}.

Section Tool.

Variables API_KEY BASE_URL : string.

(** Step 4 of the handler, the dispatch on [action], run with the
    token and the identity key in use. *)
Variable execute_action : string -> string -> request -> reply.

Definition STRICT_USER_ID : bool := true.

(** [app.post("/execute_tool", ...)]: [minted] is the value
    [crypto.randomUUID()] would return, [now] the clock. *)
Definition execute_tool (req : request) (minted : string) (now : Z)
    (d : TokenStore.db) : reply :=
  let authHeader := JS.str_or (authorization req) EmptyString in
  let providedKey :=
    if Str.startsWith "Bearer " authHeader
    then Some (Str.slice 7 authHeader) else None in
  if negb (JS.truthy providedKey)
     || negb (bool_decide (providedKey = Some API_KEY)) then
    SendJson 401 (JObj [("error", JStr "Invalid API key");
                        ("requires_login", JBool true);
                        ("login_url", JStr (BASE_URL ++ "/login?user_id=temp"))])
  else
    let user_id := Str.trim (JS.str_or (body_user_id req) EmptyString) in
    if STRICT_USER_ID &&
       (negb (JS.truthy (Some user_id))
        || existsb (String.eqb (Str.toLowerCase user_id)) BAD_TOKENS
        || negb (Str.test_classes UUID_RE user_id)) then
      SendJson 400
        (JObj [("error", JStr "user_id_required");
               ("message",
                JStr ("Always send the SAME `user_id` you previously received as `user_id_used`. "
                      ++ "Use the `user_id` below to login, then reuse it on every request."));
               ("requires_login", JBool true);
               ("user_id", JStr minted);
               ("login_url",
                JStr (BASE_URL ++ "/login?user_id=" ++ Str.encodeURIComponent minted))])
    else
      let token := getValidToken user_id now d in
      if negb (JS.truthy token) then
        SendJson 200
          (JObj [("requires_login", JBool true);
                 ("user_id", JStr user_id);
                 ("login_url",
                  JStr (BASE_URL ++ "/login?user_id=" ++ Str.encodeURIComponent user_id))])
      else
        execute_action (default EmptyString token) user_id req.

End Tool.

End Index.

(** ** graph.js: the fetcher *)

Module Graph.

(** The request [axios.get(url, { headers, timeout: 30000 })]. *)
Record request := Request {
  req_url : string;
  req_headers : list (string * string)
}.

Definition timeout : Z := 30000.

(** The [retry-after] header of an error response. HTTP allows a
    number of seconds or a date; [Number] turns a missing header and a
    date into [NaN]. *)
Inductive retry_after :=
| NoHeader
| DelaySeconds (n : Z)
| HttpDate (text : string).

Definition Number (h : retry_after) : option Z :=
  match h with
  | DelaySeconds n => Some n
  | NoHeader | HttpDate _ => None
  end.

(** [e.response] of a rejected request. *)
Record error_response := ErrorResponse {
  status : Z;
  header_retry_after : retry_after;
  error_data : option string
}.

(** The error axios rejects with; [response] is missing when no answer
    arrived (network failure, timeout). *)
Record axios_error := AxiosError {
  response : option error_response;
  message : string
}.

(** What a function of this module can throw. *)
Inductive exn :=
| Axios (e : axios_error)
| TypeError (text : string)
| Error (text : string).

(** Outcome of running a piece of the program with some fuel. *)
Inductive result (A : Type) :=
| Return (a : A)
| Throw (e : exn)
| OutOfFuel.
Arguments Return {A} a.
Arguments Throw {A} e.
Arguments OutOfFuel {A}.

(** What has been observed of a run: the requests issued, in order, and
    the [setTimeout] delays waited for, in milliseconds. *)
Record world := World {
  requested : list request;
  slept : list Z
}.

Definition sleep (ms : Z) (w : world) : world :=
  World (requested w) (slept w ++ [ms])%list.

(** [s === 429 || s >= 500], [s] being [e.response?.status]. *)
Definition retryable (s : option Z) : bool :=
  match s with
  | Some n => (n =? 429)%Z || (n >=? 500)%Z
  | None => false
  end.

(** [Number(e.response?.headers?.["retry-after"]) || Math.min(2 ** attempt, 16)] *)
Definition retryAfter (e : axios_error) (attempt : Z) : Z :=
  JS.num_or (from_option (fun r => Number (header_retry_after r)) None (response e))
            (Z.min (2 ^ attempt) 16).

Section Fetcher.

(** The elements of a collection, as the remote API sends them. *)
Context {Item : Type}.

(** [resp.data] of a page: the [value] array and [@odata.nextLink]. *)
Record page := Page {
  value : option (list Item);
  nextLink : option string
}.

Record http_response := HttpResponse { data : option page }.

Inductive outcome :=
| Fulfilled (r : http_response)
| Rejected (e : axios_error).

(** The remote API: the answer to the [n]-th request of a run. *)
Variable server : nat -> request -> outcome.

Definition axios_get (r : request) (w : world) : outcome * world :=
  (server (length (requested w)) r, World (requested w ++ [r])%list (slept w)).

(** The loop of [httpGetWithBackoff], entered with the current value
    of [attempt]. *)
Fixpoint backoff_loop (fuel : nat) (url : string) (headers : list (string * string))
    (maxRetries attempt : Z) (w : world) : result http_response * world :=
  match fuel with
  | O => (OutOfFuel, w)
  | S fuel' =>
      match axios_get (Request url headers) w with
      | (Fulfilled r, w1) => (Return r, w1)
      | (Rejected e, w1) =>
          let s := status <$> response e in
          if retryable s && (attempt <? maxRetries)%Z then
            let w2 := sleep (retryAfter e attempt * 1000) w1 in
            backoff_loop fuel' url headers maxRetries (attempt + 1) w2
          else (Throw (Axios e), w1)
      end
  end.

(** [httpGetWithBackoff(url, headers, maxRetries = 4)]: the loop runs
    at most [maxRetries + 1] times. *)
Definition httpGetWithBackoff (url : string) (headers : list (string * string))
    (maxRetries : Z) (w : world) : result http_response * world :=
  backoff_loop (S (Z.to_nat maxRetries)) url headers maxRetries 0 w.

Definition default_maxRetries : Z := 4.

(** [resp.data?.value || []] and [resp.data?.["@odata.nextLink"]] *)
Definition items_of (r : http_response) : list Item :=
  default [] (data r ≫= value).

Definition next_of (r : http_response) : option string :=
  data r ≫= nextLink.

(** A suspended [listCollection] / [listMessages] generator: not yet
    at the top of its loop for [url], inside the [for ... of] over the
    remaining items of a page whose link is [next], or finished. *)
Inductive generator :=
| AtPage (url : string) (headers : list (string * string))
| InPage (items : list Item) (next : option string) (headers : list (string * string))
| Finished.

Inductive iteration :=
| Yield (x : Item)
| Done.

(** [async function* listCollection({ url, headers })] and
    [async function* listMessages({ url, headers })] have the same
    body; calling them runs nothing yet. *)
Definition listCollection (url : string) (headers : list (string * string))
  : generator := AtPage url headers.

Definition listMessages (url : string) (headers : list (string * string))
  : generator := AtPage url headers.

(** [gen.next()]: run the body up to the next [yield], to its end or
    to an exception. *)
Fixpoint next (fuel : nat) (g : generator) (w : world)
  : result iteration * generator * world :=
  match fuel with
  | O => (OutOfFuel, g, w)
  | S fuel' =>
      match g with
      | AtPage url headers =>
          match httpGetWithBackoff url headers default_maxRetries w with
          | (Return resp, w1) =>
              next fuel' (InPage (items_of resp) (next_of resp) headers) w1
          | (Throw e, w1) => (Throw e, Finished, w1)
          | (OutOfFuel, w1) => (OutOfFuel, g, w1)
          end
      | InPage (x :: rest) nxt headers =>
          (Return (Yield x), InPage rest nxt headers, w)
      | InPage [] nxt headers =>
          if negb (JS.truthy nxt) then (Return Done, Finished, w)
          else next fuel' (AtPage (default EmptyString nxt) headers) w
      | Finished => (Return Done, Finished, w)
      end
  end.

(** [for await (const m of gen) { out.push(shape(m)); if (out.length >= bound) break; }]
    with [bound = None] for a loop without the [break]. Leaving the
    loop by [break] closes the generator where it is suspended. *)
Fixpoint for_await {B : Type} (shape : Item -> B) (bound : option Z)
    (fuel : nat) (g : generator) (out : list B) (w : world)
  : result (list B) * world :=
  match fuel with
  | O => (OutOfFuel, w)
  | S fuel' =>
      match next fuel' g w with
      | (Return (Yield m), g1, w1) =>
          let out1 := (out ++ [shape m])%list in
          match bound with
          | Some top =>
              if (Z.of_nat (length out1) >=? top)%Z then (Return out1, w1)
              else for_await shape bound fuel' g1 out1 w1
          | None => for_await shape bound fuel' g1 out1 w1
          end
      | (Return Done, _, w1) => (Return out, w1)
      | (Throw e, _, w1) => (Throw e, w1)
      | (OutOfFuel, _, w1) => (OutOfFuel, w1)
      end
  end.

End Fetcher.

Arguments page Item : clear implicits.
Arguments http_response Item : clear implicits.
Arguments outcome Item : clear implicits.
Arguments generator Item : clear implicits.
Arguments iteration Item : clear implicits.

(** ** graph.js: the operations on the mailbox *)

(** A message of the remote API, with the members [mapMsg] reads;
    [from_address] is [m.from?.emailAddress?.address]. *)
Module Msg.
Record t := Make {
  id : option string;
  receivedDateTime : option string;
  sentDateTime : option string;
  createdDateTime : option string;
  from_address : option string;
  subject : option string;
  bodyPreview : option string;
  parentFolderId : option string
}.
End Msg.

(** The compact shape handed to the caller. *)
Record mail := Mail {
  id : option string;
  received : option string;
  sent : option string;
  from : option string;
  subject : option string;
  preview : option string;
  folderId : option string
}.

Definition mapMsg (m : Msg.t) : mail :=
  {| id := Msg.id m;
     received := Msg.receivedDateTime m;
     sent := JS.or_else (Msg.sentDateTime m) (Msg.createdDateTime m);
     from := Msg.from_address m;
     subject := Msg.subject m;
     preview := Msg.bodyPreview m;
     folderId := Msg.parentFolderId m |}.

(** [{ results: out, count: out.length, ... }] *)
Record listing := Listing {
  results : list mail;
  count : Z;
  extras : list (string * json)
}.

(** [a < b] on two possibly-undefined strings: a comparison with
    [undefined] is false, two strings compare by code units. *)
Definition js_lt (a b : option string) : bool :=
  match a, b with
  | Some x, Some y => String.ltb x y
  | _, _ => false
  end.

(** [(a, b) => (a.received < b.received ? 1 : -1)] *)
Definition by_received_desc (a b : mail) : Z :=
  if js_lt (received a) (received b) then 1 else -1.

(** [Array.prototype.sort(cmp)] belongs to the engine. It is taken to
    be the stable insertion sort that puts [x] in front of the first
    [y] with [cmp(x, y) <= 0]. For a comparator that orders the elements
    consistently this is the list every engine returns, the sort being
    stable. For one that does not, as the comparator of the searches on
    two equal or two missing [received] times, the order among those
    elements is the engine's own; the properties of the searches state
    what does not depend on it: the elements, and their order when each
    has a [received] time. *)
Fixpoint insert_by {A : Type} (cmp : A -> A -> Z) (x : A) (l : list A) : list A :=
  match l with
  | [] => [x]
  | y :: l' => if (cmp x y <=? 0)%Z then x :: l else y :: insert_by cmp x l'
  end.

Definition Array_sort {A : Type} (cmp : A -> A -> Z) (l : list A) : list A :=
  fold_right (insert_by cmp) [] l.

Definition dquote : string := String "034" EmptyString.

(** [String(n)] for an integer. *)
Definition String_ (n : Z) : string :=
  DecimalString.NilZero.string_of_int (Z.to_int n).

(** [s.replace(/'/g, "''")] (the replacement is two apostrophes) *)
Fixpoint double_apostrophes (s : string) : string :=
  match s with
  | String c s' =>
      if Ascii.eqb c "'" then String "'" (String "'" (double_apostrophes s'))
      else String c (double_apostrophes s')
  | EmptyString => EmptyString
  end.

Definition messages_url : string := "https://graph.microsoft.com/v1.0/me/messages".
Definition select_full : string :=
  "id,receivedDateTime,sentDateTime,createdDateTime,subject,bodyPreview,from,parentFolderId".
Definition select_search : string :=
  "id,receivedDateTime,subject,bodyPreview,from,parentFolderId".

Definition text_headers (access_token : string) : list (string * string) :=
  [("Authorization", "Bearer " ++ access_token);
   ("Prefer", "outlook.body-content-type=" ++ dquote ++ "text" ++ dquote)].

Definition search_headers (access_token : string) : list (string * string) :=
  (text_headers access_token ++ [("ConsistencyLevel", "eventual")])%list.

Definition on_return {A B : Type} (f : A -> B) (r : result A * world)
  : result B * world :=
  match r with
  | (Return a, w) => (Return (f a), w)
  | (Throw e, w) => (Throw e, w)
  | (OutOfFuel, w) => (OutOfFuel, w)
  end.

Definition listing_of (extra : list (string * json)) (out : list mail) : listing :=
  Listing out (Z.of_nat (length out)) extra.

Section Facade.

Variable server : nat -> request -> outcome Msg.t.

(** [new URL(base)] followed by [url.searchParams.set(k, v)] for each
    pair, then [url.toString()]. *)
Variable with_params : string -> list (string * string) -> string.

(** [new URL(next).toString()], or [None] when the constructor throws
    on a string that is not an absolute URL. *)
Variable URL : string -> option string.

(** The loop shared by every reader:
    [for await (const m of listMessages({ url, headers })) { out.push(mapMsg(m)); if (out.length >= bound) break; }] *)
Definition read_capped (fuel : nat) (url : string)
    (headers : list (string * string)) (bound : Z) (w : world)
  : result (list mail) * world :=
  for_await server mapMsg (Some bound) fuel (listMessages url headers) [] w.

(** Latest messages across all folders (first N). *)
Definition readLatest (fuel : nat) (access_token : string) (top : Z) (w : world)
  : result listing * world :=
  let url := with_params messages_url
               [("$orderby", "receivedDateTime desc"); ("$top", String_ top);
                ("$select", select_full)] in
  on_return (listing_of []) (read_capped fuel url (text_headers access_token) top w).

(** Latest from Sent Items (first N). *)
Definition readSentLatest (fuel : nat) (access_token : string) (top : Z) (w : world)
  : result listing * world :=
  let url := with_params "https://graph.microsoft.com/v1.0/me/mailFolders/SentItems/messages"
               [("$orderby", "sentDateTime desc"); ("$top", String_ top);
                ("$select", select_full)] in
  on_return (listing_of []) (read_capped fuel url (text_headers access_token) top w).

(** Whole mailbox (deep paginate) up to [max]. *)
Definition readAllMailbox (fuel : nat) (access_token : string) (max : Z) (w : world)
  : result listing * world :=
  let url := with_params messages_url
               [("$orderby", "receivedDateTime desc"); ("$top", "100");
                ("$select", select_full)] in
  on_return (listing_of []) (read_capped fuel url (text_headers access_token) max w).

(** Specific folder by display name. *)
Definition readFolderAll (fuel : nat) (access_token folderName : string) (max : Z)
    (w : world) : result listing * world :=
  let enc := Str.encodeURIComponent folderName in
  let url := with_params ("https://graph.microsoft.com/v1.0/me/mailFolders/" ++ enc ++ "/messages")
               [("$orderby", "receivedDateTime desc"); ("$top", "100");
                ("$select", select_full)] in
  on_return (listing_of [("folder", JStr folderName)])
            (read_capped fuel url (text_headers access_token) max w).

(** Absolute date window (all folders). *)
Definition filterAllMailByDate (fuel : nat) (access_token startIso endIso : string)
    (top : Z) (w : world) : result listing * world :=
  let url := with_params messages_url
               [("$filter", "receivedDateTime ge " ++ startIso
                              ++ " and receivedDateTime le " ++ endIso);
                ("$orderby", "receivedDateTime desc"); ("$top", String_ top);
                ("$select", select_search)] in
  on_return (listing_of []) (read_capped fuel url (text_headers access_token) top w).

(** Read messages from a folder by its opaque id. *)
Definition readFolderByIdAll (fuel : nat) (access_token folderId : string) (max : Z)
    (w : world) : result listing * world :=
  if String.eqb folderId EmptyString then (Throw (Error "folderId is required"), w)
  else
    let url := with_params ("https://graph.microsoft.com/v1.0/me/mailFolders/"
                              ++ Str.encodeURIComponent folderId ++ "/messages")
                 [("$orderby", "receivedDateTime desc"); ("$top", "100");
                  ("$select", select_full)] in
    on_return (listing_of [("folderId", JStr folderId)])
              (read_capped fuel url (text_headers access_token) max w).

(** Read messages from a search folder by id. *)
Definition readSearchFolderByIdAll (fuel : nat) (access_token folderId : string)
    (max : Z) (w : world) : result listing * world :=
  readFolderByIdAll fuel access_token folderId max w.

(** The [for (const m of resp.data?.value || [])] loop of the search
    functions; the flag tells whether [out.length >= bound] was
    reached, where they return from inside the loop. *)
Fixpoint push_capped (items : list Msg.t) (out : list mail) (bound : Z)
  : list mail * bool :=
  match items with
  | [] => (out, false)
  | m :: rest =>
      let out1 := (out ++ [mapMsg m])%list in
      if (Z.of_nat (length out1) >=? bound)%Z then (out1, true)
      else push_capped rest out1 bound
  end.

(** The paging loop written out in [searchAllMail],
    [searchAllMailAllPages] and [searchBySenderEmail]; [url] is
    [url.toString()]. What is done with [out] on leaving differs. *)
Fixpoint page_loop (fuel : nat) (url : string) (headers : list (string * string))
    (out : list mail) (bound : Z) (w : world) : result (list mail) * world :=
  match fuel with
  | O => (OutOfFuel, w)
  | S fuel' =>
      match httpGetWithBackoff server url headers default_maxRetries w with
      | (Return resp, w1) =>
          match push_capped (items_of resp) out bound with
          | (out1, true) => (Return out1, w1)
          | (out1, false) =>
              if negb (JS.truthy (next_of resp)) then (Return out1, w1)
              else
                match URL (default EmptyString (next_of resp)) with
                | Some href => page_loop fuel' href headers out1 bound w1
                | None => (Throw (TypeError "Invalid URL"), w1)
                end
          end
      | (Throw e, w1) => (Throw e, w1)
      | (OutOfFuel, w1) => (OutOfFuel, w1)
      end
  end.

(** AQS/keyword search (first N): sorts [out] before both returns. *)
Definition searchAllMail (fuel : nat) (access_token query : string) (top : Z)
    (w : world) : result listing * world :=
  let url := with_params messages_url
               [("$search", dquote ++ query ++ dquote);
                ("$top", String_ (Z.min top 100));
                ("$select", select_search)] in
  on_return (fun out => listing_of [] (Array_sort by_received_desc out))
            (page_loop fuel url (search_headers access_token) [] top w).

(** Deep AQS (all pages up to max): returns [out] as accumulated. *)
Definition searchAllMailAllPages (fuel : nat) (access_token query : string)
    (max : Z) (w : world) : result listing * world :=
  let url := with_params messages_url
               [("$search", dquote ++ query ++ dquote);
                ("$top", "100");
                ("$select", select_search)] in
  on_return (listing_of [])
            (page_loop fuel url (search_headers access_token) [] max w).

(** Exact sender email (exhaustive crawl via [$filter]): sorts [out]
    before both returns. *)
Definition searchBySenderEmail (fuel : nat) (access_token email : string)
    (limit : Z) (startIso endIso : option string) (w : world)
  : result listing * world :=
  if String.eqb email EmptyString then (Throw (Error "email is required"), w)
  else
    let filter0 := "from/emailAddress/address eq '" ++ double_apostrophes email ++ "'" in
    let filter :=
      if JS.truthy startIso && JS.truthy endIso
      then filter0 ++ " and receivedDateTime ge " ++ default EmptyString startIso
                   ++ " and receivedDateTime le " ++ default EmptyString endIso
      else filter0 in
    let url := with_params messages_url
                 [("$filter", filter); ("$select", select_search); ("$top", "100")] in
    on_return (fun out => listing_of [("email", JStr email)]
                                     (Array_sort by_received_desc out))
              (page_loop fuel url (text_headers access_token) [] limit w).

(** [senders.add(x)] on a [Set] kept in insertion order. *)
Definition set_add (x : string) (senders : list string) : list string :=
  if bool_decide (x ∈ senders) then senders else (senders ++ [x])%list.

(** Step 2 of the bootstrap: the distinct lower-case [from] addresses. *)
Fixpoint discover (ms : list mail) (senders : list string) : list string :=
  match ms with
  | [] => senders
  | m :: rest =>
      let addr := Str.trim (JS.str_or (from m) EmptyString) in
      if String.eqb addr EmptyString then discover rest senders
      else discover rest (set_add (Str.toLowerCase addr) senders)
  end.

(** Step 3: one exact-email crawl per discovered address, appended. *)
Fixpoint crawl (fuel : nat) (access_token : string) (perSenderLimit : Z)
    (senders : list string) (all : list mail) (w : world)
  : result (list mail) * world :=
  match senders with
  | [] => (Return all, w)
  | email :: rest =>
      match searchBySenderEmail fuel access_token email perSenderLimit None None w with
      | (Return res, w1) =>
          crawl fuel access_token perSenderLimit rest (all ++ results res)%list w1
      | (Throw e, w1) => (Throw e, w1)
      | (OutOfFuel, w1) => (OutOfFuel, w1)
      end
  end.

(** [all.filter(m => (seen.has(m.id) ? false : (seen.add(m.id), true)))] *)
Fixpoint dedupe (all : list mail) (seen : list (option string)) : list mail :=
  match all with
  | [] => []
  | m :: rest =>
      if bool_decide (id m ∈ seen) then dedupe rest seen
      else m :: dedupe rest (id m :: seen)
  end.

(** Name bootstrap. *)
Definition searchSenderByNameBootstrap (fuel : nat) (access_token name : string)
    (maxAqs perSenderLimit : Z) (w : world) : result listing * world :=
  if String.eqb name EmptyString then (Throw (Error "name is required"), w)
  else
    match searchAllMailAllPages fuel access_token ("from:" ++ name) maxAqs w with
    | (Return aqs, w1) =>
        let senders := discover (results aqs) [] in
        if (length senders =? 0)%nat then
          (Return (Listing [] 0 [("discoveredSenders", JArr [])]), w1)
        else
          on_return
            (fun all =>
               listing_of [("discoveredSenders", JArr (JStr <$> senders))]
                          (Array_sort by_received_desc (dedupe all [])))
            (crawl fuel access_token perSenderLimit senders [] w1)
    | (Throw e, w1) => (Throw e, w1)
    | (OutOfFuel, w1) => (OutOfFuel, w1)
    end.

End Facade.

(** ** graph.js: folders *)

(** A mail folder as the remote API sends it, with the selected
    members. *)
Module Folder.
Record t := Make {
  id : option string;
  displayName : option string;
  childFolderCount : option Z;
  totalItemCount : option Z;
  unreadItemCount : option Z
}.
End Folder.

Definition folder_select : string :=
  "id,displayName,childFolderCount,totalItemCount,unreadItemCount".

Definition bearer_headers (access_token : string) : list (string * string) :=
  [("Authorization", "Bearer " ++ access_token)].

(** The heuristic of the fallback: the lower-cased display name contains
    both [search] and [folder]. *)
Definition looks_like_search_folder (f : Folder.t) : bool :=
  let name := Str.toLowerCase (JS.str_or (Folder.displayName f) EmptyString) in
  Str.includes "search" name && Str.includes "folder" name.

Section Folders.

(** The remote API, as seen by the requests for folders. *)
Variable server : nat -> request -> outcome Folder.t.

Variable with_params : string -> list (string * string) -> string.

(** [String.prototype.localeCompare], which belongs to the engine and
    its locale. *)
Variable localeCompare : string -> string -> Z.

(** [(a, b) => (a.displayName || "").localeCompare(b.displayName || "")]
    (the fallback operand is the empty string) *)
Definition by_displayName (a b : Folder.t) : Z :=
  localeCompare (JS.str_or (Folder.displayName a) EmptyString)
                (JS.str_or (Folder.displayName b) EmptyString).

(** List all folders (names and ids). *)
Definition listAllFolders (fuel : nat) (access_token : string) (w : world)
  : result (list Folder.t) * world :=
  let url := with_params "https://graph.microsoft.com/v1.0/me/mailFolders"
               [("$top", "100"); ("$select", folder_select)] in
  on_return (Array_sort by_displayName)
            (for_await server (fun f => f) None fuel
               (listCollection url (bearer_headers access_token)) [] w).

(** [for await (const f of gen) out.push(f)] on an array [out] that
    outlives the loop: what has been pushed stays pushed when the loop is
    left by an exception. *)
Fixpoint for_await_push (fuel : nat) (g : generator Folder.t) (out : list Folder.t)
    (w : world) : list Folder.t * result unit * world :=
  match fuel with
  | O => (out, OutOfFuel, w)
  | S fuel' =>
      match next server fuel' g w with
      | (Return (Yield f), g1, w1) => for_await_push fuel' g1 (out ++ [f])%list w1
      | (Return Done, _, w1) => (out, Return tt, w1)
      | (Throw e, _, w1) => (out, Throw e, w1)
      | (OutOfFuel, _, w1) => (out, OutOfFuel, w1)
      end
  end.

(** List search folders: the well-known container first, inside a [try]
    whose [catch] is empty; when nothing was collected, all folders
    filtered by name. *)
Definition listSearchFolders (fuel : nat) (access_token : string) (w : world)
  : result (list Folder.t) * world :=
  let headers := bearer_headers access_token in
  let url := with_params
               "https://graph.microsoft.com/v1.0/me/mailFolders('searchfolders')/childFolders"
               [("$top", "100"); ("$select", folder_select)] in
  match for_await_push fuel (listCollection url headers) [] w with
  | (_, OutOfFuel, w1) => (OutOfFuel, w1)
  | (out, _, w1) =>
      if (length out =? 0)%nat then
        on_return (List.filter looks_like_search_folder)
                  (listAllFolders fuel access_token w1)
      else (Return (Array_sort by_displayName out), w1)
  end.

End Folders.

End Graph.

(** ** index.js: the dispatch on [action] *)

Module Tool.

(** A numeric member of [inputs] as the JSON body gives it: missing, a
    number, or a string holding a decimal integer. The numbers are
    integers, as counts are; a number with a fractional part is outside
    the model. *)
Inductive number_input :=
| Absent
| Number (n : Z)
| NumberText (n : Z).

(** [Number(x || dflt)]: a missing member and the number zero are falsy;
    a string of digits is truthy, also when it reads zero. *)
Definition number_or (x : number_input) (dflt : Z) : Z :=
  match x with
  | Absent => dflt
  | Number n => if Z.eqb n 0 then dflt else n
  | NumberText n => n
  end.

(** [req.body.inputs] *)
Record inputs := Inputs {
  top : number_input;
  max : number_input;
  limit : number_input;
  maxAqs : number_input;
  perSenderLimit : number_input;
  n : number_input;
  folder : option string;
  folderId : option string;
  q : option string;
  startIso : option string;
  endIso : option string;
  email : option string;
  name : option string;
  tz : option string;
  intent : option string;
  on : option string;
  since : option string;
  start : option string;
  end_ : option string
}.

(** The argument of [computeRange]. *)
Record range_request := RangeRequest {
  r_tz : string;
  r_intent : option string;
  r_n : number_input;
  r_on : option string;
  r_since : option string;
  r_start : option string;
  r_end : option string
}.

(** What the handler sends: the headers it set and the reply. *)
Record tool_reply := ToolReply {
  headers : list (string * string);
  response : reply
}.

(** [ok(payload)]: sets [X-User-Id-Used] and answers
    [{ user_id_used: user_id, ...payload }]. *)
Definition ok (user_id : string) (payload : list (string * json)) : tool_reply :=
  ToolReply [("X-User-Id-Used", user_id)]
            (SendJson 200 (JObj (("user_id_used", JStr user_id) :: payload))).

(** [res.status(400).json({ error: text })] *)
Definition bad_request (text : string) : tool_reply :=
  ToolReply [] (SendJson 400 (JObj [("error", JStr text)])).

(** A member that [JSON.stringify] leaves out when it is [undefined]. *)
Definition member (k : string) (v : option string) : list (string * json) :=
  match v with
  | Some text => [(k, JStr text)]
  | None => []
  end.

Definition number_member (k : string) (v : option Z) : list (string * json) :=
  match v with
  | Some num => [(k, JNum num)]
  | None => []
  end.

Definition mail_json (m : Graph.mail) : json :=
  JObj (member "id" (Graph.id m) ++ member "received" (Graph.received m)
        ++ member "sent" (Graph.sent m) ++ member "from" (Graph.from m)
        ++ member "subject" (Graph.subject m) ++ member "preview" (Graph.preview m)
        ++ member "folderId" (Graph.folderId m))%list.

Definition folder_json (f : Graph.Folder.t) : json :=
  JObj (member "id" (Graph.Folder.id f)
        ++ member "displayName" (Graph.Folder.displayName f)
        ++ number_member "childFolderCount" (Graph.Folder.childFolderCount f)
        ++ number_member "totalItemCount" (Graph.Folder.totalItemCount f)
        ++ number_member "unreadItemCount" (Graph.Folder.unreadItemCount f))%list.

(** The members of [{ results, count, ... }]. *)
Definition listing_json (l : Graph.listing) : list (string * json) :=
  ([("results", JArr (mail_json <$> Graph.results l)); ("count", JNum (Graph.count l))]
   ++ Graph.extras l)%list.

Definition folders_json (fs : list Graph.Folder.t) : list (string * json) :=
  [("folders", JArr (folder_json <$> fs))].

(** [err?.response?.data || err?.message || "Unknown error"] *)
Definition error_payload (e : Graph.exn) : string :=
  match e with
  | Graph.Axios a =>
      JS.str_or (Graph.response a ≫= Graph.error_data)
                (JS.str_or (Some (Graph.message a)) "Unknown error")
  | Graph.TypeError text | Graph.Error text => JS.str_or (Some text) "Unknown error"
  end.

(** [return ok(data)] inside the [try], with the [catch] that answers
    400. *)
Definition answer {A : Type} (user_id : string) (payload : A -> list (string * json))
    (run : Graph.result A * Graph.world) : Graph.result tool_reply * Graph.world :=
  match run with
  | (Graph.Return a, w) => (Graph.Return (ok user_id (payload a)), w)
  | (Graph.Throw e, w) => (Graph.Return (bad_request (error_payload e)), w)
  | (Graph.OutOfFuel, w) => (Graph.OutOfFuel, w)
  end.

Section Dispatch.

(** The remote API as seen by the requests for messages and by the
    requests for folders. *)
Variable server : nat -> Graph.request -> Graph.outcome Graph.Msg.t.
Variable folder_server : nat -> Graph.request -> Graph.outcome Graph.Folder.t.

Variable with_params : string -> list (string * string) -> string.
Variable URL : string -> option string.
Variable localeCompare : string -> string -> Z.

(** [computeRange], which needs the clock and the time zone database:
    the range, or the message of the error it throws. *)
Variable computeRange : range_request -> (string * string * string) + string.

Definition is_action (action : option string) (name : string) : bool :=
  bool_decide (action = Some name).

(** Step 4 of [app.post("/execute_tool", ...)], run with the token and
    the identity key the gate let through. *)
Definition execute_action (fuel : nat) (token user_id : string)
    (action : option string) (inp : inputs) (w : Graph.world)
  : Graph.result tool_reply * Graph.world :=
  if is_action action "read" then
    answer user_id listing_json
      (Graph.readLatest server with_params fuel token (number_or (top inp) 10) w)
  else if is_action action "read_sent" then
    answer user_id listing_json
      (Graph.readSentLatest server with_params fuel token (number_or (top inp) 10) w)
  else if is_action action "read_all" then
    answer user_id listing_json
      (Graph.readAllMailbox server with_params fuel token (number_or (max inp) 1000) w)
  else if is_action action "list_folders" then
    answer user_id folders_json
      (Graph.listAllFolders folder_server with_params localeCompare fuel token w)
  else if is_action action "read_folder_all" then
    answer user_id listing_json
      (Graph.readFolderAll server with_params fuel token
         (JS.str_or (folder inp) "Inbox") (number_or (max inp) 1000) w)
  else if is_action action "read_folder_id_all" then
    let folderId := JS.str_or (folderId inp) EmptyString in
    if String.eqb folderId EmptyString then
      (Graph.Return (bad_request "folderId is required"), w)
    else
      answer user_id listing_json
        (Graph.readFolderByIdAll server with_params fuel token folderId
           (number_or (max inp) 1000) w)
  else if is_action action "list_search_folders" then
    answer user_id folders_json
      (Graph.listSearchFolders folder_server with_params localeCompare fuel token w)
  else if is_action action "read_search_folder_id_all" then
    let folderId := JS.str_or (folderId inp) EmptyString in
    if String.eqb folderId EmptyString then
      (Graph.Return (bad_request "folderId is required"), w)
    else
      answer user_id listing_json
        (Graph.readSearchFolderByIdAll server with_params fuel token folderId
           (number_or (max inp) 1000) w)
  else if is_action action "read_relative" then
    match computeRange
            (RangeRequest (Str.trim (JS.str_or (tz inp) "America/Chicago"))
                          (intent inp) (n inp) (on inp) (since inp) (start inp) (end_ inp))
    with
    | inl (startIso, endIso, zone) =>
        answer user_id
          (fun data =>
             ("range", JObj [("startIso", JStr startIso); ("endIso", JStr endIso);
                             ("tz", JStr zone)])
               :: listing_json data)
          (Graph.filterAllMailByDate server with_params fuel token startIso endIso
             (number_or (top inp) 5000) w)
    | inr text => (Graph.Return (bad_request (JS.str_or (Some text) "Unknown error")), w)
    end
  else if is_action action "search" then
    answer user_id listing_json
      (Graph.searchAllMail server with_params URL fuel token
         (Str.trim (JS.str_or (q inp) EmptyString)) (number_or (top inp) 50) w)
  else if is_action action "search_all" then
    answer user_id listing_json
      (Graph.searchAllMailAllPages server with_params URL fuel token
         (Str.trim (JS.str_or (q inp) EmptyString)) (number_or (max inp) 1000) w)
  else if is_action action "search_by_date" then
    let startIso := Str.trim (JS.str_or (startIso inp) EmptyString) in
    let endIso := Str.trim (JS.str_or (endIso inp) EmptyString) in
    if String.eqb startIso EmptyString || String.eqb endIso EmptyString then
      (Graph.Return (bad_request "startIso and endIso are required (ISO 8601)"), w)
    else
      answer user_id listing_json
        (Graph.filterAllMailByDate server with_params fuel token startIso endIso
           (number_or (top inp) 200) w)
  else if is_action action "search_sender_email" then
    let email := Str.trim (JS.str_or (email inp) EmptyString) in
    if String.eqb email EmptyString then
      (Graph.Return (bad_request "email is required"), w)
    else
      answer user_id listing_json
        (Graph.searchBySenderEmail server with_params URL fuel token email
           (number_or (limit inp) 2000) None None w)
  else if is_action action "search_sender_name_bootstrap" then
    let name := Str.trim (JS.str_or (name inp) EmptyString) in
    if String.eqb name EmptyString then
      (Graph.Return (bad_request "name is required"), w)
    else
      answer user_id listing_json
        (Graph.searchSenderByNameBootstrap server with_params URL fuel token name
           (number_or (maxAqs inp) 300) (number_or (perSenderLimit inp) 2000) w)
  else
    (Graph.Return (ok user_id [("error", JStr "Invalid action")]), w).

End Dispatch.

End Tool.

(** * Vocabulary of the properties *)

(** Every character of the string is in the class. *)
Fixpoint all_chars (P : ascii → bool) (s : string) : bool :=
  match s with
  | String c s' => P c && all_chars P s'
  | EmptyString => true
  end.

(** The characters of an identity key in UUID form: hexadecimal digits
    and the dash. *)
Definition uuid_char (c : ascii) : bool := Index.hex c || Index.dash c.

(** The delay slept after an outcome that is retried. *)
Definition delay_after {Item : Type} (o : Graph.outcome Item) (attempt : Z) : Z :=
  match o with
  | Graph.Rejected e => (Graph.retryAfter e attempt * 1000)%Z
  | Graph.Fulfilled _ => 0%Z
  end.

(** The outcome is a rejection with a status that is retried. *)
Definition retried {Item : Type} (o : Graph.outcome Item) : bool :=
  match o with
  | Graph.Rejected e => Graph.retryable (Graph.status <$> Graph.response e)
  | Graph.Fulfilled _ => false
  end.

(** What a response of the remote API holds, read off the response
    itself: the elements of the [value] array of its body, none when it
    has no body or its body has no such array; and the [@odata.nextLink]
    of its body. *)
Definition listed {Item : Type} (r : Graph.http_response Item) : list Item :=
  match r with
  | Graph.HttpResponse (Some (Graph.Page (Some elements) _)) => elements
  | _ => []
  end.

Definition link_of {Item : Type} (r : Graph.http_response Item) : option string :=
  match r with
  | Graph.HttpResponse (Some (Graph.Page _ link)) => link
  | _ => None
  end.

(** The loops read a response as it is written: the items they go
    through are its [value] array and the link they follow is its
    [@odata.nextLink]. *)
Definition reads_responses (Item : Type) : Prop :=
  ∀ r : Graph.http_response Item,
    Graph.items_of r = listed r ∧ Graph.next_of r = link_of r.

(** A link that is there: a string that is not empty. *)
Definition links_to (link : option string) (u : string) : Prop :=
  link = Some u ∧ u ≠ EmptyString.

(** No link: none at all, or an empty string. *)
Definition no_link (link : option string) : Prop :=
  link = None ∨ link = Some EmptyString.

Section Collections.

Import Graph.
Context {Item : Type} (server : nat → request → outcome Item).
Variable headers : list (string * string).

(** From its [n]-th request on, the remote API serves the finite
    collection [pages] to whoever starts at [url] and follows the
    links: each page but the last carries the link to the following one,
    the last carries none. *)
Fixpoint serves (n : nat) (url : string) (pages : list (http_response Item)) : Prop :=
  match pages with
  | [] => False
  | r :: rest =>
      server n (Request url headers) = Fulfilled r ∧
      match rest with
      | [] => no_link (link_of r)
      | _ :: _ => ∃ u, links_to (link_of r) u ∧ serves (S n) u rest
      end
  end.

(** The pages that follow one whose link is [nl]. *)
Definition continues (n : nat) (nl : option string)
    (rest : list (http_response Item)) : Prop :=
  match rest with
  | [] => no_link nl
  | _ :: _ => ∃ u, links_to nl u ∧ serves n u rest
  end.

(** The items of the collection, page after page. *)
Definition all_items (pages : list (http_response Item)) : list Item :=
  concat (listed <$> pages).

(** The requests that walk the collection: [url], then the link of
    each page. *)
Fixpoint requests_for (url : string) (pages : list (http_response Item))
  : list request :=
  match pages with
  | [] => []
  | r :: rest => Request url headers :: requests_for (default EmptyString (link_of r)) rest
  end.

(** The number of pages one has to fetch to see [n] items. *)
Fixpoint pages_needed (n : nat) (pages : list (http_response Item)) : nat :=
  match n, pages with
  | O, _ => O
  | _, [] => O
  | _, r :: rest => S (pages_needed (n - length (listed r)) rest)
  end.

End Collections.

(** [a] does not come after [b] in descending order of [received]. *)
Definition not_older (a b : Graph.mail) : Prop := Graph.js_lt (Graph.received a) (Graph.received b) = false.

(** The results are in descending order of [received]. *)
Definition newest_first (l : list Graph.mail) : Prop := StronglySorted not_older l.

Section ParsedCollections.

Import Graph.
Context {Item : Type} (server : nat → request → outcome Item).
Variable URL : string → option string.
Variable headers : list (string * string).

(** The finite collection [pages] as served to the loops that pass each
    link through [new URL(next)]: the page after one with link [u] is
    served at the serialisation of [u]. *)
Fixpoint serves_parsed (n : nat) (url : string) (pages : list (http_response Item))
  : Prop :=
  match pages with
  | [] => False
  | r :: rest =>
      server n (Request url headers) = Fulfilled r ∧
      match rest with
      | [] => no_link (link_of r)
      | _ :: _ =>
          ∃ u href, links_to (link_of r) u ∧ URL u = Some href ∧
                    serves_parsed (S n) href rest
      end
  end.

(** The requests of those loops: [url], then the serialisation of the
    link of each page. *)
Fixpoint requests_parsed (url : string) (pages : list (http_response Item))
  : list request :=
  match pages with
  | [] => []
  | r :: rest =>
      Request url headers
        :: requests_parsed (default EmptyString (link_of r ≫= URL)) rest
  end.

End ParsedCollections.

(** The first message of [all] that has the id [i]. *)
Definition first_with_id (i : option string) (all : list Graph.mail) : option Graph.mail :=
  snd <$> list_find (λ x, Graph.id x = i) all.

(** The two shapes of a reply of the dispatch: the [ok] reply, which
    names the identity key in a header and in its first member, and the
    400 reply, which holds an [error] member only. *)
Definition names_identity (user_id : string) (rep : Tool.tool_reply) : Prop :=
  Tool.headers rep = [("X-User-Id-Used", user_id)] ∧
  ∃ payload,
    Tool.response rep = SendJson 200 (JObj (("user_id_used", JStr user_id) :: payload)).

Definition is_bad_request (rep : Tool.tool_reply) : Prop :=
  Tool.headers rep = [] ∧
  ∃ text, Tool.response rep = SendJson 400 (JObj [("error", JStr text)]).

(** The action names the dispatch knows. *)
Definition known_actions : list string :=
  ["read"; "read_sent"; "read_all"; "list_folders"; "read_folder_all";
   "read_folder_id_all"; "list_search_folders"; "read_search_folder_id_all";
   "read_relative"; "search"; "search_all"; "search_by_date";
   "search_sender_email"; "search_sender_name_bootstrap"].

(** A bound a client may sensibly send: none, a JSON number that is not
    negative, or a string of digits reading at least one. *)
Definition sensible_bound (x : Tool.number_input) : Prop :=
  match x with
  | Tool.Absent => True
  | Tool.Number n => (0 ≤ n)%Z
  | Tool.NumberText n => (1 ≤ n)%Z
  end.

(** The outcome is not a rejection that names a delay: it has no
    [retry-after] header, or a date in it, or the number zero. *)
Definition plain_rejection {Item : Type} (o : Graph.outcome Item) : bool :=
  match o with
  | Graph.Rejected e =>
      match Graph.response e with
      | Some r =>
          match Graph.header_retry_after r with
          | Graph.DelaySeconds n => Z.eqb n 0
          | _ => true
          end
      | None => true
      end
  | Graph.Fulfilled _ => true
  end.

(** * Scenarios *)

(** A token endpoint that accepts every code with a one-hour token. *)
Definition hourly_endpoint : list (string * Auth.qvalue) → Auth.post_result :=
  λ _, Auth.Resolved (Auth.TokenData "eyJ0eXAi" None 3600).


(** A remote API that answers the first request with 429 and
    [Retry-After: 0], and every later one with an empty last page. *)
Definition throttled_once : nat → Graph.request → Graph.outcome unit :=
  λ n _,
    match n with
    | O => Graph.Rejected
             (Graph.AxiosError
                (Some (Graph.ErrorResponse 429 (Graph.DelaySeconds 0) None))
                "Request failed with status code 429")
    | S _ => Graph.Fulfilled (Graph.HttpResponse (Some (Graph.Page (Some []) None)))
    end.

(** A collection of three pages holding two, two and one item; the third
    page has no link. The remote API answers by URL. *)
Definition three_pages : list (Graph.http_response string) :=
  [Graph.HttpResponse
     (Some (Graph.Page (Some ["m1"; "m2"]) (Some "https://graph.microsoft.com/v1.0/me/messages?$skip=2")));
   Graph.HttpResponse
     (Some (Graph.Page (Some ["m3"; "m4"]) (Some "https://graph.microsoft.com/v1.0/me/messages?$skip=4")));
   Graph.HttpResponse (Some (Graph.Page (Some ["m5"]) None))].

Definition three_page_server : nat → Graph.request → Graph.outcome string :=
  λ _ req,
    let not_found :=
      Graph.Rejected (Graph.AxiosError (Some (Graph.ErrorResponse 404 Graph.NoHeader None))
                                       "Request failed with status code 404") in
    if String.eqb (Graph.req_url req) "https://graph.microsoft.com/v1.0/me/messages"
    then from_option Graph.Fulfilled not_found (three_pages !! 0%nat)
    else if String.eqb (Graph.req_url req) "https://graph.microsoft.com/v1.0/me/messages?$skip=2"
    then from_option Graph.Fulfilled not_found (three_pages !! 1%nat)
    else if String.eqb (Graph.req_url req) "https://graph.microsoft.com/v1.0/me/messages?$skip=4"
    then from_option Graph.Fulfilled not_found (three_pages !! 2%nat)
    else not_found.

(** ** A mailbox with two messages *)

Definition older : Graph.Msg.t :=
  Graph.Msg.Make (Some "AAMkAD-1") (Some "2024-01-01T09:00:00Z") None None
                 (Some "ann@example.com") (Some "first") (Some "one") (Some "inbox").

Definition newer : Graph.Msg.t :=
  Graph.Msg.Make (Some "AAMkAD-2") (Some "2024-01-02T09:00:00Z") None None
                 (Some "bob@example.com") (Some "second") (Some "two") (Some "inbox").

(** The remote API answers every request with the single page
    [older, newer], without a link. *)
Definition two_message_server : nat → Graph.request → Graph.outcome Graph.Msg.t :=
  λ _ _, Graph.Fulfilled (Graph.HttpResponse (Some (Graph.Page (Some [older; newer]) None))).

(** A stand-in for the serialisation of a URL with its query. *)
Definition plain_params (base : string) (params : list (string * string)) : string :=
  fold_left (λ acc kv, acc ++ "&" ++ kv.1 ++ "=" ++ kv.2) params (base ++ "?").

(** A remote API that answers every request with 404. *)
Definition not_found_error : Graph.axios_error :=
  Graph.AxiosError (Some (Graph.ErrorResponse 404 Graph.NoHeader (Some "ErrorItemNotFound")))
                   "Request failed with status code 404".

Definition not_found_server : nat → Graph.request → Graph.outcome Graph.Msg.t :=
  λ _ _, Graph.Rejected not_found_error.

(** A mailbox of two pages: the newer message on the first page, whose
    link leads to the second page with the older one. The remote API
    answers by position in the run. *)
Definition mail_pages : list (Graph.http_response Graph.Msg.t) :=
  [Graph.HttpResponse
     (Some (Graph.Page (Some [newer]) (Some "https://graph.microsoft.com/v1.0/me/messages?$skip=1")));
   Graph.HttpResponse (Some (Graph.Page (Some [older]) None))].

Definition mail_server : nat → Graph.request → Graph.outcome Graph.Msg.t :=
  λ n _, from_option Graph.Fulfilled (Graph.Rejected not_found_error) (mail_pages !! n).

(** The sender bootstrap scenario of the design document. The sampling
    search finds one message from each of two senders; the crawl for the
    first sender returns three messages, the crawl for the second returns
    two, one of which the first crawl returned as well. The remote API
    answers by position in the run. *)
Definition crawl_message (i received sender : string) : Graph.Msg.t :=
  Graph.Msg.Make (Some i) (Some received) None None (Some sender)
                 (Some "report") (Some "see attached") (Some "inbox").

Definition bootstrap_server : nat → Graph.request → Graph.outcome Graph.Msg.t :=
  λ n _,
    let page items := Graph.Fulfilled (Graph.HttpResponse (Some (Graph.Page (Some items) None))) in
    match n with
    | 0%nat => page [crawl_message "s1" "2024-03-01T08:00:00Z" "A@x.com";
                    crawl_message "s2" "2024-03-02T08:00:00Z" " b@x.com "]
    | 1%nat => page [crawl_message "m1" "2024-01-05T08:00:00Z" "a@x.com";
                    crawl_message "m2" "2024-02-05T08:00:00Z" "a@x.com";
                    crawl_message "m3" "2024-01-20T08:00:00Z" "a@x.com"]
    | 2%nat => page [crawl_message "m3" "2024-01-20T08:00:00Z" "a@x.com";
                    crawl_message "m4" "2024-03-05T08:00:00Z" "b@x.com"]
    | _ => Graph.Rejected not_found_error
    end.

(** What the bootstrap returns in that scenario: the four different
    messages, newest first, and the two addresses. *)
Definition bootstrap_listing : Graph.listing :=
  Graph.Listing
    (Graph.mapMsg <$>
       [crawl_message "m4" "2024-03-05T08:00:00Z" "b@x.com";
        crawl_message "m2" "2024-02-05T08:00:00Z" "a@x.com";
        crawl_message "m3" "2024-01-20T08:00:00Z" "a@x.com";
        crawl_message "m1" "2024-01-05T08:00:00Z" "a@x.com"])
    4 [("discoveredSenders", JArr [JStr "a@x.com"; JStr "b@x.com"])].

(** ** Folders and inputs *)

(** A comparison of display names by code units, standing in for
    [localeCompare]. *)
Definition plain_compare (a b : string) : Z :=
  match String.compare a b with
  | Lt => (-1)%Z
  | Eq => 0%Z
  | Gt => 1%Z
  end.

Definition named_folder (i name : string) : Graph.Folder.t :=
  Graph.Folder.Make (Some i) (Some name) (Some 0%Z) (Some 0%Z) (Some 0%Z).



(** A mailbox whose folders come in two pages; the remote API answers
    by position in the run. *)
Definition folder_pages : list (Graph.http_response Graph.Folder.t) :=
  [Graph.HttpResponse
     (Some (Graph.Page (Some [named_folder "f1" "Sent Items"; named_folder "f2" "Inbox"])
                       (Some "https://graph.microsoft.com/v1.0/me/mailFolders?$skip=2")));
   Graph.HttpResponse (Some (Graph.Page (Some [named_folder "f3" "Archive"]) None))].

Definition folder_server : nat → Graph.request → Graph.outcome Graph.Folder.t :=
  λ n _, from_option Graph.Fulfilled (Graph.Rejected not_found_error) (folder_pages !! n).

(** U+00A0, the no-break space, in UTF-8. *)
Definition nbsp : string := String "194" (String "160" EmptyString).

(** A dispatch that reports the token and the key it was run with. *)
Definition echo_action : string → string → Index.request → reply :=
  λ tok uid _, SendJson 200 (JObj [("token", JStr tok); ("user_id_used", JStr uid)]).

(** A table with one credential that expired at 900000 and one that is
    good until 2000000. *)
Definition two_credentials : TokenStore.db :=
  TokenStore.set "9b2f6c1e-7a43-4d0b-8e55-0c1d2e3f4a5b"
    (TokenStore.Credential "eyJ0eXAi.fresh" None 2000000 (Some "Mail.ReadWrite")) 500000
    (TokenStore.set "123e4567-e89b-42d3-a456-426614174000"
       (TokenStore.Credential "eyJ0eXAi.stale" None 900000 (Some "Mail.ReadWrite")) 400000 ∅).

(** [inputs: { max: 1 }] *)
Definition max_one : Tool.inputs :=
  Tool.Inputs Tool.Absent (Tool.Number 1) Tool.Absent Tool.Absent Tool.Absent
              Tool.Absent
              None None None None None None None None None None None None None.

Definition no_folders : nat → Graph.request → Graph.outcome Graph.Folder.t :=
  λ _ _, Graph.Rejected not_found_error.

Definition no_range : Tool.range_request → (string * string * string) + string :=
  λ _, inr "Invalid 'on' date".

(** A body without [inputs]. *)
Definition no_inputs : Tool.inputs :=
  Tool.Inputs Tool.Absent Tool.Absent Tool.Absent Tool.Absent Tool.Absent Tool.Absent
              None None None None None None None None None None None None None.

(** [inputs: { max: "0" }] *)
Definition max_text_zero : Tool.inputs :=
  Tool.Inputs Tool.Absent (Tool.NumberText 0) Tool.Absent Tool.Absent Tool.Absent
              Tool.Absent
              None None None None None None None None None None None None None.

(** [inputs: { max: 0 }] *)
Definition max_zero : Tool.inputs :=
  Tool.Inputs Tool.Absent (Tool.Number 0) Tool.Absent Tool.Absent Tool.Absent
              Tool.Absent
              None None None None None None None None None None None None None.

(** * Properties of the token store *)

Section TokenStoreFacts.

Import TokenStore.
Implicit Types (d : db) (k : string) (c : credential) (r : token_row).

Lemma lookup_upsert_eq k c ts d :
  upsert k c ts d !! k =
    Some match d !! k with
         | Some old =>
             TokenRow (user_id old) (c_access_token c) (c_refresh_token c)
                      (c_expiry c) (c_scopes c) (created_at old) ts
         | None =>
             TokenRow k (c_access_token c) (c_refresh_token c)
                      (c_expiry c) (c_scopes c) ts ts
         end.
Proof.
  unfold upsert. destruct (d !! k); by rewrite lookup_insert_eq.
Qed.

Lemma lookup_upsert_ne k k' c ts d :
  k ≠ k' → upsert k c ts d !! k' = d !! k'.
Proof.
  intros Hne. unfold upsert. destruct (d !! k); by rewrite lookup_insert_ne.
Qed.

(** The rows the sweep deletes and the rows it keeps partition the
    table. *)
Lemma sweep_partition now d :
  Nat.add (size (filter (λ kr, (expiry kr.2 ≤ now)%Z) d)) (size (delExpired now d)) = size d.
Proof.
  unfold delExpired.
  rewrite <- map_size_disj_union by apply map_disjoint_filter_complement.
  by rewrite map_filter_union_complement.
Qed.

Lemma lookup_delExpired now d k :
  delExpired now d !! k =
    match d !! k with
    | Some r => if decide (expiry r ≤ now)%Z then None else Some r
    | None => None
    end.
Proof.
  unfold delExpired. rewrite map_lookup_filter.
  destruct (d !! k) as [r|]; simpl; [|done].
  destruct (decide (expiry r ≤ now)%Z).
  - by rewrite option_guard_False by (simpl; tauto).
  - by rewrite option_guard_True.
Qed.

Lemma delExpired_idem now d : delExpired now (delExpired now d) = delExpired now d.
Proof.
  apply map_filter_id. intros k r Hk. simpl.
  rewrite lookup_delExpired in Hk.
  destruct (d !! k) as [r0|]; [|done].
  destruct (decide (expiry r0 ≤ now)%Z); by simplify_eq.
Qed.

End TokenStoreFacts.

(** C4. Writing [c1] and then [c2] under the same identity key leaves one
    row whose token columns are exactly those of [c2]; [updated_at] is the
    time of the second write and [created_at] is what the first write left:
    the time of that first write when the key was new, and otherwise the
    value stored before. *)
Theorem put_put_get_last_write_wins
    (k : string) (c1 c2 : TokenStore.credential) (t1 t2 : Z) (d : TokenStore.db) :
  let d1 := TokenStore.set k c1 t1 d in
  let d2 := TokenStore.set k c2 t2 d1 in
  ∃ r1 r2,
    TokenStore.get k d1 = Some r1 ∧
    TokenStore.get k d2 = Some r2 ∧
    TokenStore.access_token r2 = TokenStore.c_access_token c2 ∧
    TokenStore.refresh_token r2 = TokenStore.c_refresh_token c2 ∧
    TokenStore.expiry r2 = TokenStore.c_expiry c2 ∧
    TokenStore.scopes r2 = TokenStore.c_scopes c2 ∧
    TokenStore.updated_at r2 = t2 ∧
    TokenStore.created_at r2 = TokenStore.created_at r1 ∧
    TokenStore.created_at r1 =
      match TokenStore.get k d with
      | Some r0 => TokenStore.created_at r0
      | None => t1
      end.
Proof.
  intros d1 d2. unfold d2, d1, TokenStore.set, TokenStore.get.
  rewrite !lookup_upsert_eq.
  eexists _, _. split; [reflexivity|]. split; [reflexivity|].
  simpl. repeat split. by destruct (d !! k).
Qed.

(** C5. The sweep at time [now] removes exactly the rows with
    [expiry <= now], leaves every other row as it was, returns the number
    of rows removed, and run again at the same time removes nothing. *)
Theorem deleteExpired_exact (now : Z) (d : TokenStore.db) :
  let removed := (TokenStore.deleteExpired now d).1 in
  let d' := (TokenStore.deleteExpired now d).2 in
  (∀ k, TokenStore.get k d' =
          match TokenStore.get k d with
          | Some r => if decide (TokenStore.expiry r ≤ now)%Z then None else Some r
          | None => None
          end) ∧
  removed = Z.of_nat (size d) - Z.of_nat (size d') ∧
  TokenStore.deleteExpired now d' = (0, d').
Proof.
  simpl. split; [|split].
  - intros k. apply lookup_delExpired.
  - pose proof (sweep_partition now d). lia.
  - unfold TokenStore.deleteExpired. rewrite delExpired_idem. f_equal.
    pose proof (sweep_partition now (TokenStore.delExpired now d)) as H.
    rewrite delExpired_idem in H. lia.
Qed.

(** C6. [getValidToken] hands out a token exactly when a row is stored
    under the key and its expiry lies more than 60000 ms after [now]; a
    credential that expires 30000 ms from now is refused and one that
    expires 120000 ms from now is accepted. *)
Theorem getValidToken_skew (k : string) (now : Z) (d : TokenStore.db) :
  (∀ tok, Index.getValidToken k now d = Some tok ↔
          ∃ r, TokenStore.get k d = Some r ∧
               (now + 60000 < TokenStore.expiry r)%Z ∧
               tok = TokenStore.access_token r) ∧
  (∀ a rt sc ts,
      Index.getValidToken k now
        (TokenStore.set k (TokenStore.Credential a rt (now + 30000) sc) ts d) = None) ∧
  (∀ a rt sc ts,
      Index.getValidToken k now
        (TokenStore.set k (TokenStore.Credential a rt (now + 120000) sc) ts d) = Some a).
Proof.
  split; [|split].
  - intros tok. unfold Index.getValidToken.
    destruct (TokenStore.get k d) as [r|] eqn:Hr.
    + destruct (Z.gtb_spec (TokenStore.expiry r - 60 * 1000) now) as [Hgt|Hle].
      * split.
        -- intros [= <-]. exists r. repeat split; lia.
        -- intros (r' & [= <-] & _ & ->). done.
      * split; [done|]. intros (r' & [= <-] & Hlt & _). lia.
    + split; [done|]. intros (r' & [=] & _).
  - intros a rt sc ts. unfold Index.getValidToken, TokenStore.get, TokenStore.set.
    rewrite lookup_upsert_eq.
    destruct (d !! k); simpl;
      destruct (Z.gtb_spec (now + 30000 - 60 * 1000) now); (done || lia).
  - intros a rt sc ts. unfold Index.getValidToken, TokenStore.get, TokenStore.set.
    rewrite lookup_upsert_eq.
    destruct (d !! k); simpl;
      destruct (Z.gtb_spec (now + 120000 - 60 * 1000) now); (done || lia).
Qed.

(** * Properties of the authorization callback *)

Section CallbackFacts.

Variables CLIENT_ID REDIRECT_URI SCOPES : string.
Variable token_endpoint : list (string * Auth.qvalue) → Auth.post_result.
Variable signed_in_page : Z → string → Z → string.
Variables cannot_bind not_a_function : string.

Let callback := Auth.callback CLIENT_ID REDIRECT_URI SCOPES token_endpoint signed_in_page
                  cannot_bind not_a_function.




End CallbackFacts.


(** * Properties of the gatekeeper *)

Section StrFacts.

Import Str.

Lemma test_classes_all (P : ascii → bool) (p : list (ascii → bool)) (s : string) :
  Forall (λ cl, ∀ c, cl c = true → P c = true) p →
  test_classes p s = true → all_chars P s = true.
Proof.
  intros Hp. revert s. induction Hp as [|cl p Hcl _ IH]; intros [|c s]; simpl; try done.
  intros [Hc Hs]%andb_prop. by rewrite (Hcl c Hc), (IH s Hs).
Qed.

Lemma test_classes_length (p : list (ascii → bool)) (s : string) :
  test_classes p s = true → String.length s = length p.
Proof.
  revert s. induction p as [|cl p IH]; intros [|c s]; simpl; try done.
  intros [_ Hs]%andb_prop. by rewrite (IH s Hs).
Qed.

Lemma trimStart_plain (c : ascii) (s : string) :
  uuid_char c = true → trimStart (String c s) = String c s.
Proof.
  destruct c as [[] [] [] [] [] [] [] []]; intros Hc; try discriminate Hc;
    destruct s as [|c2 [|c3 s3]]; reflexivity.
Qed.

Lemma trimEnd_all_chars (s : string) :
  all_chars uuid_char s = true → trimEnd s = s.
Proof.
  induction s as [|c s IH]; [done|].
  intros [Hc Hs]%andb_prop. cbn [trimEnd]. unfold blank.
  rewrite (trimStart_plain c s Hc). by rewrite (IH Hs).
Qed.

Lemma trim_all_chars (s : string) :
  all_chars uuid_char s = true → trim s = s.
Proof.
  intros Hs. unfold trim.
  assert (trimStart s = s) as ->; [|by apply trimEnd_all_chars].
  destruct s as [|c s]; [done|].
  apply andb_prop in Hs as [Hc _]. by apply trimStart_plain.
Qed.

Lemma encodeURIComponent_all_chars (s : string) :
  all_chars unreserved s = true → encodeURIComponent s = s.
Proof.
  induction s as [|c s IH]; simpl; [done|].
  intros [Hc Hs]%andb_prop. by rewrite Hc, (IH Hs).
Qed.

Lemma toLowerCase_length (s : string) :
  String.length (toLowerCase s) = String.length s.
Proof. induction s as [|c s IH]; simpl; congruence. Qed.

Lemma uuid_char_plain (c : ascii) :
  uuid_char c = true → unreserved c = true.
Proof.
  destruct c as [[] [] [] [] [] [] [] []]; vm_compute; intros; done.
Qed.

Lemma UUID_RE_chars :
  Forall (λ cl : ascii → bool, ∀ c, cl c = true → uuid_char c = true) Index.UUID_RE.
Proof.
  unfold Index.UUID_RE. simpl.
  repeat (apply Forall_cons; split;
          [intros [[] [] [] [] [] [] [] []]; vm_compute; done|]).
  apply Forall_nil_2.
Qed.

Lemma all_chars_impl (P Q : ascii → bool) (s : string) :
  (∀ c, P c = true → Q c = true) → all_chars P s = true → all_chars Q s = true.
Proof.
  intros HPQ. induction s as [|c s IH]; simpl; [done|].
  intros [Hc Hs]%andb_prop. by rewrite (HPQ c Hc), (IH Hs).
Qed.

(** What the handler relies on once the identity key has matched
    [UUID_RE]: trimming and URI-encoding leave it alone, it is not
    empty and it is none of the placeholder words. *)
Lemma uuid_key_facts (k : string) :
  test_classes Index.UUID_RE k = true →
  trim k = k ∧ encodeURIComponent k = k ∧
  JS.truthy (Some k) = true ∧
  existsb (String.eqb (toLowerCase k)) Index.BAD_TOKENS = false.
Proof.
  intros Hk.
  pose proof (test_classes_all uuid_char _ _ UUID_RE_chars Hk) as Hall.
  pose proof (test_classes_length _ _ Hk) as Hlen. simpl in Hlen.
  split; [|split; [|split]].
  - by apply trim_all_chars.
  - apply encodeURIComponent_all_chars. revert Hall. apply all_chars_impl.
    intros c Hc. by apply uuid_char_plain.
  - simpl. destruct k; [done|reflexivity].
  - pose proof (toLowerCase_length k) as Hl. rewrite Hlen in Hl.
    unfold Index.BAD_TOKENS. simpl.
    repeat match goal with
           | |- context [String.eqb ?a ?b] =>
               destruct (String.eqb_spec a b) as [Heq|_];
               [rewrite Heq in Hl; simpl in Hl; lia|]
           end.
    done.
Qed.

End StrFacts.


(** * Properties of the fetcher: retry and backoff *)

Section BackoffFacts.

Import Graph.
Context {Item : Type} (server : nat → request → outcome Item).
Variables (url : string) (headers : list (string * string)).

Let req := Request url headers.

Lemma backoff_loop_fulfilled fuel maxRetries attempt w r :
  server (length (requested w)) req = Fulfilled r →
  backoff_loop server (S fuel) url headers maxRetries attempt w
  = (Return r, World (requested w ++ [req]) (slept w)).
Proof. intros H. simpl. unfold axios_get. fold req. by rewrite H. Qed.

Lemma backoff_loop_thrown fuel maxRetries attempt w e :
  server (length (requested w)) req = Rejected e →
  retryable (status <$> response e) && (attempt <? maxRetries)%Z = false →
  backoff_loop server (S fuel) url headers maxRetries attempt w
  = (Throw (Axios e), World (requested w ++ [req]) (slept w)).
Proof. intros H Hno. simpl. unfold axios_get. fold req. by rewrite H, Hno. Qed.

Lemma backoff_loop_retried fuel maxRetries attempt w e :
  server (length (requested w)) req = Rejected e →
  retryable (status <$> response e) && (attempt <? maxRetries)%Z = true →
  backoff_loop server (S fuel) url headers maxRetries attempt w
  = backoff_loop server fuel url headers maxRetries (attempt + 1)
      (World (requested w ++ [req]) (slept w ++ [retryAfter e attempt * 1000]%Z)).
Proof. intros H Hyes. simpl. unfold axios_get. fold req. by rewrite H, Hyes. Qed.

(** The whole run of the loop: it issues [j >= 1] identical requests,
    every one but the last was rejected with a retryable status and was
    followed by the delay [retryAfter] gives for it, and the result is
    what the last request produced. *)
Lemma backoff_loop_run maxRetries fuel attempt w :
  (Z.to_nat (maxRetries - attempt) < fuel)%nat →
  ∃ j : nat,
    (1 ≤ j ≤ S (Z.to_nat (maxRetries - attempt)))%nat ∧
    let n := length (requested w) in
    let run := backoff_loop server fuel url headers maxRetries attempt w in
    requested run.2 = (requested w ++ repeat req j)%list ∧
    slept run.2 =
      (slept w ++ ((λ i, delay_after (server (n + i)%nat req) (attempt + Z.of_nat i))
                     <$> seq 0 (j - 1)))%list ∧
    (∀ i, (S i < j)%nat → retried (server (n + i)%nat req) = true) ∧
    match server (n + (j - 1))%nat req with
    | Fulfilled r => run.1 = Return r
    | Rejected e =>
        run.1 = Throw (Axios e) ∧
        (retryable (status <$> response e) = false
         ∨ j = S (Z.to_nat (maxRetries - attempt)))
    end.
Proof.
  revert attempt w. induction fuel as [|fuel IH]; intros attempt w Hfuel; [lia|].
  destruct (server (length (requested w)) req) as [r|e] eqn:Hsrv.
  - exists 1%nat. split; [lia|]. cbv zeta.
    rewrite (backoff_loop_fulfilled _ _ _ _ _ Hsrv). simpl.
    rewrite Nat.add_0_r, Hsrv, app_nil_r. repeat split; try done. intros i Hi; lia.
  - destruct (retryable (status <$> response e) && (attempt <? maxRetries)%Z) eqn:Hre.
    + apply andb_prop in Hre as Hre'. destruct Hre' as [Hr Hlt].
      apply Z.ltb_lt in Hlt.
      set (w2 := World (requested w ++ [req]) (slept w ++ [retryAfter e attempt * 1000]%Z)).
      destruct (IH (attempt + 1)%Z w2) as (j & Hj & Hreq & Hsl & Hall & Hlast); [lia|].
      exists (S j). split; [lia|]. cbv zeta in *.
      rewrite (backoff_loop_retried _ _ _ _ _ Hsrv Hre). fold w2.
      assert (length (requested w2) = S (length (requested w))) as Hlen.
      { unfold w2. simpl. rewrite length_app. simpl. lia. }
      rewrite Hlen in *.
      split; [|split; [|split]].
      * rewrite Hreq. unfold w2. simpl. by rewrite <- app_assoc.
      * rewrite Hsl. unfold w2. simpl. rewrite <- app_assoc. f_equal.
        replace (j - 0)%nat with (S (j - 1)) by lia.
        rewrite <- cons_seq, fmap_cons, Nat.add_0_r, Hsrv, Z.add_0_r.
        simpl delay_after. f_equal.
        rewrite <- seq_shift, <- list_fmap_compose.
        apply list_fmap_ext. intros _ i _. simpl.
        rewrite <- Nat.add_succ_r. f_equal. lia.
      * intros [|i] Hi.
        -- rewrite Nat.add_0_r, Hsrv. done.
        -- replace (length (requested w) + S i)%nat
             with (S (length (requested w)) + i)%nat by lia.
           apply Hall. lia.
      * replace (length (requested w) + (S j - 1))%nat
          with (S (length (requested w)) + (j - 1))%nat by lia.
        destruct (server (S (length (requested w)) + (j - 1))%nat req) as [r'|e'];
          [done|].
        destruct Hlast as [-> Hlast]. split; [done|].
        destruct Hlast as [?| ->]; [by left|right]. lia.
    + exists 1%nat. split; [lia|]. cbv zeta.
      rewrite (backoff_loop_thrown _ _ _ _ _ Hsrv Hre). simpl.
      rewrite Nat.add_0_r, Hsrv, app_nil_r. repeat split; try done.
      * intros i Hi; lia.
      * apply andb_false_iff in Hre as [?|Hge]; [by left|right].
        apply Z.ltb_ge in Hge. lia.
Qed.

End BackoffFacts.

(** The delay [retryAfter] computes: a non-zero number of seconds in the
    header is taken as it is; without a header, with a date or with the
    number zero the delay is [min(2^attempt, 16)]. *)
Lemma retryAfter_cases (st : Z) (h : Graph.retry_after) (body : option string)
    (msg : string) (attempt : Z) :
  Graph.retryAfter (Graph.AxiosError (Some (Graph.ErrorResponse st h body)) msg) attempt =
    match h with
    | Graph.DelaySeconds n => if decide (n = 0%Z) then Z.min (2 ^ attempt) 16 else n
    | _ => Z.min (2 ^ attempt) 16
    end.
Proof.
  unfold Graph.retryAfter. simpl. destruct h as [|n|t]; simpl; try done.
  destruct (Z.eqb_spec n 0), (decide (n = 0%Z)); done.
Qed.

(** Without a usable header the delays of the attempts 0, 1, 2, ... are
    1, 2, 4, 8, 16 seconds and stay at 16. *)
Lemma retryAfter_doubling (st : Z) (body : option string) (msg : string) :
  let e := Graph.AxiosError (Some (Graph.ErrorResponse st Graph.NoHeader body)) msg in
  (λ a, Graph.retryAfter e a) <$> [0; 1; 2; 3; 4; 5]%Z = [1; 2; 4; 8; 16; 16]%Z ∧
  ∀ a, (4 ≤ a)%Z → Graph.retryAfter e a = 16%Z.
Proof.
  split; [reflexivity|]. intros a Ha. rewrite retryAfter_cases.
  assert (2 ^ 4 ≤ 2 ^ a)%Z by (apply Z.pow_le_mono_r; lia).
  change (2 ^ 4)%Z with 16%Z in *. lia.
Qed.

(** C1, at the input where it fails. A 429 answer with [Retry-After: 0]
    carries a value, zero seconds, yet the delay computed for the first
    attempt is one second, and [httpGetWithBackoff] waits 1000 ms before
    its second request. *)
Theorem retry_after_zero_waits_a_second :
  let e := Graph.AxiosError
             (Some (Graph.ErrorResponse 429 (Graph.DelaySeconds 0) None))
             "Request failed with status code 429" in
  let req := Graph.Request "https://graph.microsoft.com/v1.0/me/messages" [] in
  Graph.retryAfter e 0 = 1%Z ∧
  Graph.httpGetWithBackoff throttled_once (Graph.req_url req) (Graph.req_headers req)
    Graph.default_maxRetries (Graph.World [] [])
  = (Graph.Return (Graph.HttpResponse (Some (Graph.Page (Some []) None))),
     Graph.World [req; req] [1000%Z]).
Proof. split; reflexivity. Qed.

(** C2. [httpGetWithBackoff] with the default of 4 retries always ends,
    after one to five requests for the same URL; every request but the
    last was rejected with status 429 or at least 500 (the 5xx statuses,
    among the statuses HTTP defines) and was followed by one sleep; the
    result is the answer to the last request, thrown unchanged when it is
    an error. Five retryable rejections in a row give the fifth error after
    exactly five requests and four sleeps. A rejection with any other
    status, or without a response, is thrown at once: one request, no
    sleep. *)
Theorem httpGetWithBackoff_retry_policy {Item : Type}
    (server : nat → Graph.request → Graph.outcome Item)
    (url : string) (headers : list (string * string)) (w : Graph.world) :
  let req := Graph.Request url headers in
  let n := length (Graph.requested w) in
  let run := Graph.httpGetWithBackoff server url headers Graph.default_maxRetries w in
  (∃ j : nat,
      (1 ≤ j ≤ 5)%nat ∧
      Graph.requested run.2 = (Graph.requested w ++ repeat req j)%list ∧
      length (Graph.slept run.2) = (length (Graph.slept w) + (j - 1))%nat ∧
      (∀ i, (S i < j)%nat →
            ∃ e s, server (n + i)%nat req = Graph.Rejected e ∧
                   Graph.status <$> Graph.response e = Some s ∧
                   (s = 429 ∨ 500 ≤ s)%Z) ∧
      match server (n + (j - 1))%nat req with
      | Graph.Fulfilled r => run.1 = Graph.Return r
      | Graph.Rejected e => run.1 = Graph.Throw (Graph.Axios e)
      end) ∧
  ((∀ i, (i < 5)%nat → retried (server (n + i)%nat req) = true) →
   ∃ e, server (n + 4)%nat req = Graph.Rejected e ∧
        run.1 = Graph.Throw (Graph.Axios e) ∧
        Graph.requested run.2 = (Graph.requested w ++ repeat req 5)%list ∧
        length (Graph.slept run.2) = (length (Graph.slept w) + 4)%nat) ∧
  (∀ e, server n req = Graph.Rejected e →
        Graph.retryable (Graph.status <$> Graph.response e) = false →
        run = (Graph.Throw (Graph.Axios e),
               Graph.World (Graph.requested w ++ [req]) (Graph.slept w))) ∧
  (∀ s, Graph.retryable (Some s) = true ↔ (s = 429 ∨ 500 ≤ s)%Z) ∧
  (∀ s, (400 ≤ s < 500)%Z → s ≠ 429%Z → Graph.retryable (Some s) = false) ∧
  Graph.retryable None = false.
Proof.
  intros req n run.
  assert (∀ s, Graph.retryable (Some s) = true ↔ (s = 429 ∨ 500 ≤ s)%Z) as Hretry.
  { intros s. simpl. rewrite orb_true_iff, Z.eqb_eq, Z.geb_le. done. }
  destruct (backoff_loop_run server url headers Graph.default_maxRetries
              (S (Z.to_nat Graph.default_maxRetries)) 0%Z w)
    as (j & Hj & Hreq & Hsl & Hall & Hlast); [simpl; lia|].
  change (Z.to_nat (Graph.default_maxRetries - 0)) with 4%nat in *.
  cbv zeta in Hreq, Hsl, Hall, Hlast.
  fold (Graph.httpGetWithBackoff server url headers Graph.default_maxRetries w) in *.
  fold run req n in Hreq, Hsl, Hall, Hlast.
  split; [|split; [|split; [|split; [|split]]]].
  - exists j. split; [lia|]. split; [done|]. split; [|split].
    + rewrite Hsl, length_app, length_fmap, length_seq. done.
    + intros i Hi. specialize (Hall i Hi). unfold retried in Hall.
      destruct (server (n + i)%nat req) as [r|e]; [done|].
      destruct (Graph.status <$> Graph.response e) as [s|] eqn:Hs; [|done].
      exists e, s. repeat split; try done. by apply Hretry.
    + destruct (server (n + (j - 1))%nat req) as [r|e]; [done|]. by destruct Hlast.
  - intros Hfive.
    assert (j = 5%nat) as ->.
    { specialize (Hfive (j - 1)%nat ltac:(lia)). unfold retried in Hfive.
      destruct (server (n + (j - 1))%nat req) as [r|e]; [done|].
      destruct Hlast as [_ [Hno| ->]]; [congruence|done]. }
    simpl in Hlast. destruct (server (n + 4)%nat req) as [r|e] eqn:H4.
    + specialize (Hfive 4%nat ltac:(lia)). unfold retried in Hfive.
      by rewrite H4 in Hfive.
    + exists e. destruct Hlast as [-> _]. repeat split; try done.
      rewrite Hsl, length_app, length_fmap, length_seq. done.
  - intros e He Hno. unfold run, Graph.httpGetWithBackoff.
    change (S (Z.to_nat Graph.default_maxRetries)) with (S 4).
    apply backoff_loop_thrown; [done|]. by rewrite Hno.
  - done.
  - intros s Hs Hne. destruct (Graph.retryable (Some s)) eqn:Hr; [|done].
    apply Hretry in Hr. lia.
  - done.
Qed.

(** * Properties of the fetcher: paging *)

Section PagingFacts.

Import Graph.
Context {Item B : Type} (server : nat → request → outcome Item).
Variables (headers : list (string * string)) (shape : Item → B).

Lemma serves_cons n url r rest :
  serves server headers n url (r :: rest) ↔
  server n (Request url headers) = Fulfilled r ∧ continues server headers (S n) (link_of r) rest.
Proof. done. Qed.

(** The lemmas on whole collections below rest on how the loops read a
    response; each property that uses them establishes it for the code. *)
Hypothesis Hreads : reads_responses Item.

Lemma items_of_listed (r : http_response Item) : items_of r = listed r.
Proof. apply Hreads. Qed.

Lemma next_of_link (r : http_response Item) : next_of r = link_of r.
Proof. apply Hreads. Qed.

Lemma no_link_falsy (nl : option string) : no_link nl → JS.truthy nl = false.
Proof. by intros [->| ->]. Qed.

Lemma links_to_truthy (nl : option string) (u : string) :
  links_to nl u → JS.truthy nl = true.
Proof. intros [-> Hu]. simpl. by destruct (String.eqb_spec u EmptyString). Qed.

Lemma httpGetWithBackoff_fulfilled url w r :
  server (length (requested w)) (Request url headers) = Fulfilled r →
  httpGetWithBackoff server url headers default_maxRetries w
  = (Return r, World (requested w ++ [Request url headers]) (slept w)).
Proof. intros H. by apply backoff_loop_fulfilled. Qed.

(** More fuel does not change an answer. *)
Lemma next_mono fuel fuel' g w it g' w' :
  next server fuel g w = (Return it, g', w') →
  (fuel ≤ fuel')%nat →
  next server fuel' g w = (Return it, g', w').
Proof.
  revert fuel' g w. induction fuel as [|fuel IH]; intros fuel' g w Hrun Hle; [done|].
  destruct fuel' as [|fuel']; [lia|]. simpl in *.
  destruct g as [u hs|[|x xs] nl hs|]; try done.
  - destruct (httpGetWithBackoff server u hs default_maxRetries w) as [[r|e|] w1];
      try done.
    apply IH; [done|lia].
  - destruct (negb (JS.truthy nl)); [done|]. apply IH; [done|lia].
Qed.

Lemma for_await_mono bound fuel fuel' g out w l w' :
  for_await server shape bound fuel g out w = (Return l, w') →
  (fuel ≤ fuel')%nat →
  for_await server shape bound fuel' g out w = (Return l, w').
Proof.
  revert fuel' g out w. induction fuel as [|fuel IH]; intros fuel' g out w Hrun Hle;
    [done|].
  destruct fuel' as [|fuel']; [lia|]. simpl in *.
  destruct (next server fuel g w) as [[[it|e|] g1] w1] eqn:Hnext; try done.
  rewrite (next_mono _ fuel' _ _ _ _ _ Hnext) by lia.
  destruct it as [m|]; [|done].
  destruct bound as [top|].
  - destruct (Z.of_nat (length (out ++ [shape m])) >=? top)%Z; [done|].
    apply IH; [done|lia].
  - apply IH; [done|lia].
Qed.

(** One turn of the [for await] loop. *)
Lemma for_await_unfold bound fuel g out w :
  for_await server shape bound (S fuel) g out w =
    match next server fuel g w with
    | (Return (Yield m), g1, w1) =>
        match bound with
        | Some top =>
            if (Z.of_nat (length (out ++ [shape m])) >=? top)%Z
            then (Return (out ++ [shape m])%list, w1)
            else for_await server shape bound fuel g1 (out ++ [shape m]) w1
        | None => for_await server shape bound fuel g1 (out ++ [shape m]) w1
        end
    | (Return Done, _, w1) => (Return out, w1)
    | (Throw e, _, w1) => (Throw e, w1)
    | (OutOfFuel, _, w1) => (OutOfFuel, w1)
    end.
Proof. reflexivity. Qed.

Lemma next_yield fuel x xs nl w :
  next server (S fuel) (InPage (x :: xs) nl headers) w
  = (Return (Yield x), InPage xs nl headers, w).
Proof. reflexivity. Qed.

Lemma next_last_page fuel nl w :
  JS.truthy nl = false →
  next server (S fuel) (InPage [] nl headers) w = (Return Done, Finished, w).
Proof. intros H. simpl. by rewrite H. Qed.

Lemma next_follow_link fuel u r w :
  u ≠ EmptyString →
  server (length (requested w)) (Request u headers) = Fulfilled r →
  next server (S (S fuel)) (InPage [] (Some u) headers) w
  = next server fuel (InPage (items_of r) (next_of r) headers)
      (World (requested w ++ [Request u headers]) (slept w)).
Proof.
  intros Hu Hsrv.
  change (next server (S (S fuel)) (InPage [] (Some u) headers) w)
    with (if negb (JS.truthy (Some u)) then (Return Done, Finished, w)
          else next server (S fuel) (AtPage (default EmptyString (Some u)) headers) w).
  assert (negb (JS.truthy (Some u)) = false) as ->.
  { simpl. by destruct (String.eqb_spec u EmptyString). }
  change (next server (S fuel) (AtPage (default EmptyString (Some u)) headers) w)
    with (match httpGetWithBackoff server u headers default_maxRetries w with
          | (Return resp, w1) =>
              next server fuel (InPage (items_of resp) (next_of resp) headers) w1
          | (Throw e, w1) => (Throw e, Finished, w1)
          | (OutOfFuel, w1) => (OutOfFuel, AtPage u headers, w1)
          end).
  by rewrite (httpGetWithBackoff_fulfilled _ _ _ Hsrv).
Qed.

Lemma next_first_page fuel u r w :
  server (length (requested w)) (Request u headers) = Fulfilled r →
  next server (S fuel) (AtPage u headers) w
  = next server fuel (InPage (items_of r) (next_of r) headers)
      (World (requested w ++ [Request u headers]) (slept w)).
Proof.
  intros Hsrv.
  change (next server (S fuel) (AtPage u headers) w)
    with (match httpGetWithBackoff server u headers default_maxRetries w with
          | (Return resp, w1) =>
              next server fuel (InPage (items_of resp) (next_of resp) headers) w1
          | (Throw e, w1) => (Throw e, Finished, w1)
          | (OutOfFuel, w1) => (OutOfFuel, AtPage u headers, w1)
          end).
  by rewrite (httpGetWithBackoff_fulfilled _ _ _ Hsrv).
Qed.

(** If the loop, resumed inside a freshly fetched page, returns, then so
    does the loop resumed just before that page was fetched. *)
Lemma for_await_refetch bound fuel k g g0 out w w1 l w' :
  (∀ f, next server (k + f) g0 w = next server f g w1) →
  for_await server shape bound fuel g out w1 = (Return l, w') →
  for_await server shape bound (k + fuel) g0 out w = (Return l, w').
Proof.
  intros Hstep Hrun.
  destruct fuel as [|fuel]; [done|].
  replace (k + S fuel)%nat with (S (k + fuel)) by lia.
  rewrite for_await_unfold in Hrun |- *. rewrite Hstep.
  destruct (next server fuel g w1) as [[[it|e|] g1] w2] eqn:Hnext; try done.
  destruct it as [m|]; [|done].
  destruct bound as [top|].
  - destruct (Z.of_nat (length (out ++ [shape m])) >=? top)%Z; [done|].
    eapply for_await_mono; [done|lia].
  - eapply for_await_mono; [done|lia].
Qed.

Lemma all_items_cons (r : http_response Item) rest :
  all_items (r :: rest) = (listed r ++ all_items rest)%list.
Proof. reflexivity. Qed.

Lemma world_eta w : World (requested w ++ []) (slept w) = w.
Proof. destruct w. simpl. by rewrite app_nil_r. Qed.

(** The loop without [break], resumed inside a page: it pushes what is
    left of the page and then every item of the pages that follow, and
    requests each of those pages once, in link order. *)
Lemma drain_in_page rest xs nl out w :
  continues server headers (length (requested w)) nl rest →
  ∃ fuel0, ∀ fuel, (fuel0 ≤ fuel)%nat →
    for_await server shape None fuel (InPage xs nl headers) out w
    = (Return (out ++ (shape <$> (xs ++ all_items rest)))%list,
       World (requested w ++ requests_for headers (default EmptyString nl) rest) (slept w)).
Proof.
  revert xs nl out w.
  induction rest as [|r rest IH]; intros xs; induction xs as [|x xs IHxs];
    intros nl out w Hc.
  - exists 2%nat. intros [|[|fuel]] Hfuel; try lia.
    rewrite for_await_unfold, next_last_page by (by apply no_link_falsy).
    unfold all_items. simpl. by rewrite world_eta, app_nil_r.
  - destruct (IHxs nl (out ++ [shape x])%list w Hc) as [fuel0 Hrun].
    exists (S (S fuel0)). intros [|[|fuel]] Hfuel; try lia.
    rewrite for_await_unfold, next_yield, Hrun by lia.
    by rewrite <- app_assoc.
  - destruct Hc as (u & [-> Hu] & Hsrv & Hc).
    set (w1 := World (requested w ++ [Request u headers]) (slept w)).
    destruct (IH (items_of r) (next_of r) out w1) as [fuel0 Hrun].
    { rewrite next_of_link. unfold w1. simpl. rewrite length_app. simpl.
      by rewrite Nat.add_1_r. }
    exists (2 + fuel0)%nat. intros fuel Hfuel.
    replace fuel with (2 + (fuel - 2))%nat by lia.
    apply for_await_refetch with (g := InPage (items_of r) (next_of r) headers) (w1 := w1).
    + intros f. by apply next_follow_link.
    + rewrite Hrun by lia. rewrite items_of_listed, next_of_link.
      unfold w1. simpl. by rewrite <- app_assoc.
  - destruct (IHxs nl (out ++ [shape x])%list w Hc) as [fuel0 Hrun].
    exists (S (S fuel0)). intros [|[|fuel]] Hfuel; try lia.
    rewrite for_await_unfold, next_yield, Hrun by lia.
    by rewrite <- app_assoc.
Qed.

(** The loop with [break], resumed inside a page while [need >= 1]
    items are still wanted: it pushes the next [need] items (all of
    them if fewer are left) and requests only the pages it takes them
    from. *)
Lemma capped_in_page rest xs nl out w (need : nat) :
  (1 ≤ need)%nat →
  continues server headers (length (requested w)) nl rest →
  ∃ fuel0, ∀ fuel, (fuel0 ≤ fuel)%nat →
    for_await server shape (Some (Z.of_nat (length out + need))) fuel
      (InPage xs nl headers) out w
    = (Return (out ++ (shape <$> take need (xs ++ all_items rest)))%list,
       World (requested w
                ++ take (pages_needed (need - length xs) rest)
                        (requests_for headers (default EmptyString nl) rest))
             (slept w)).
Proof.
  revert xs nl out w need.
  induction rest as [|r rest IH]; intros xs; induction xs as [|x xs IHxs];
    intros nl out w need Hneed Hc.
  - exists 2%nat. intros [|[|fuel]] Hfuel; try lia.
    rewrite for_await_unfold, next_last_page by (by apply no_link_falsy).
    unfold all_items. simpl. rewrite take_nil. destruct (need - 0)%nat; simpl;
      by rewrite world_eta, app_nil_r.
  - destruct (decide (need = 1%nat)) as [->|Hmore].
    + exists 2%nat. intros [|[|fuel]] Hfuel; try lia.
      rewrite for_await_unfold, next_yield.
      assert ((Z.of_nat (length (out ++ [shape x])%list) >=? Z.of_nat (length out + 1))%Z
              = true) as ->.
      { rewrite length_app. simpl. apply Z.geb_le. lia. }
      simpl. by rewrite world_eta.
    + destruct (IHxs nl (out ++ [shape x])%list w (need - 1)%nat ltac:(lia) Hc)
        as [fuel0 Hrun].
      exists (S (S fuel0)). intros [|[|fuel]] Hfuel; try lia.
      rewrite for_await_unfold, next_yield.
      assert ((Z.of_nat (length (out ++ [shape x])%list) >=? Z.of_nat (length out + need))%Z
              = false) as ->.
      { rewrite length_app, Z.geb_leb. simpl. apply Z.leb_gt. lia. }
      replace (length out + need)%nat with (length (out ++ [shape x])%list + (need - 1))%nat
        by (rewrite length_app; simpl; lia).
      rewrite Hrun by lia.
      destruct need as [|need]; [lia|]. simpl.
      rewrite Nat.sub_0_r, <- app_assoc. done.
  - destruct Hc as (u & [-> Hu] & Hsrv & Hc).
    set (w1 := World (requested w ++ [Request u headers]) (slept w)).
    destruct (IH (items_of r) (next_of r) out w1 need Hneed) as [fuel0 Hrun].
    { rewrite next_of_link. unfold w1. simpl. rewrite length_app. simpl.
      by rewrite Nat.add_1_r. }
    exists (2 + fuel0)%nat. intros fuel Hfuel.
    replace fuel with (2 + (fuel - 2))%nat by lia.
    apply for_await_refetch with (g := InPage (items_of r) (next_of r) headers) (w1 := w1).
    + intros f. by apply next_follow_link.
    + rewrite Hrun by lia. rewrite items_of_listed, next_of_link.
      unfold w1. simpl.
      destruct need as [|need]; [lia|]. simpl. by rewrite <- app_assoc.
  - destruct (decide (need = 1%nat)) as [->|Hmore].
    + exists 2%nat. intros [|[|fuel]] Hfuel; try lia.
      rewrite for_await_unfold, next_yield.
      assert ((Z.of_nat (length (out ++ [shape x])%list) >=? Z.of_nat (length out + 1))%Z
              = true) as ->.
      { rewrite length_app. simpl. apply Z.geb_le. lia. }
      simpl. by rewrite world_eta.
    + destruct (IHxs nl (out ++ [shape x])%list w (need - 1)%nat ltac:(lia) Hc)
        as [fuel0 Hrun].
      exists (S (S fuel0)). intros [|[|fuel]] Hfuel; try lia.
      rewrite for_await_unfold, next_yield.
      assert ((Z.of_nat (length (out ++ [shape x])%list) >=? Z.of_nat (length out + need))%Z
              = false) as ->.
      { rewrite length_app, Z.geb_leb. simpl. apply Z.leb_gt. lia. }
      replace (length out + need)%nat with (length (out ++ [shape x])%list + (need - 1))%nat
        by (rewrite length_app; simpl; lia).
      rewrite Hrun by lia.
      destruct need as [|need]; [lia|]. simpl.
      rewrite Nat.sub_0_r, <- app_assoc. done.
Qed.

(** The two loops run from the start of the generator. *)
Lemma drain_from_start url pages w :
  serves server headers (length (requested w)) url pages →
  ∃ fuel0, ∀ fuel, (fuel0 ≤ fuel)%nat →
    for_await server shape None fuel (AtPage url headers) [] w
    = (Return (shape <$> all_items pages),
       World (requested w ++ requests_for headers url pages) (slept w)).
Proof.
  intros Hserves. destruct pages as [|r rest]; [done|].
  apply serves_cons in Hserves as [Hsrv Hrest].
  set (w1 := World (requested w ++ [Request url headers]) (slept w)).
  assert (length (requested w1) = S (length (requested w))) as Hlen.
  { unfold w1. simpl. rewrite length_app. simpl. lia. }
  rewrite <- Hlen, <- next_of_link in Hrest.
  destruct (drain_in_page rest (items_of r) (next_of r) [] w1 Hrest) as [fuel0 Hrun].
  exists (1 + fuel0)%nat. intros fuel Hfuel.
  replace fuel with (1 + (fuel - 1))%nat by lia.
  apply for_await_refetch with (g := InPage (items_of r) (next_of r) headers) (w1 := w1).
  - intros f. by apply next_first_page.
  - rewrite Hrun by lia. rewrite items_of_listed, next_of_link.
    unfold w1. simpl. by rewrite <- app_assoc.
Qed.

Lemma capped_from_start url pages w (n : nat) :
  (1 ≤ n)%nat →
  serves server headers (length (requested w)) url pages →
  ∃ fuel0, ∀ fuel, (fuel0 ≤ fuel)%nat →
    for_await server shape (Some (Z.of_nat n)) fuel (AtPage url headers) [] w
    = (Return (shape <$> take n (all_items pages)),
       World (requested w ++ take (pages_needed n pages) (requests_for headers url pages))
             (slept w)).
Proof.
  intros Hn Hserves. destruct pages as [|r rest]; [done|].
  apply serves_cons in Hserves as [Hsrv Hrest].
  set (w1 := World (requested w ++ [Request url headers]) (slept w)).
  assert (length (requested w1) = S (length (requested w))) as Hlen.
  { unfold w1. simpl. rewrite length_app. simpl. lia. }
  rewrite <- Hlen, <- next_of_link in Hrest.
  destruct (capped_in_page rest (items_of r) (next_of r) [] w1 n Hn Hrest)
    as [fuel0 Hrun].
  exists (1 + fuel0)%nat. intros fuel Hfuel.
  replace fuel with (1 + (fuel - 1))%nat by lia.
  apply for_await_refetch with (g := InPage (items_of r) (next_of r) headers) (w1 := w1).
  - intros f. by apply next_first_page.
  - simpl in Hrun. rewrite Hrun by lia. rewrite items_of_listed, next_of_link.
    unfold w1. simpl.
    destruct n as [|n]; [lia|]. simpl. by rewrite <- app_assoc.
Qed.

End PagingFacts.

(** C3. Over a finite paged collection served from [url], the loop that
    consumes [listMessages] (or [listCollection], the same generator)
    without stopping returns the elements of the [value] array of the
    first page, then those of the second, and so on, each array in its
    own order, having requested [url] and then the link of each page,
    once each, and nothing after the page without a link. The loop that
    stops after [n >= 1] items returns the first [n] of those elements
    and has requested only the pages they came from. *)
Theorem listMessages_walks_the_collection {Item B : Type}
    (server : nat → Graph.request → Graph.outcome Item)
    (headers : list (string * string)) (shape : Item → B)
    (url : string) (pages : list (Graph.http_response Item)) (w : Graph.world) :
  serves server headers (length (Graph.requested w)) url pages →
  (∃ fuel0, ∀ fuel, (fuel0 ≤ fuel)%nat →
     Graph.for_await server shape None fuel (Graph.listMessages url headers) [] w
     = (Graph.Return (shape <$> concat (listed <$> pages)),
        Graph.World (Graph.requested w ++ requests_for headers url pages)
                    (Graph.slept w))) ∧
  (∀ n, (1 ≤ n)%nat →
     ∃ fuel0, ∀ fuel, (fuel0 ≤ fuel)%nat →
       Graph.for_await server shape (Some (Z.of_nat n)) fuel
         (Graph.listMessages url headers) [] w
       = (Graph.Return (shape <$> take n (concat (listed <$> pages))),
          Graph.World (Graph.requested w
                         ++ take (pages_needed n pages) (requests_for headers url pages))
                      (Graph.slept w))) ∧
  length (requests_for headers url pages) = length pages ∧
  @Graph.listCollection Item url headers = Graph.listMessages url headers.
Proof.
  intros Hserves.
  assert (reads_responses Item) as Hreads by (intros [[[[elements|] link]|]]; by split).
  split; [|split; [|split]].
  - by apply drain_from_start.
  - intros n Hn. by apply capped_from_start.
  - clear. revert url. induction pages as [|p ps IH]; intros u; simpl; [done|].
    by rewrite IH.
  - done.
Qed.

(** The scenario of the design document, run: five items in order from
    three requests, and three items from two requests when the consumer
    stops at three. *)
Example three_pages_run :
  let url := "https://graph.microsoft.com/v1.0/me/messages" in
  let start := Graph.World [] [] in
  Graph.for_await three_page_server id None 12 (Graph.listMessages url []) [] start
  = (Graph.Return ["m1"; "m2"; "m3"; "m4"; "m5"],
     Graph.World
       [Graph.Request url [];
        Graph.Request "https://graph.microsoft.com/v1.0/me/messages?$skip=2" [];
        Graph.Request "https://graph.microsoft.com/v1.0/me/messages?$skip=4" []] []) ∧
  Graph.for_await three_page_server id (Some 3%Z) 12 (Graph.listMessages url []) [] start
  = (Graph.Return ["m1"; "m2"; "m3"],
     Graph.World
       [Graph.Request url [];
        Graph.Request "https://graph.microsoft.com/v1.0/me/messages?$skip=2" []] []).
Proof. split; vm_compute; reflexivity. Qed.

(** The three-page collection of the design document (pages of two, two
    and one item, no link on the third) is served by [three_page_server];
    the loop without [break] returns the five items in order after three
    requests, and the loop that stops at three items returns the first
    three after two requests. *)
Lemma listMessages_walks_the_collection_witness :
  let url := "https://graph.microsoft.com/v1.0/me/messages" in
  let second := "https://graph.microsoft.com/v1.0/me/messages?$skip=2" in
  let third := "https://graph.microsoft.com/v1.0/me/messages?$skip=4" in
  let w := Graph.World [] [] in
  serves three_page_server [] (length (Graph.requested w)) url three_pages ∧
  (∃ fuel0, ∀ fuel, (fuel0 ≤ fuel)%nat →
     Graph.for_await three_page_server (λ x, x) None fuel (Graph.listMessages url []) [] w
     = (Graph.Return ["m1"; "m2"; "m3"; "m4"; "m5"],
        Graph.World [Graph.Request url []; Graph.Request second [];
                     Graph.Request third []] [])) ∧
  (∃ fuel0, ∀ fuel, (fuel0 ≤ fuel)%nat →
     Graph.for_await three_page_server (λ x, x) (Some 3%Z) fuel
       (Graph.listMessages url []) [] w
     = (Graph.Return ["m1"; "m2"; "m3"],
        Graph.World [Graph.Request url []; Graph.Request second []] [])) ∧
  Graph.for_await three_page_server (λ x, x) None 12 (Graph.listMessages url []) [] w
  = (Graph.Return ["m1"; "m2"; "m3"; "m4"; "m5"],
     Graph.World [Graph.Request url []; Graph.Request second [];
                  Graph.Request third []] []).
Proof.
  assert (serves three_page_server [] 0 "https://graph.microsoft.com/v1.0/me/messages"
            three_pages) as Hserves.
  { split; [reflexivity|].
    eexists. split; [split; [reflexivity|discriminate]|].
    split; [reflexivity|].
    eexists. split; [split; [reflexivity|discriminate]|].
    split; [reflexivity|by left]. }
  split; [exact Hserves|].
  destruct (listMessages_walks_the_collection three_page_server [] (λ x : string, x)
              "https://graph.microsoft.com/v1.0/me/messages" three_pages
              (Graph.World [] []) Hserves) as (Hall & Hsome & _).
  split; [exact Hall|]. split; [exact (Hsome 3%nat ltac:(lia))|].
  vm_compute. reflexivity.
Defined.

(** * Properties of the operations on the mailbox *)

Section SortFacts.

Import Graph.

Lemma insert_by_length {A : Type} (cmp : A → A → Z) (x : A) (l : list A) :
  length (insert_by cmp x l) = S (length l).
Proof.
  induction l as [|y l IH]; simpl; [done|].
  destruct (cmp x y <=? 0)%Z; simpl; by rewrite ?IH.
Qed.

Lemma Array_sort_length {A : Type} (cmp : A → A → Z) (l : list A) :
  length (Array_sort cmp l) = length l.
Proof.
  induction l as [|x l IH]; simpl; [done|].
  by rewrite insert_by_length, IH.
Qed.

Lemma insert_by_elem_of {A : Type} (cmp : A → A → Z) (x z : A) (l : list A) :
  z ∈ insert_by cmp x l ↔ z = x ∨ z ∈ l.
Proof.
  induction l as [|y l IH]; simpl.
  - rewrite list_elem_of_singleton, elem_of_nil. tauto.
  - destruct (cmp x y <=? 0)%Z; rewrite !elem_of_cons, ?IH; tauto.
Qed.

Lemma string_ltb_lt (x y : string) : String.ltb x y = true ↔ String_as_OT.lt x y.
Proof.
  unfold String.ltb. rewrite <- String_as_OT.cmp_lt. unfold String_as_OT.cmp.
  destruct (String.compare x y); split; congruence.
Qed.

Lemma string_ltb_ge_trans (x y z : string) :
  String.ltb x y = false → String.ltb y z = false → String.ltb x z = false.
Proof.
  intros Hxy Hyz. destruct (String.ltb x z) eqn:Hxz; [|done].
  apply string_ltb_lt in Hxz.
  destruct (String_as_OT.compare y z) as [Hlt|Heq|Hgt].
  - apply string_ltb_lt in Hlt. congruence.
  - unfold String_as_OT.eq in Heq. subst z.
    apply string_ltb_lt in Hxz. congruence.
  - pose proof (String_as_OT.lt_trans _ _ _ Hxz Hgt) as Hxy'.
    apply string_ltb_lt in Hxy'. congruence.
Qed.

Lemma string_ltb_asym (x y : string) : String.ltb x y = true → String.ltb y x = false.
Proof.
  intros Hxy. destruct (String.ltb y x) eqn:Hyx; [|done].
  apply string_ltb_lt in Hxy, Hyx.
  pose proof (String_as_OT.lt_trans _ _ _ Hxy Hyx) as Hxx.
  by apply String_as_OT.lt_not_eq in Hxx.
Qed.

Lemma insert_by_newest_first (x : mail) (l : list mail) :
  is_Some (received x) →
  Forall (λ m, is_Some (received m)) l →
  newest_first l → newest_first (insert_by by_received_desc x l).
Proof.
  intros [tx Hx] Hall Hsorted.
  induction Hsorted as [|y l Hl IH Hy]; simpl.
  - repeat constructor.
  - apply Forall_cons in Hall as [[ty Hty] Hall].
    unfold by_received_desc at 1. rewrite Hx, Hty. simpl.
    destruct (String.ltb tx ty) eqn:Hlt; simpl.
    + constructor; [by apply IH|].
      apply Forall_forall. intros z [->|Hz]%insert_by_elem_of.
      * unfold not_older. rewrite Hx, Hty. simpl. by apply string_ltb_asym.
      * by eapply Forall_forall in Hy.
    + constructor; [by constructor|].
      constructor; [unfold not_older; by rewrite Hx, Hty|].
      apply Forall_forall. intros z Hz.
      pose proof (proj1 (Forall_forall _ _) Hy z Hz) as Hyz.
      pose proof (proj1 (Forall_forall _ _) Hall z Hz) as [tz Htz].
      unfold not_older in *. rewrite Hx, Hty, Htz in *. simpl in *.
      by eapply string_ltb_ge_trans.
Qed.

(** Sorting with the comparator of the search functions puts messages
    that all have a [received] time in descending order of it. *)
Lemma Array_sort_newest_first (l : list mail) :
  Forall (λ m, is_Some (received m)) l →
  newest_first (Array_sort by_received_desc l).
Proof.
  induction 1 as [|x l Hx Hl IH]; simpl; [constructor|].
  apply insert_by_newest_first; [done| |done].
  clear -Hl. induction l as [|y l IH]; simpl; [done|].
  apply Forall_cons in Hl as [Hy Hl].
  apply Forall_forall. intros z [->|Hz]%insert_by_elem_of; [done|].
  by eapply Forall_forall in IH.
Qed.

End SortFacts.

Section FacadeFacts.

Import Graph.
Variable server : nat → request → outcome Msg.t.
Variable with_params : string → list (string * string) → string.
Variable URL : string → option string.

(** The loop with [break] checks the bound after it has pushed: what
    it returns holds at most [max(bound, 1)] messages. *)
Lemma for_await_at_most fuel g out bound w l w' :
  (Z.of_nat (length out) < Z.max bound 1)%Z →
  for_await server mapMsg (Some bound) fuel g out w = (Return l, w') →
  (Z.of_nat (length l) ≤ Z.max bound 1)%Z.
Proof.
  revert g out w. induction fuel as [|fuel IH]; intros g out w Hout Hrun; [done|].
  simpl in Hrun.
  destruct (next server fuel g w) as [[[[m|]|e|] g1] w1]; try done.
  - destruct (Z.geb_spec (Z.of_nat (length (out ++ [mapMsg m]))) bound) as [Hge|Hlt].
    + injection Hrun as <- _. rewrite length_app in *. cbn [length] in *. lia.
    + apply IH in Hrun; [done|]. rewrite length_app in *. cbn [length] in *. lia.
  - injection Hrun as <- _. lia.
Qed.

Lemma push_capped_at_most items out bound :
  (Z.of_nat (length out) < Z.max bound 1)%Z →
  let r := push_capped items out bound in
  (Z.of_nat (length r.1) ≤ Z.max bound 1)%Z ∧
  (r.2 = false → (Z.of_nat (length r.1) < Z.max bound 1)%Z).
Proof.
  revert out. induction items as [|m items IH]; intros out Hout; simpl.
  - split; [lia|done].
  - destruct (Z.geb_spec (Z.of_nat (length (out ++ [mapMsg m]))) bound) as [Hge|Hlt].
    + cbn [fst snd]. rewrite length_app in *. cbn [length] in *. split; [lia|done].
    + apply IH. rewrite length_app in *. cbn [length] in *. lia.
Qed.

Lemma page_loop_at_most fuel url headers out bound w l w' :
  (Z.of_nat (length out) < Z.max bound 1)%Z →
  page_loop server URL fuel url headers out bound w = (Return l, w') →
  (Z.of_nat (length l) ≤ Z.max bound 1)%Z.
Proof.
  revert url out w. induction fuel as [|fuel IH]; intros url out w Hout Hrun; [done|].
  simpl in Hrun.
  destruct (httpGetWithBackoff server url headers default_maxRetries w)
    as [[resp|e|] w1]; try done.
  pose proof (push_capped_at_most (items_of resp) out bound Hout) as [Hle Hlt].
  destruct (push_capped (items_of resp) out bound) as [out1 [|]]; simpl in *.
  - by injection Hrun as <- _.
  - destruct (negb (JS.truthy (next_of resp))).
    + by injection Hrun as <- _.
    + destruct (URL _) as [href|]; [|done].
      apply (IH _ _ _ (Hlt eq_refl) Hrun).
Qed.

Lemma on_return_listing (extra : list (string * json)) (f : list mail → list mail)
    (r : result (list mail) * world) lst w' :
  on_return (λ out, listing_of extra (f out)) r = (Return lst, w') →
  ∃ out, r = (Return out, w') ∧ results lst = f out ∧
         count lst = Z.of_nat (length (results lst)).
Proof.
  destruct r as [[out|e|] w1]; simpl; try done.
  intros [= <- <-]. by exists out.
Qed.

(** X2. For every reader and search that takes a bound: the count
    returned is the length of the results, and the results hold at most
    [max(bound, 1)] messages, so at most [bound] of them whenever the
    bound is at least 1. *)
Lemma readers_count_and_bound fuel token top w lst w' :
  (readLatest server with_params fuel token top w = (Return lst, w')
          ∨ readSentLatest server with_params fuel token top w = (Return lst, w')
          ∨ readAllMailbox server with_params fuel token top w = (Return lst, w')
          ∨ (∃ folder, readFolderAll server with_params fuel token folder top w
                       = (Return lst, w'))
          ∨ (∃ folder, readFolderByIdAll server with_params fuel token folder top w
                       = (Return lst, w'))
          ∨ (∃ folder, readSearchFolderByIdAll server with_params fuel token folder top w
                       = (Return lst, w'))
          ∨ (∃ s e, filterAllMailByDate server with_params fuel token s e top w
                    = (Return lst, w'))
          ∨ (∃ q, searchAllMail server with_params URL fuel token q top w
                  = (Return lst, w'))
          ∨ (∃ q, searchAllMailAllPages server with_params URL fuel token q top w
                  = (Return lst, w'))
          ∨ (∃ email s e, searchBySenderEmail server with_params URL fuel token email
                            top s e w = (Return lst, w')) →
          count lst = Z.of_nat (length (results lst)) ∧
          (Z.of_nat (length (results lst)) ≤ Z.max top 1)%Z).
Proof.
  intros Hrun.
  assert (∀ extra url hs,
            on_return (listing_of extra) (read_capped server fuel url hs top w)
            = (Return lst, w') →
            count lst = Z.of_nat (length (results lst)) ∧
            (Z.of_nat (length (results lst)) ≤ Z.max top 1)%Z) as Hread.
  { intros extra url hs H.
    apply (on_return_listing extra (λ l, l)) in H as (out & Hout & -> & Hcount).
    split; [done|]. eapply for_await_at_most; [|exact Hout]. simpl. lia. }
  assert (∀ extra f url hs,
            (∀ l, length (f l) = length l) →
            on_return (λ out, listing_of extra (f out))
                      (page_loop server URL fuel url hs [] top w)
            = (Return lst, w') →
            count lst = Z.of_nat (length (results lst)) ∧
            (Z.of_nat (length (results lst)) ≤ Z.max top 1)%Z) as Hsearch.
  { intros extra f url hs Hf H.
    apply on_return_listing in H as (out & Hout & -> & Hcount).
    split; [done|]. rewrite Hf. eapply page_loop_at_most; [|exact Hout]. simpl. lia. }
  destruct Hrun as [H|[H|[H|[[folder H]|[[folder H]|[[folder H]|[(s & e & H)|
                   [[q H]|[[q H]|(email & s & e & H)]]]]]]]]].
  - by eapply Hread.
  - by eapply Hread.
  - by eapply Hread.
  - by eapply Hread.
  - unfold readFolderByIdAll in H. destruct (String.eqb folder EmptyString); [done|].
    by eapply Hread.
  - unfold readSearchFolderByIdAll, readFolderByIdAll in H.
    destruct (String.eqb folder EmptyString); [done|]. by eapply Hread.
  - by eapply Hread.
  - eapply Hsearch; [|exact H]. apply Array_sort_length.
  - eapply (Hsearch _ (λ l, l)); [done|exact H].
  - unfold searchBySenderEmail in H. destruct (String.eqb email EmptyString); [done|].
    eapply Hsearch; [|exact H]. apply Array_sort_length.
Qed.

(** X3. [searchAllMail] and [searchBySenderEmail] hand their results to
    [sort]: when every message has a [received] time the results are in
    descending order of it. *)
Lemma sorting_searches_newest_first fuel token w lst w' :
  ((∃ q top, searchAllMail server with_params URL fuel token q top w = (Return lst, w'))
   ∨ (∃ email limit s e, searchBySenderEmail server with_params URL fuel token email
                           limit s e w = (Return lst, w'))) →
  Forall (λ m, is_Some (received m)) (results lst) →
  newest_first (results lst).
Proof.
  assert (∀ l, Forall (λ m, is_Some (received m)) (Array_sort by_received_desc l) →
               Forall (λ m : mail, is_Some (received m)) l) as Hback.
  { induction l as [|x l IH]; simpl; [done|]. intros Hall.
    assert (∀ z, z = x ∨ z ∈ Array_sort by_received_desc l → is_Some (received z)) as Hz.
    { intros z Hz. eapply Forall_forall in Hall; [done|]. by apply insert_by_elem_of. }
    constructor; [by apply Hz; left|].
    apply IH, Forall_forall. intros z Hin. apply Hz. by right. }
  intros [(q & top & H)|(email & limit & s & e & H)] Hall.
  - apply on_return_listing in H as (out & _ & Hres & _). rewrite Hres in *.
    by apply Array_sort_newest_first, Hback.
  - unfold searchBySenderEmail in H. destruct (String.eqb email EmptyString); [done|].
    apply on_return_listing in H as (out & _ & Hres & _). rewrite Hres in *.
    by apply Array_sort_newest_first, Hback.
Qed.

End FacadeFacts.

(** The name bootstrap also reports the length of what it returns. *)
Lemma bootstrap_count
    (server : nat → Graph.request → Graph.outcome Graph.Msg.t)
    (with_params : string → list (string * string) → string)
    (URL : string → option string)
    (fuel : nat) (token name : string) (maxAqs perSenderLimit : Z)
    (w w' : Graph.world) (lst : Graph.listing) :
  Graph.searchSenderByNameBootstrap server with_params URL fuel token name
    maxAqs perSenderLimit w = (Graph.Return lst, w') →
  Graph.count lst = Z.of_nat (length (Graph.results lst)).
Proof.
  unfold Graph.searchSenderByNameBootstrap.
  destruct (String.eqb name EmptyString); [done|].
  destruct (Graph.searchAllMailAllPages _ _ _ _ _ _ _ _) as [[aqs|e|] w1]; try done.
  destruct (length _ =? 0)%nat.
  - by intros [= <- _].
  - intros H. by apply on_return_listing in H as (out & _ & _ & Hcount).
Qed.

(** C7, at the input where it fails. The remote API lists the older
    message before the newer one. [searchAllMailAllPages] returns them in
    that order, which is not descending by [received]; [searchAllMail],
    given the same query and mailbox, returns the newer one first. *)
Theorem searchAllMailAllPages_keeps_server_order :
  let start := Graph.World [] [] in
  (∃ lst w',
      Graph.searchAllMailAllPages two_message_server plain_params Some 3
        "token" "invoice" 1000 start = (Graph.Return lst, w') ∧
      Graph.results lst = [Graph.mapMsg older; Graph.mapMsg newer] ∧
      ¬ newest_first (Graph.results lst)) ∧
  (∃ lst w',
      Graph.searchAllMail two_message_server plain_params Some 3
        "token" "invoice" 1000 start = (Graph.Return lst, w') ∧
      Graph.results lst = [Graph.mapMsg newer; Graph.mapMsg older] ∧
      newest_first (Graph.results lst)).
Proof.
  split.
  - eexists _, _. split; [vm_compute; reflexivity|]. split; [reflexivity|].
    simpl. intros Hsorted. apply StronglySorted_inv in Hsorted as [_ Hhd].
    apply Forall_cons in Hhd as [Hhd _]. vm_compute in Hhd. discriminate.
  - eexists _, _. split; [vm_compute; reflexivity|]. split; [reflexivity|].
    simpl. repeat constructor.
Qed.

(** C10, at the input where it fails. Asked for at most zero messages,
    [readAllMailbox] and [searchAllMailAllPages] each return one: the
    bound is compared only after a message has been pushed. The count
    still equals the length of the results. *)
Theorem bound_zero_returns_one_message :
  let start := Graph.World [] [] in
  (∃ lst w',
      Graph.readAllMailbox two_message_server plain_params 3 "token" 0 start
      = (Graph.Return lst, w') ∧
      Graph.results lst = [Graph.mapMsg older] ∧
      Graph.count lst = 1%Z ∧
      (0 < Z.of_nat (length (Graph.results lst)))%Z) ∧
  (∃ lst w',
      Graph.searchAllMailAllPages two_message_server plain_params Some 3
        "token" "invoice" 0 start = (Graph.Return lst, w') ∧
      Graph.results lst = [Graph.mapMsg older] ∧
      Graph.count lst = 1%Z ∧
      (0 < Z.of_nat (length (Graph.results lst)))%Z).
Proof.
  split; eexists _, _; (split; [vm_compute; reflexivity|]); repeat split; done.
Qed.


(** The number of seconds [retryAfter] computes: a non-zero number in
    [Retry-After] itself; without the header, with a date in it or with
    the number zero, [min(2^attempt, 16)], that is 1, 2, 4, 8, 16 and
    then 16 for the attempts 0, 1, 2, ... *)
Lemma retry_delay_policy (st : Z) (h : Graph.retry_after) (body : option string)
    (msg : string) (attempt : Z) :
  Graph.retryAfter (Graph.AxiosError (Some (Graph.ErrorResponse st h body)) msg) attempt =
    match h with
    | Graph.DelaySeconds n => if decide (n = 0%Z) then Z.min (2 ^ attempt) 16 else n
    | _ => Z.min (2 ^ attempt) 16
    end ∧
  (λ a, Z.min (2 ^ a) 16) <$> [0; 1; 2; 3; 4; 5]%Z = [1; 2; 4; 8; 16; 16]%Z ∧
  ((4 ≤ attempt)%Z → Z.min (2 ^ attempt) 16 = 16%Z).
Proof.
  split; [apply retryAfter_cases|]. split; [reflexivity|].
  intros Ha. assert (2 ^ 4 ≤ 2 ^ attempt)%Z by (apply Z.pow_le_mono_r; lia).
  change (2 ^ 4)%Z with 16%Z in *. lia.
Qed.

Lemma readers_count_and_bound_witness :
  let start := Graph.World [] [] in
  let run := Graph.readAllMailbox two_message_server plain_params 3 "token" 1 start in
  let lst := Graph.Listing [Graph.mapMsg older] 1 [] in
  run = (Graph.Return lst, run.2) ∧
  Graph.count lst = Z.of_nat (length (Graph.results lst)) ∧
  (Z.of_nat (length (Graph.results lst)) ≤ Z.max 1 1)%Z.
Proof.
  cbv zeta.
  assert (Graph.readAllMailbox two_message_server plain_params 3 "token" 1 (Graph.World [] [])
          = (Graph.Return (Graph.Listing [Graph.mapMsg older] 1 []),
             (Graph.readAllMailbox two_message_server plain_params 3 "token" 1
                (Graph.World [] [])).2)) as Hrun by (vm_compute; reflexivity).
  split; [exact Hrun|].
  exact (readers_count_and_bound two_message_server plain_params Some 3 "token" 1
           (Graph.World [] []) _ _ (or_intror (or_intror (or_introl Hrun)))).
Defined.

Lemma sorting_searches_newest_first_witness :
  let start := Graph.World [] [] in
  let run := Graph.searchAllMail two_message_server plain_params Some 3
               "token" "invoice" 50 start in
  let lst := Graph.Listing [Graph.mapMsg newer; Graph.mapMsg older] 2 [] in
  (run = (Graph.Return lst, run.2) ∧
   Forall (λ m, is_Some (Graph.received m)) (Graph.results lst)) ∧
  newest_first (Graph.results lst).
Proof.
  cbv zeta.
  assert (Graph.searchAllMail two_message_server plain_params Some 3 "token" "invoice" 50
            (Graph.World [] [])
          = (Graph.Return (Graph.Listing [Graph.mapMsg newer; Graph.mapMsg older] 2 []),
             (Graph.searchAllMail two_message_server plain_params Some 3 "token" "invoice" 50
                (Graph.World [] [])).2)) as Hrun by (vm_compute; reflexivity).
  assert (Forall (λ m, is_Some (Graph.received m))
                 (Graph.results (Graph.Listing [Graph.mapMsg newer; Graph.mapMsg older] 2 [])))
    as Hall by (repeat constructor; eexists; reflexivity).
  split; [by split|].
  exact (sorting_searches_newest_first two_message_server plain_params Some 3 "token"
           (Graph.World [] []) _ _
           (or_introl (ex_intro _ "invoice" (ex_intro _ 50%Z Hrun))) Hall).
Defined.

(** The backoff scenario of the design document: the answers 429 with
    [Retry-After: 3], 500, 500 and then 200 cost exactly three sleeps, of
    3, 2 and 4 seconds, and the page of the fourth answer is returned. *)
Example backoff_scenario :
  let failure st h :=
    Graph.Rejected (Graph.AxiosError (Some (Graph.ErrorResponse st h None))
                                     "Request failed") in
  let page := Graph.HttpResponse (Some (Graph.Page (Some ["m1"; "m2"]) None)) in
  let server : nat → Graph.request → Graph.outcome string :=
    λ n _, match n with
           | 0%nat => failure 429%Z (Graph.DelaySeconds 3)
           | 1%nat | 2%nat => failure 500%Z Graph.NoHeader
           | _ => Graph.Fulfilled page
           end in
  let req := Graph.Request "https://graph.microsoft.com/v1.0/me/messages" [] in
  Graph.httpGetWithBackoff server (Graph.req_url req) [] Graph.default_maxRetries
    (Graph.World [] [])
  = (Graph.Return page, Graph.World [req; req; req; req] [3000; 2000; 4000]%Z) ∧
  Graph.items_of page = ["m1"; "m2"].
Proof. split; reflexivity. Qed.

(** * Further properties of the token store *)

(** X4. [delete] removes the row of the key and nothing else: the key is
    gone afterwards, every other key reads as before, the count drops by
    one exactly when a row was there, and deleting an absent key (in
    particular deleting twice) changes nothing. *)
Theorem delete_removes_one_row (k : string) (d : TokenStore.db) :
  TokenStore.get k (TokenStore.delete k d) = None ∧
  (∀ k', k' ≠ k → TokenStore.get k' (TokenStore.delete k d) = TokenStore.get k' d) ∧
  TokenStore.count (TokenStore.delete k d) =
    (TokenStore.count d - match TokenStore.get k d with Some _ => 1 | None => 0 end)%Z ∧
  (TokenStore.get k d = None → TokenStore.delete k d = d) ∧
  TokenStore.delete k (TokenStore.delete k d) = TokenStore.delete k d.
Proof.
  unfold TokenStore.get, TokenStore.delete, TokenStore.count.
  split; [apply lookup_delete_eq|]. split; [intros k' Hne; by apply lookup_delete_ne|].
  split; [|split; [apply delete_id|apply delete_delete_eq]].
  rewrite map_size_delete. destruct (d !! k) as [r|] eqn:Hk; simpl; [|lia].
  assert (size d ≠ 0%nat); [|lia].
  intros Hz. apply map_size_empty_iff in Hz. subst d. by rewrite lookup_empty in Hk.
Qed.

(** X5. [set] touches one row: every other key reads as before, and the
    number of rows grows by one when the key is new and stays the same
    when it is already there, so a key never has two rows. A new key gets
    a row stamped with the time of the write in both [created_at] and
    [updated_at]. *)
Theorem set_writes_one_row (k : string) (c : TokenStore.credential) (ts : Z)
    (d : TokenStore.db) :
  (∀ k', k' ≠ k → TokenStore.get k' (TokenStore.set k c ts d) = TokenStore.get k' d) ∧
  TokenStore.count (TokenStore.set k c ts d) =
    (TokenStore.count d + match TokenStore.get k d with Some _ => 0 | None => 1 end)%Z ∧
  (TokenStore.get k d = None →
   TokenStore.get k (TokenStore.set k c ts d) =
     Some (TokenStore.TokenRow k (TokenStore.c_access_token c)
             (TokenStore.c_refresh_token c) (TokenStore.c_expiry c)
             (TokenStore.c_scopes c) ts ts)).
Proof.
  unfold TokenStore.get, TokenStore.set, TokenStore.count.
  split; [intros k' Hne; by apply lookup_upsert_ne|]. split.
  - unfold TokenStore.upsert. destruct (d !! k) as [r|] eqn:Hk.
    + rewrite map_size_insert_Some by (by rewrite Hk). lia.
    + rewrite map_size_insert_None by done. lia.
  - intros Hk. by rewrite lookup_upsert_eq, Hk.
Qed.

(** X6. The sweep is storage hygiene only: a sweep run at [swept_at]
    changes no later validity decision. For every key and every time
    [now] with [swept_at <= now + 60000], [getValidToken] answers the same
    on the swept table as on the table before the sweep. *)
Theorem sweep_keeps_validity (k : string) (now swept_at : Z) (d : TokenStore.db) :
  (swept_at ≤ now + 60000)%Z →
  Index.getValidToken k now (TokenStore.deleteExpired swept_at d).2
  = Index.getValidToken k now d.
Proof.
  intros Hle. unfold Index.getValidToken, TokenStore.get. simpl.
  rewrite lookup_delExpired. destruct (d !! k) as [r|]; [|done].
  destruct (decide (TokenStore.expiry r ≤ swept_at)%Z) as [Hexp|_]; [|done].
  destruct (Z.gtb_spec (TokenStore.expiry r - 60 * 1000) now); [lia|done].
Qed.

(** A sweep at 1000000 of the table with a stale and a fresh credential
    removes the stale row; at that time the stale key had no usable token
    before the sweep and has none after it, and the fresh key keeps its
    token. *)
Lemma sweep_keeps_validity_witness :
  let stale := "123e4567-e89b-42d3-a456-426614174000" in
  let fresh := "9b2f6c1e-7a43-4d0b-8e55-0c1d2e3f4a5b" in
  let swept := TokenStore.deleteExpired 1000000 two_credentials in
  (1000000 ≤ 1000000 + 60000)%Z ∧
  swept.1 = 1%Z ∧
  TokenStore.get stale two_credentials ≠ None ∧
  TokenStore.get stale swept.2 = None ∧
  Index.getValidToken stale 1000000 swept.2 = Index.getValidToken stale 1000000 two_credentials ∧
  Index.getValidToken fresh 1000000 swept.2 = Index.getValidToken fresh 1000000 two_credentials ∧
  Index.getValidToken fresh 1000000 swept.2 = Some "eyJ0eXAi.fresh".
Proof.
  cbv zeta. split; [lia|]. split; [by vm_compute|]. split; [by vm_compute|].
  split; [by vm_compute|]. split; [|split; [|by vm_compute]].
  - apply (sweep_keeps_validity "123e4567-e89b-42d3-a456-426614174000" 1000000 1000000).
    lia.
  - apply (sweep_keeps_validity "9b2f6c1e-7a43-4d0b-8e55-0c1d2e3f4a5b" 1000000 1000000).
    lia.
Defined.

(** * Further properties of the authorization callback *)

(** X7. A callback whose exchange succeeds binds the credential to the
    key given as [state] and to no other: afterwards [getValidToken] for
    that key yields the new access token at every time earlier than
    [now + expires_in * 1000 - 60000] and nothing from then on, whatever
    was stored under the key before; the row carries the configured
    scopes; every other key reads as before. The answer is a 200, unless
    [format] is not a string (the key was given more than once): then the
    answer is a 400 although the credential is stored. *)
Theorem callback_binds_state_key
    (CLIENT_ID REDIRECT_URI SCOPES : string)
    (token_endpoint : list (string * Auth.qvalue) → Auth.post_result)
    (signed_in_page : Z → string → Z → string)
    (cannot_bind not_a_function : string)
    (q : Auth.query) (now ts : Z) (d : TokenStore.db)
    (c : Auth.qvalue) (uid : string) (tok : Auth.token_data) :
  Auth.q_truthy (Auth.error q) = false →
  Auth.code q = Some c → Auth.q_truthy (Some c) = true →
  Auth.state q = Some (Auth.QStr uid) → uid ≠ EmptyString →
  token_endpoint (Auth.exchange_form CLIENT_ID REDIRECT_URI SCOPES c) = Auth.Resolved tok →
  let run := Auth.callback CLIENT_ID REDIRECT_URI SCOPES token_endpoint
                           signed_in_page cannot_bind not_a_function q now ts d in
  let d' := run.1.2 in
  (∀ t, Index.getValidToken uid t d' =
          if (t <? now + Auth.expires_in tok * 1000 - 60000)%Z
          then Some (Auth.access_token tok) else None) ∧
  (∃ r, TokenStore.get uid d' = Some r ∧
        TokenStore.scopes r = Some SCOPES ∧
        TokenStore.refresh_token r = JS.or_else (Auth.refresh_token tok) None ∧
        TokenStore.updated_at r = ts) ∧
  (∀ k, k ≠ uid → TokenStore.get k d' = TokenStore.get k d) ∧
  reply_status run.1.1 = match Auth.format q with
                         | Some (Auth.QOther _) => 400%Z
                         | _ => 200%Z
                         end.
Proof.
  intros Herr Hc Hct Hs Hse Hpost. cbv zeta.
  assert (Auth.q_truthy (Some (Auth.QStr uid)) = true) as Hut.
  { simpl. by destruct (String.eqb_spec uid EmptyString). }
  unfold Auth.callback. rewrite Herr, Hc, Hs, Hct, Hut. cbn [negb orb].
  rewrite Hpost. cbn [Auth.store_set fst snd].
  set (fields := TokenStore.Credential _ _ _ _).
  unfold TokenStore.set, TokenStore.get.
  split; [|split; [|split]].
  - intros t. unfold Index.getValidToken, TokenStore.get.
    rewrite lookup_upsert_eq.
    destruct (d !! uid); simpl;
      destruct (Z.gtb_spec (now + Auth.expires_in tok * 1000 - 60 * 1000) t),
               (Z.ltb_spec t (now + Auth.expires_in tok * 1000 - 60000)); (done || lia).
  - rewrite lookup_upsert_eq. eexists. split; [reflexivity|].
    by destruct (d !! uid).
  - intros k Hne. by apply lookup_upsert_ne.
  - unfold Auth.answer. destruct (Auth.format q) as [[text|shown]|]; [|done|].
    + by destruct (String.eqb _ "json").
    + by destruct (String.eqb _ "json").
Qed.

Lemma callback_binds_state_key_witness :
  let uid := "123e4567-e89b-42d3-a456-426614174000" in
  let c := Auth.QStr "M.C507_BAY" in
  let q := Auth.Query (Some c) (Some (Auth.QStr uid)) None None
                      (Some (Auth.QOther "json,json")) in
  let tok := Auth.TokenData "eyJ0eXAi" None 3600 in
  let run := Auth.callback "client" "http://localhost:3001/auth/callback" "Mail.ReadWrite"
               hourly_endpoint (λ _ _ _, "<html>")
               "SQLite3 can only bind numbers, strings, bigints, buffers, and null"
               "toLowerCase is not a function" q 1000000 1000001 ∅ in
  let d' := run.1.2 in
  (Auth.q_truthy (Auth.error q) = false ∧
   Auth.code q = Some c ∧ Auth.q_truthy (Some c) = true ∧
   Auth.state q = Some (Auth.QStr uid) ∧ uid ≠ EmptyString ∧
   hourly_endpoint (Auth.exchange_form "client" "http://localhost:3001/auth/callback"
                      "Mail.ReadWrite" c) = Auth.Resolved tok) ∧
  (∀ t, Index.getValidToken uid t d' =
          if (t <? 1000000 + 3600 * 1000 - 60000)%Z then Some "eyJ0eXAi" else None) ∧
  (∃ r, TokenStore.get uid d' = Some r ∧
        TokenStore.scopes r = Some "Mail.ReadWrite" ∧
        TokenStore.refresh_token r = None ∧
        TokenStore.updated_at r = 1000001%Z) ∧
  (∀ k, k ≠ uid → TokenStore.get k d' = TokenStore.get k ∅) ∧
  reply_status run.1.1 = 400%Z.
Proof.
  cbv zeta.
  assert ("123e4567-e89b-42d3-a456-426614174000" ≠ EmptyString) as Hu by discriminate.
  split; [repeat split; done|].
  exact (callback_binds_state_key "client" "http://localhost:3001/auth/callback"
           "Mail.ReadWrite" hourly_endpoint (λ _ _ _, "<html>")
           "SQLite3 can only bind numbers, strings, bigints, buffers, and null"
           "toLowerCase is not a function"
           (Auth.Query (Some (Auth.QStr "M.C507_BAY"))
                       (Some (Auth.QStr "123e4567-e89b-42d3-a456-426614174000"))
                       None None (Some (Auth.QOther "json,json")))
           1000000 1000001 ∅ (Auth.QStr "M.C507_BAY")
           "123e4567-e89b-42d3-a456-426614174000"
           (Auth.TokenData "eyJ0eXAi" None 3600)
           eq_refl eq_refl eq_refl eq_refl Hu eq_refl).
Defined.

(** The same callback with [format=JSON]: the credential is stored and
    the answer is the 200 JSON object. *)
Example callback_json_run :
  let uid := "123e4567-e89b-42d3-a456-426614174000" in
  let q := Auth.Query (Some (Auth.QStr "M.C507_BAY")) (Some (Auth.QStr uid)) None None
                      (Some (Auth.QStr "JSON")) in
  let run := Auth.callback "client" "http://localhost:3001/auth/callback" "Mail.ReadWrite"
               hourly_endpoint (λ _ _ _, "<html>")
               "SQLite3 can only bind numbers, strings, bigints, buffers, and null"
               "toLowerCase is not a function" q 1000000 1000001 ∅ in
  run.1.1 = SendJson 200 (JObj [("status", JStr "logged_in"); ("user_id", JStr uid);
                                ("expires_in", JNum 3600)]) ∧
  Index.getValidToken uid 1000000 run.1.2 = Some "eyJ0eXAi".
Proof. split; reflexivity. Qed.

(** * Further properties of the gatekeeper *)

Lemma startsWith_split (p s : string) :
  Str.startsWith p s = true → s = p ++ Str.slice (String.length p) s.
Proof.
  revert s. induction p as [|a p IH]; intros s; simpl; [done|].
  destruct s as [|b s]; [done|].
  intros [Hab Hps]%andb_prop. apply Ascii.eqb_eq in Hab as ->.
  rewrite (IH s Hps) at 1. reflexivity.
Qed.

(** The key read from the [Authorization] header is a non-empty [K]
    exactly when the header is [Bearer K]. *)
Lemma provided_key_bearer (h : option string) (K : string) :
  K ≠ EmptyString →
  (if Str.startsWith "Bearer " (JS.str_or h EmptyString)
   then Some (Str.slice 7 (JS.str_or h EmptyString)) else None) = Some K ↔
  h = Some ("Bearer " ++ K).
Proof.
  intros HK. split.
  - destruct (Str.startsWith "Bearer " (JS.str_or h EmptyString)) eqn:Hsw; [|done].
    intros Heq.
    assert (Str.slice 7 (JS.str_or h EmptyString) = K) as Hslice by congruence.
    apply startsWith_split in Hsw.
    change (String.length "Bearer ") with 7%nat in Hsw. rewrite Hslice in Hsw.
    destruct h as [s|]; [|done]. unfold JS.str_or in Hsw.
    destruct (String.eqb_spec s EmptyString); [done|]. by subst s.
  - intros ->.
    assert (JS.str_or (Some ("Bearer " ++ K)) EmptyString = "Bearer " ++ K) as ->
      by reflexivity.
    reflexivity.
Qed.

(** X8. What [POST /execute_tool] does before it dispatches. Unless the
    [Authorization] header is exactly [Bearer] followed by the configured
    key, the answer is 401. Otherwise the identity key is the trimmed
    [user_id] of the body: when it is not in UUID form the answer is 400
    and carries a freshly minted key with the login URL for that minted
    key, never the key that was sent; when it is in UUID form and a usable
    token is stored for it, the action runs with that token and that
    key. *)
Theorem execute_tool_gate
    (API_KEY BASE_URL : string)
    (execute_action : string → string → Index.request → reply)
    (req : Index.request) (minted : string) (now : Z) (d : TokenStore.db) :
  let uid := Str.trim (JS.str_or (Index.body_user_id req) EmptyString) in
  let authorized :=
    Index.authorization req = Some ("Bearer " ++ API_KEY) ∧ API_KEY ≠ EmptyString in
  let rep := Index.execute_tool API_KEY BASE_URL execute_action req minted now d in
  (¬ authorized →
   rep = SendJson 401 (JObj [("error", JStr "Invalid API key");
                             ("requires_login", JBool true);
                             ("login_url", JStr (BASE_URL ++ "/login?user_id=temp"))])) ∧
  (authorized → Str.test_classes Index.UUID_RE uid = false →
   reply_status rep = 400%Z ∧
   ∃ message,
     rep = SendJson 400
             (JObj [("error", JStr "user_id_required");
                    ("message", JStr message);
                    ("requires_login", JBool true);
                    ("user_id", JStr minted);
                    ("login_url",
                     JStr (BASE_URL ++ "/login?user_id=" ++ Str.encodeURIComponent minted))])) ∧
  (authorized → Str.test_classes Index.UUID_RE uid = true →
   ∀ tok, Index.getValidToken uid now d = Some tok → tok ≠ EmptyString →
          rep = execute_action tok uid req).
Proof.
  cbv zeta. unfold Index.execute_tool, Index.STRICT_USER_ID. cbv zeta.
  set (pk := if Str.startsWith "Bearer " (JS.str_or (Index.authorization req) EmptyString)
             then Some (Str.slice 7 (JS.str_or (Index.authorization req) EmptyString))
             else None).
  set (uid := Str.trim (JS.str_or (Index.body_user_id req) EmptyString)).
  assert (negb (JS.truthy pk) || negb (bool_decide (pk = Some API_KEY)) = false ↔
          Index.authorization req = Some ("Bearer " ++ API_KEY) ∧ API_KEY ≠ EmptyString)
    as Hgate.
  { rewrite orb_false_iff, !negb_false_iff, bool_decide_eq_true. split.
    - intros [Htruthy Hpk]. rewrite Hpk in Htruthy. simpl in Htruthy.
      assert (API_KEY ≠ EmptyString) as HK.
      { intros ->. done. }
      split; [|done]. by apply provided_key_bearer.
    - intros [Hauth HK]. apply (provided_key_bearer _ _ HK) in Hauth.
      fold pk in Hauth. rewrite Hauth. split; [|done].
      simpl. by destruct (String.eqb_spec API_KEY EmptyString). }
  destruct (negb (JS.truthy pk) || negb (bool_decide (pk = Some API_KEY))) eqn:Hg.
  { split; [done|]. split; intros Hauth; apply Hgate in Hauth; done. }
  split; [intros Hno; destruct Hno; by apply Hgate|].
  split.
  - intros _ Hre. rewrite Hre. rewrite orb_true_r. simpl. split; [done|]. by eexists.
  - intros _ Hre tok Htok Hne.
    destruct (uuid_key_facts uid Hre) as (_ & _ & Htruthy & Hbad).
    rewrite Htruthy, Hbad, Hre, Htok. simpl.
    by destruct (String.eqb_spec tok EmptyString).
Qed.

(** Two requests with the configured key. The first sends an identity
    key in UUID form between a no-break space and a space: the key is
    trimmed and the action runs with the token stored for it. The second
    sends the word [temp]: the answer is the 400 with the minted key. *)
Lemma execute_tool_gate_witness :
  let fresh := "9b2f6c1e-7a43-4d0b-8e55-0c1d2e3f4a5b" in
  let minted := "00000000-0000-4000-8000-000000000000" in
  let gate body :=
    Index.execute_tool "CROWDdoingtools" "http://localhost:3001" echo_action
      (Index.Request (Some "Bearer CROWDdoingtools") (Some body) (Some "read"))
      minted 1000000 two_credentials in
  Str.trim (nbsp ++ fresh ++ " ") = fresh ∧
  gate (nbsp ++ fresh ++ " ")
  = SendJson 200 (JObj [("token", JStr "eyJ0eXAi.fresh"); ("user_id_used", JStr fresh)]) ∧
  reply_status (gate "temp") = 400%Z.
Proof.
  cbv zeta.
  assert (Str.trim (nbsp ++ "9b2f6c1e-7a43-4d0b-8e55-0c1d2e3f4a5b" ++ " ")
          = "9b2f6c1e-7a43-4d0b-8e55-0c1d2e3f4a5b") as Htrim by (vm_compute; reflexivity).
  assert (Index.getValidToken "9b2f6c1e-7a43-4d0b-8e55-0c1d2e3f4a5b" 1000000 two_credentials
          = Some "eyJ0eXAi.fresh") as Htok by (vm_compute; reflexivity).
  assert ("CROWDdoingtools" ≠ EmptyString) as Hkey by discriminate.
  assert ("eyJ0eXAi.fresh" ≠ EmptyString) as Hne by discriminate.
  split; [exact Htrim|]. split.
  - pose proof (proj2 (proj2 (execute_tool_gate "CROWDdoingtools" "http://localhost:3001"
                                echo_action
                                (Index.Request (Some "Bearer CROWDdoingtools")
                                   (Some (nbsp ++ "9b2f6c1e-7a43-4d0b-8e55-0c1d2e3f4a5b" ++ " "))
                                   (Some "read"))
                                "00000000-0000-4000-8000-000000000000" 1000000
                                two_credentials))
                  (conj eq_refl Hkey)) as Hgate.
    cbn [Index.body_user_id] in Hgate.
    assert (JS.str_or (Some (nbsp ++ "9b2f6c1e-7a43-4d0b-8e55-0c1d2e3f4a5b" ++ " "))
                      EmptyString
            = nbsp ++ "9b2f6c1e-7a43-4d0b-8e55-0c1d2e3f4a5b" ++ " ") as Hstr by reflexivity.
    rewrite Hstr, Htrim in Hgate.
    exact (Hgate eq_refl "eyJ0eXAi.fresh" Htok Hne).
  - pose proof (proj1 (proj2 (execute_tool_gate "CROWDdoingtools" "http://localhost:3001"
                                echo_action
                                (Index.Request (Some "Bearer CROWDdoingtools")
                                   (Some "temp") (Some "read"))
                                "00000000-0000-4000-8000-000000000000" 1000000
                                two_credentials))
                  (conj eq_refl Hkey) eq_refl) as [Hstatus _].
    exact Hstatus.
Defined.

(** * Further properties of the fetcher *)




Lemma plain_delay {Item : Type} (o : Graph.outcome Item) (attempt : Z) :
  plain_rejection o = true → retried o = true →
  delay_after o attempt = (Z.min (2 ^ attempt) 16 * 1000)%Z.
Proof.
  destruct o as [r|[[[st h body]|] msg]]; simpl; try done.
  intros Hplain _. rewrite retryAfter_cases. destruct h as [|n|t]; try done.
  apply Z.eqb_eq in Hplain as ->. done.
Qed.

(** X10. With the default of 4 retries and a remote API that names no
    delay of its own, [httpGetWithBackoff] sleeps 1, 2, 4 and 8 seconds
    at most, in that order: the delays it has waited are a prefix of that
    list, one per request but the last. The 16 second step of the
    schedule is never slept, and a call waits 15 seconds in total at
    most. *)
Theorem default_backoff_waits {Item : Type}
    (server : nat → Graph.request → Graph.outcome Item)
    (url : string) (headers : list (string * string)) (w : Graph.world) :
  let req := Graph.Request url headers in
  let run := Graph.httpGetWithBackoff server url headers Graph.default_maxRetries w in
  (∀ i, plain_rejection (server i req) = true) →
  ∃ k : nat,
    (k ≤ 4)%nat ∧
    Graph.requested run.2 = (Graph.requested w ++ repeat req (S k))%list ∧
    Graph.slept run.2 = (Graph.slept w ++ take k [1000; 2000; 4000; 8000]%Z)%list.
Proof.
  intros req run Hplain.
  destruct (backoff_loop_run server url headers Graph.default_maxRetries
              (S (Z.to_nat Graph.default_maxRetries)) 0%Z w)
    as (j & Hj & Hreq & Hsl & Hall & _); [simpl; lia|].
  change (Z.to_nat (Graph.default_maxRetries - 0)) with 4%nat in *.
  cbv zeta in Hreq, Hsl, Hall.
  fold (Graph.httpGetWithBackoff server url headers Graph.default_maxRetries w) in *.
  fold run req in Hreq, Hsl, Hall.
  exists (j - 1)%nat. split; [lia|]. split.
  { rewrite Hreq. do 2 f_equal. lia. }
  rewrite Hsl. f_equal.
  assert (∀ i, (S i < j)%nat →
            delay_after (server (length (Graph.requested w) + i)%nat req) (0 + Z.of_nat i)
            = (Z.min (2 ^ Z.of_nat i) 16 * 1000)%Z) as Hdelay.
  { intros i Hi. rewrite Z.add_0_l. apply plain_delay; [apply Hplain|by apply Hall]. }
  destruct j as [|[|[|[|[|[|j]]]]]]; try lia; simpl;
    rewrite ?(Hdelay 0%nat), ?(Hdelay 1%nat), ?(Hdelay 2%nat), ?(Hdelay 3%nat) by lia;
    reflexivity.
Qed.

Lemma default_backoff_waits_witness :
  let server : nat → Graph.request → Graph.outcome string :=
    λ _ _, Graph.Rejected (Graph.AxiosError
                             (Some (Graph.ErrorResponse 503 Graph.NoHeader None))
                             "Request failed with status code 503") in
  let req := Graph.Request "https://graph.microsoft.com/v1.0/me/messages" [] in
  let w := Graph.World [] [] in
  let run := Graph.httpGetWithBackoff server "https://graph.microsoft.com/v1.0/me/messages"
               [] Graph.default_maxRetries w in
  (∀ i, plain_rejection (server i req) = true) ∧
  ∃ k : nat,
    (k ≤ 4)%nat ∧
    Graph.requested run.2 = (Graph.requested w ++ repeat req (S k))%list ∧
    Graph.slept run.2 = (Graph.slept w ++ take k [1000; 2000; 4000; 8000]%Z)%list.
Proof.
  cbv zeta. split; [intros i; reflexivity|].
  exact (default_backoff_waits
           (λ _ _, Graph.Rejected (Graph.AxiosError
                                     (Some (Graph.ErrorResponse 503 Graph.NoHeader None))
                                     "Request failed with status code 503"))
           "https://graph.microsoft.com/v1.0/me/messages" [] (Graph.World [] [])
           (λ i, eq_refl)).
Defined.

(** * Further properties of the operations on the mailbox *)

Section ErrorFacts.

Import Graph.
Variable server : nat → request → outcome Msg.t.
Variable with_params : string → list (string * string) → string.
Variable URL : string → option string.

Lemma httpGetWithBackoff_rejected url hs w e :
  server (length (requested w)) (Request url hs) = Rejected e →
  retryable (status <$> response e) = false →
  httpGetWithBackoff server url hs default_maxRetries w
  = (Throw (Axios e), World (requested w ++ [Request url hs]) (slept w)).
Proof.
  intros Hsrv Hno. apply backoff_loop_thrown; [done|]. by rewrite Hno.
Qed.

Lemma read_capped_rejected fuel url hs bound w e :
  (2 ≤ fuel)%nat →
  server (length (requested w)) (Request url hs) = Rejected e →
  retryable (status <$> response e) = false →
  read_capped server fuel url hs bound w
  = (Throw (Axios e), World (requested w ++ [Request url hs]) (slept w)).
Proof.
  intros Hfuel Hsrv Hno. destruct fuel as [|[|fuel]]; try lia.
  unfold read_capped, listMessages. rewrite for_await_unfold.
  change (next server (S fuel) (AtPage url hs) w)
    with (match httpGetWithBackoff server url hs default_maxRetries w with
          | (Return resp, w1) =>
              next server fuel (InPage (items_of resp) (next_of resp) hs) w1
          | (Throw e, w1) => (Throw e, Finished, w1)
          | (OutOfFuel, w1) => (OutOfFuel, AtPage url hs, w1)
          end).
  by rewrite (httpGetWithBackoff_rejected _ _ _ _ Hsrv Hno).
Qed.

Lemma page_loop_rejected fuel url hs out bound w e :
  (1 ≤ fuel)%nat →
  server (length (requested w)) (Request url hs) = Rejected e →
  retryable (status <$> response e) = false →
  page_loop server URL fuel url hs out bound w
  = (Throw (Axios e), World (requested w ++ [Request url hs]) (slept w)).
Proof.
  intros Hfuel Hsrv Hno. destruct fuel as [|fuel]; [lia|].
  simpl. by rewrite (httpGetWithBackoff_rejected _ _ _ _ Hsrv Hno).
Qed.

(** X11. A fetch error that is not retried reaches the caller of every
    reader and search as it is. When the remote API rejects the next
    request with a status other than 429 and below 500 (or without a
    response), each operation throws that very error after that single
    request, without sleeping and without returning any partial result;
    the name bootstrap stops at its sampling search. *)
Theorem readers_surface_fetch_error (fuel : nat) (token : string) (bound : Z)
    (w : world) (e : axios_error) :
  (2 ≤ fuel)%nat →
  (∀ req, server (length (requested w)) req = Rejected e) →
  retryable (status <$> response e) = false →
  let surfaced (run : result listing * world) :=
    run.1 = Throw (Axios e) ∧
    ∃ req, run.2 = World (requested w ++ [req]) (slept w) in
  surfaced (readLatest server with_params fuel token bound w) ∧
  surfaced (readSentLatest server with_params fuel token bound w) ∧
  surfaced (readAllMailbox server with_params fuel token bound w) ∧
  (∀ folder, surfaced (readFolderAll server with_params fuel token folder bound w)) ∧
  (∀ folder, folder ≠ EmptyString →
     surfaced (readFolderByIdAll server with_params fuel token folder bound w) ∧
     surfaced (readSearchFolderByIdAll server with_params fuel token folder bound w)) ∧
  (∀ s t, surfaced (filterAllMailByDate server with_params fuel token s t bound w)) ∧
  (∀ q, surfaced (searchAllMail server with_params URL fuel token q bound w) ∧
        surfaced (searchAllMailAllPages server with_params URL fuel token q bound w)) ∧
  (∀ email s t, email ≠ EmptyString →
     surfaced (searchBySenderEmail server with_params URL fuel token email bound s t w)) ∧
  (∀ name limit, name ≠ EmptyString →
     surfaced (searchSenderByNameBootstrap server with_params URL fuel token name
                 bound limit w)).
Proof.
  intros Hfuel Hsrv Hno surfaced.
  assert (∀ extra url hs,
            surfaced (on_return (listing_of extra)
                        (read_capped server fuel url hs bound w))) as Hread.
  { intros extra url hs.
    rewrite (read_capped_rejected _ _ _ _ _ _ Hfuel (Hsrv _) Hno).
    split; [done|]. by eexists. }
  assert (∀ f url hs,
            surfaced (on_return f (page_loop server URL fuel url hs [] bound w)))
    as Hsearch.
  { intros f url hs.
    assert (1 ≤ fuel)%nat as Hfuel1 by lia.
    rewrite (page_loop_rejected _ _ _ _ _ _ _ Hfuel1 (Hsrv _) Hno).
    split; [done|]. by eexists. }
  repeat split; try (intros; apply Hread); try (intros; apply Hsearch).
  - unfold readFolderByIdAll. destruct (String.eqb_spec folder EmptyString); [done|].
    apply Hread.
  - unfold readFolderByIdAll. destruct (String.eqb_spec folder EmptyString); [done|].
    apply Hread.
  - unfold readSearchFolderByIdAll, readFolderByIdAll.
    destruct (String.eqb_spec folder EmptyString); [done|]. apply Hread.
  - unfold readSearchFolderByIdAll, readFolderByIdAll.
    destruct (String.eqb_spec folder EmptyString); [done|]. apply Hread.
  - unfold searchBySenderEmail. destruct (String.eqb_spec email EmptyString); [done|].
    apply Hsearch.
  - unfold searchBySenderEmail. destruct (String.eqb_spec email EmptyString); [done|].
    apply Hsearch.
  - unfold searchSenderByNameBootstrap.
    destruct (String.eqb_spec name EmptyString); [done|].
    destruct (Hsearch (listing_of [])
                (with_params messages_url
                   [("$search", dquote ++ ("from:" ++ name) ++ dquote);
                    ("$top", "100"); ("$select", select_search)])
                (search_headers token)) as [H1 [req H2]].
    unfold searchAllMailAllPages.
    destruct (on_return _ _) as [[lst|e'|] w1]; simpl in *; congruence.
  - unfold searchSenderByNameBootstrap.
    destruct (String.eqb_spec name EmptyString); [done|].
    destruct (Hsearch (listing_of [])
                (with_params messages_url
                   [("$search", dquote ++ ("from:" ++ name) ++ dquote);
                    ("$top", "100"); ("$select", select_search)])
                (search_headers token)) as [H1 [req H2]].
    unfold searchAllMailAllPages.
    destruct (on_return _ _) as [[lst|e'|] w1]; simpl in *; try congruence.
    exists req. congruence.
Qed.

End ErrorFacts.

Lemma readers_surface_fetch_error_witness :
  let server := not_found_server in
  let with_params := plain_params in
  let URL : string → option string := Some in
  let fuel := 2%nat in
  let token := "token" in
  let bound := 10%Z in
  let w := Graph.World [] [] in
  let e := not_found_error in
  ((2 ≤ fuel)%nat ∧
   (∀ req, server (length (Graph.requested w)) req = Graph.Rejected e) ∧
   Graph.retryable (Graph.status <$> Graph.response e) = false) ∧
  let surfaced (run : Graph.result Graph.listing * Graph.world) :=
    run.1 = Graph.Throw (Graph.Axios e) ∧
    ∃ req, run.2 = Graph.World (Graph.requested w ++ [req]) (Graph.slept w) in
  surfaced (Graph.readLatest server with_params fuel token bound w) ∧
  surfaced (Graph.readSentLatest server with_params fuel token bound w) ∧
  surfaced (Graph.readAllMailbox server with_params fuel token bound w) ∧
  (∀ folder, surfaced (Graph.readFolderAll server with_params fuel token folder bound w)) ∧
  (∀ folder, folder ≠ EmptyString →
     surfaced (Graph.readFolderByIdAll server with_params fuel token folder bound w) ∧
     surfaced (Graph.readSearchFolderByIdAll server with_params fuel token folder bound w)) ∧
  (∀ s t, surfaced (Graph.filterAllMailByDate server with_params fuel token s t bound w)) ∧
  (∀ q, surfaced (Graph.searchAllMail server with_params URL fuel token q bound w) ∧
        surfaced (Graph.searchAllMailAllPages server with_params URL fuel token q bound w)) ∧
  (∀ email s t, email ≠ EmptyString →
     surfaced (Graph.searchBySenderEmail server with_params URL fuel token email bound s t w)) ∧
  (∀ name limit, name ≠ EmptyString →
     surfaced (Graph.searchSenderByNameBootstrap server with_params URL fuel token name
                 bound limit w)).
Proof.
  cbv zeta. split; [split; [lia|split; [intros req; reflexivity|reflexivity]]|].
  exact (readers_surface_fetch_error not_found_server plain_params Some 2 "token" 10
           (Graph.World [] []) not_found_error
           (le_n 2) (λ req, eq_refl) eq_refl).
Defined.

Section CollectionFacts.

Import Graph.
Variable server : nat → request → outcome Msg.t.
Variable with_params : string → list (string * string) → string.
Variable URL : string → option string.

(** The loop with [break] run from the start of the generator. *)
Lemma read_capped_chain url hs pages w (n : nat) :
  reads_responses Msg.t →
  (1 ≤ n)%nat →
  serves server hs (length (requested w)) url pages →
  ∃ fuel0, ∀ fuel, (fuel0 ≤ fuel)%nat →
    read_capped server fuel url hs (Z.of_nat n) w
    = (Return (mapMsg <$> take n (all_items pages)),
       World (requested w ++ take (pages_needed n pages) (requests_for hs url pages))
             (slept w)).
Proof. intros Hreads Hn Hserves. by apply capped_from_start. Qed.

(** X12. Over a finite paged collection every reader returns the first
    [bound] messages the pages list in their [value] arrays (all of them
    when there are fewer), shaped by [mapMsg], in the order the remote
    API lists them; [count] is the smaller of the bound and the size of
    the collection; and only the pages those messages come from were
    requested. Stated for the loop the readers share, run on the URL the
    collection is served at, and for [readAllMailbox] when that URL is
    the one it builds. *)
Theorem readers_return_first_items (token : string) (bound : Z) (url : string)
    (pages : list (http_response Msg.t)) (w : world) :
  (1 ≤ bound)%Z →
  serves server (text_headers token) (length (requested w)) url pages →
  let hs := text_headers token in
  let messages := concat (listed <$> pages) in
  let expected extra :=
    (Return (Listing (mapMsg <$> take (Z.to_nat bound) messages)
                     (Z.min bound (Z.of_nat (length messages))) extra),
     World (requested w
              ++ take (pages_needed (Z.to_nat bound) pages) (requests_for hs url pages))
           (slept w)) in
  (∀ extra,
      ∃ fuel0, ∀ fuel, (fuel0 ≤ fuel)%nat →
        on_return (listing_of extra) (read_capped server fuel url hs bound w)
        = expected extra) ∧
  (url = with_params messages_url
           [("$orderby", "receivedDateTime desc"); ("$top", "100");
            ("$select", select_full)] →
   ∃ fuel0, ∀ fuel, (fuel0 ≤ fuel)%nat →
     readAllMailbox server with_params fuel token bound w = expected []).
Proof.
  intros Hbound Hserves hs messages expected.
  assert (reads_responses Msg.t) as Hreads by (intros [[[[elements|] link]|]]; by split).
  assert (∀ extra,
            ∃ fuel0, ∀ fuel, (fuel0 ≤ fuel)%nat →
              on_return (listing_of extra) (read_capped server fuel url hs bound w)
              = expected extra) as Hgen.
  { intros extra.
    destruct (read_capped_chain url hs pages w (Z.to_nat bound) Hreads ltac:(lia) Hserves)
      as [fuel0 Hrun].
    exists fuel0. intros fuel Hfuel. specialize (Hrun fuel Hfuel).
    rewrite Z2Nat.id in Hrun by lia. rewrite Hrun.
    unfold expected, messages, all_items, listing_of. simpl.
    do 2 f_equal. rewrite length_fmap, length_take.
    generalize (length (concat (listed <$> pages))). intros len.
    f_equal. clear -Hbound. lia. }
  split; [exact Hgen|]. intros Hurl. unfold readAllMailbox. rewrite <- Hurl.
  apply Hgen.
Qed.

End CollectionFacts.

(** The two-page mailbox read with a bound of one and with a bound of
    five: one message after one request, both messages after two. *)
Lemma readers_return_first_items_witness :
  let token := "token" in
  let hs := Graph.text_headers token in
  let url := plain_params Graph.messages_url
               [("$orderby", "receivedDateTime desc"); ("$top", "100");
                ("$select", Graph.select_full)] in
  let second := "https://graph.microsoft.com/v1.0/me/messages?$skip=1" in
  let w := Graph.World [] [] in
  ((1 ≤ 1)%Z ∧ (1 ≤ 5)%Z ∧
   serves mail_server hs (length (Graph.requested w)) url mail_pages) ∧
  (∃ fuel0, ∀ fuel, (fuel0 ≤ fuel)%nat →
     Graph.readAllMailbox mail_server plain_params fuel token 1 w
     = (Graph.Return (Graph.Listing [Graph.mapMsg newer] 1 []),
        Graph.World [Graph.Request url hs] [])) ∧
  (∃ fuel0, ∀ fuel, (fuel0 ≤ fuel)%nat →
     Graph.readAllMailbox mail_server plain_params fuel token 5 w
     = (Graph.Return (Graph.Listing [Graph.mapMsg newer; Graph.mapMsg older] 2 []),
        Graph.World [Graph.Request url hs; Graph.Request second hs] [])) ∧
  Graph.readAllMailbox mail_server plain_params 6 token 5 w
  = (Graph.Return (Graph.Listing [Graph.mapMsg newer; Graph.mapMsg older] 2 []),
     Graph.World [Graph.Request url hs; Graph.Request second hs] []).
Proof.
  cbv zeta.
  assert (∀ url hs, serves mail_server hs 0 url mail_pages) as Hserves.
  { intros url hs. split; [reflexivity|].
    eexists. split; [split; [reflexivity|discriminate]|].
    split; [reflexivity|by left]. }
  split; [split; [lia|split; [lia|apply Hserves]]|].
  split.
  - exact (proj2 (readers_return_first_items mail_server plain_params "token" 1 _
                    mail_pages (Graph.World [] []) ltac:(lia) (Hserves _ _)) eq_refl).
  - split; [|vm_compute; reflexivity].
    exact (proj2 (readers_return_first_items mail_server plain_params "token" 5 _
                    mail_pages (Graph.World [] []) ltac:(lia) (Hserves _ _)) eq_refl).
Defined.

Section SearchFacts.

Import Graph.
Variable server : nat → request → outcome Msg.t.
Variable with_params : string → list (string * string) → string.
Variable URL : string → option string.

(** What the inner loop of the search functions pushes when [need >= 1]
    more messages are wanted, and whether it reached the bound. *)
Lemma push_capped_take items out (need : nat) :
  (1 ≤ need)%nat →
  push_capped items out (Z.of_nat (length out + need))
  = ((out ++ (mapMsg <$> take need items))%list, bool_decide (need ≤ length items)%nat).
Proof.
  revert out need. induction items as [|m items IH]; intros out need Hneed.
  - rewrite bool_decide_eq_false_2 by (simpl; lia).
    simpl. by rewrite take_nil, app_nil_r.
  - cbn [push_capped].
    destruct (Z.geb_spec (Z.of_nat (length (out ++ [mapMsg m])%list))
                         (Z.of_nat (length out + need))) as [Hge|Hlt];
      rewrite length_app in *; cbn [length] in *.
    + assert (need = 1%nat) as -> by lia.
      rewrite bool_decide_eq_true_2 by lia. reflexivity.
    + replace (length out + need)%nat
        with (length (out ++ [mapMsg m])%list + (need - 1))%nat
        by (rewrite length_app; simpl; lia).
      rewrite IH by lia. destruct need as [|need]; [lia|]. simpl.
      rewrite Nat.sub_0_r, <- app_assoc. f_equal.
      apply bool_decide_ext. lia.
Qed.

(** The paging loop of the search functions over a finite collection,
    entered while [need >= 1] more messages are wanted. *)
Lemma page_loop_chain pages url hs out w (need fuel : nat) :
  reads_responses Msg.t →
  (1 ≤ need)%nat →
  (length pages ≤ fuel)%nat →
  serves_parsed server URL hs (length (requested w)) url pages →
  page_loop server URL fuel url hs out (Z.of_nat (length out + need)) w
  = (Return (out ++ (mapMsg <$> take need (all_items pages)))%list,
     World (requested w
              ++ take (pages_needed need pages) (requests_parsed URL hs url pages))
           (slept w)).
Proof.
  intros Hreads. revert url out w need fuel.
  induction pages as [|r rest IH]; intros url out w need fuel Hneed Hfuel Hserves; [done|].
  destruct Hserves as [Hsrv Hrest].
  destruct fuel as [|fuel]; [simpl in Hfuel; lia|]. cbn [page_loop].
  rewrite (httpGetWithBackoff_fulfilled server hs url w r Hsrv).
  rewrite (items_of_listed Hreads), (next_of_link Hreads).
  rewrite push_capped_take by done.
  rewrite all_items_cons.
  destruct need as [|need']; [lia|]. cbn [pages_needed requests_parsed].
  destruct (decide (S need' ≤ length (listed r))%nat) as [Hhit|Hmiss].
  - rewrite bool_decide_eq_true_2 by done.
    rewrite take_app_le by done.
    replace (S need' - length (listed r))%nat with 0%nat by lia.
    by destruct rest.
  - rewrite bool_decide_eq_false_2 by done.
    rewrite take_ge by lia.
    rewrite take_app_ge by lia. rewrite fmap_app, app_assoc.
    destruct rest as [|r' rest'].
    + rewrite (no_link_falsy _ Hrest). unfold all_items. simpl.
      rewrite take_nil, app_nil_r.
      by destruct (S need' - length (listed r))%nat.
    + destruct Hrest as (u & href & Hlink & Hparse & Hrest).
      rewrite (links_to_truthy _ _ Hlink). destruct Hlink as [Hu Hne].
      rewrite Hu. cbn [negb default from_option mbind option_bind]. unfold Datatypes.id.
      rewrite Hparse. cbn [default from_option]. unfold Datatypes.id.
      set (w1 := World (requested w ++ [Request url hs]) (slept w)).
      assert (length (requested w1) = S (length (requested w))) as Hlen.
      { unfold w1. simpl. rewrite length_app. simpl. lia. }
      rewrite <- Hlen in Hrest.
      replace (Z.of_nat (length out + S need'))
        with (Z.of_nat (length (out ++ (mapMsg <$> listed r))%list
                        + (S need' - length (listed r))))
        by (rewrite length_app, length_fmap; lia).
      rewrite (IH href _ w1 (S need' - length (listed r))%nat fuel);
        [|clear -Hmiss; lia|clear -Hfuel; simpl in *; lia|exact Hrest].
      unfold w1. simpl. by rewrite <- (app_assoc (requested w)).
Qed.

Lemma insert_by_perm {A : Type} (cmp : A → A → Z) (x : A) (l : list A) :
  insert_by cmp x l ≡ₚ x :: l.
Proof.
  induction l as [|y l IH]; simpl; [done|].
  destruct (cmp x y <=? 0)%Z; [done|]. rewrite IH. apply Permutation_swap.
Qed.

(** Sorting only reorders. *)
Lemma Array_sort_perm {A : Type} (cmp : A → A → Z) (l : list A) :
  Array_sort cmp l ≡ₚ l.
Proof.
  induction l as [|x l IH]; simpl; [done|]. by rewrite insert_by_perm, IH.
Qed.

(** X13. Over a finite paged collection whose links parse as URLs, the
    search functions take the first [bound] messages the pages list in
    their [value] arrays (all of them when there are fewer) and request
    only the pages those messages come from. [searchAllMailAllPages]
    returns them in the order the remote API lists them; [searchAllMail]
    and [searchBySenderEmail] return the same messages, each as often,
    in descending order of [received] when each of them has one. *)
Theorem searches_return_first_items (token : string) (bound : Z) (url : string)
    (hs : list (string * string)) (pages : list (http_response Msg.t))
    (w : world) (fuel : nat) :
  (1 ≤ bound)%Z →
  (length pages ≤ fuel)%nat →
  serves_parsed server URL hs (length (requested w)) url pages →
  let first := mapMsg <$> take (Z.to_nat bound) (concat (listed <$> pages)) in
  let seen :=
    World (requested w
             ++ take (pages_needed (Z.to_nat bound) pages)
                     (requests_parsed URL hs url pages))
          (slept w) in
  let sorted (run : result listing * world) :=
    ∃ lst, run = (Return lst, seen) ∧
           results lst ≡ₚ first ∧
           count lst = Z.of_nat (length first) ∧
           (Forall (λ m, is_Some (received m)) first → newest_first (results lst)) in
  (∀ query,
      hs = search_headers token →
      url = with_params messages_url
              [("$search", dquote ++ query ++ dquote); ("$top", "100");
               ("$select", select_search)] →
      searchAllMailAllPages server with_params URL fuel token query bound w
      = (Return (Listing first (Z.of_nat (length first)) []), seen)) ∧
  (∀ query,
      hs = search_headers token →
      url = with_params messages_url
              [("$search", dquote ++ query ++ dquote);
               ("$top", String_ (Z.min bound 100));
               ("$select", select_search)] →
      sorted (searchAllMail server with_params URL fuel token query bound w)) ∧
  (∀ email,
      email ≠ EmptyString →
      hs = text_headers token →
      url = with_params messages_url
              [("$filter",
                "from/emailAddress/address eq '" ++ double_apostrophes email ++ "'");
               ("$select", select_search); ("$top", "100")] →
      sorted (searchBySenderEmail server with_params URL fuel token email bound
                None None w)).
Proof.
  intros Hbound Hfuel Hserves first seen sorted.
  assert (reads_responses Msg.t) as Hreads by (intros [[[[elements|] link]|]]; by split).
  assert (page_loop server URL fuel url hs [] bound w = (Return first, seen)) as Hloop.
  { replace bound with (Z.of_nat (length (@nil mail) + Z.to_nat bound)) at 1
      by (simpl; lia).
    by rewrite (page_loop_chain pages url hs [] w (Z.to_nat bound) fuel Hreads ltac:(lia)
                  Hfuel Hserves). }
  assert (∀ extra,
            sorted (on_return (λ out, listing_of extra (Array_sort by_received_desc out))
                      (page_loop server URL fuel url hs [] bound w))) as Hsorted.
  { intros extra. rewrite Hloop. eexists. split; [reflexivity|]. simpl.
    split; [apply Array_sort_perm|]. split; [by rewrite Array_sort_length|].
    apply Array_sort_newest_first. }
  split; [|split].
  - intros query -> ->. unfold searchAllMailAllPages. by rewrite Hloop.
  - intros query Hhs Hurl. subst hs url. apply Hsorted.
  - intros email Hemail Hhs Hurl. subst hs url. unfold searchBySenderEmail.
    destruct (String.eqb_spec email EmptyString); [done|].
    cbn [JS.truthy andb]. apply Hsorted.
Qed.

End SearchFacts.

(** The two-page mailbox searched with a bound of two: both messages
    after two requests, in the order listed by the deep search, and
    newest first by the sorting search. *)
Lemma searches_return_first_items_witness :
  let token := "token" in
  let hs := Graph.search_headers token in
  let deep := plain_params Graph.messages_url
                [("$search", Graph.dquote ++ "invoice" ++ Graph.dquote); ("$top", "100");
                 ("$select", Graph.select_search)] in
  let quick := plain_params Graph.messages_url
                 [("$search", Graph.dquote ++ "invoice" ++ Graph.dquote); ("$top", "2");
                  ("$select", Graph.select_search)] in
  let second := "https://graph.microsoft.com/v1.0/me/messages?$skip=1" in
  let w := Graph.World [] [] in
  ((1 ≤ 2)%Z ∧ (length mail_pages ≤ 2)%nat ∧
   serves_parsed mail_server Some hs (length (Graph.requested w)) deep mail_pages ∧
   serves_parsed mail_server Some hs (length (Graph.requested w)) quick mail_pages) ∧
  Graph.searchAllMailAllPages mail_server plain_params Some 2 token "invoice" 2 w
  = (Graph.Return (Graph.Listing [Graph.mapMsg newer; Graph.mapMsg older] 2 []),
     Graph.World [Graph.Request deep hs; Graph.Request second hs] []) ∧
  (∃ lst,
     Graph.searchAllMail mail_server plain_params Some 2 token "invoice" 2 w
     = (Graph.Return lst,
        Graph.World [Graph.Request quick hs; Graph.Request second hs] []) ∧
     Graph.results lst ≡ₚ [Graph.mapMsg newer; Graph.mapMsg older] ∧
     Graph.count lst = 2%Z ∧
     newest_first (Graph.results lst)) ∧
  (Graph.searchAllMail mail_server plain_params Some 2 token "invoice" 1 w).1
  = Graph.Return (Graph.Listing [Graph.mapMsg newer] 1 []).
Proof.
  cbv zeta.
  assert (∀ url hs, serves_parsed mail_server Some hs 0 url mail_pages) as Hserves.
  { intros url hs. split; [reflexivity|].
    eexists _, _. split; [split; [reflexivity|discriminate]|].
    split; [reflexivity|]. split; [reflexivity|by left]. }
  split; [split; [lia|split; [simpl; lia|split; apply Hserves]]|].
  split.
  - exact (proj1 (searches_return_first_items mail_server plain_params Some "token" 2 _ _
                    mail_pages (Graph.World [] []) 2 ltac:(lia) ltac:(simpl; lia)
                    (Hserves _ _)) "invoice" eq_refl eq_refl).
  - destruct (proj1 (proj2 (searches_return_first_items mail_server plain_params Some
                              "token" 2 _ _ mail_pages (Graph.World [] []) 2
                              ltac:(lia) ltac:(simpl; lia) (Hserves _ _)))
                "invoice" eq_refl eq_refl) as (lst & Hrun & Hperm & Hcount & Hsorted).
    split; [|vm_compute; reflexivity].
    exists lst. split; [exact Hrun|]. split; [exact Hperm|]. split; [exact Hcount|].
    apply Hsorted. repeat constructor; by eexists.
Defined.



Section BootstrapFacts.

Import Graph.

Lemma dedupe_elem_of all seen m :
  m ∈ dedupe all seen → m ∈ all ∧ id m ∉ seen.
Proof.
  revert seen. induction all as [|x all IH]; intros seen; simpl; [by intros ?%elem_of_nil|].
  destruct (bool_decide_reflect (id x ∈ seen)) as [Hin|Hnotin].
  - intros [? ?]%IH. split; [by right|done].
  - intros [->|[Hm Hseen]%IH]%elem_of_cons; [split; [by left|done]|].
    split; [by right|]. intros ?. apply Hseen. by right.
Qed.

Lemma dedupe_NoDup all seen : NoDup (id <$> dedupe all seen).
Proof.
  revert seen. induction all as [|x all IH]; intros seen; simpl; [constructor|].
  destruct (bool_decide_reflect (id x ∈ seen)) as [Hin|Hnotin]; [apply IH|].
  rewrite fmap_cons. constructor; [|apply IH].
  intros (m & Hid & [_ Hseen]%dedupe_elem_of)%list_elem_of_fmap.
  apply Hseen. rewrite Hid. by left.
Qed.

Lemma dedupe_sublist all seen : sublist (dedupe all seen) all.
Proof.
  revert seen. induction all as [|x all IH]; intros seen; simpl; [done|].
  destruct (bool_decide (id x ∈ seen)); [by apply sublist_cons|by apply sublist_skip].
Qed.

Lemma dedupe_keeps_ids all seen m :
  m ∈ all → id m ∉ seen → ∃ m', m' ∈ dedupe all seen ∧ id m' = id m.
Proof.
  revert seen. induction all as [|x all IH]; intros seen; [by intros ?%elem_of_nil|].
  intros [->|Hm]%elem_of_cons Hseen; simpl.
  - rewrite bool_decide_eq_false_2 by done. exists x. split; [by left|done].
  - destruct (bool_decide_reflect (id x ∈ seen)) as [Hin|Hnotin]; [by apply IH|].
    destruct (decide (id m = id x)) as [Heq|Hne].
    + exists x. split; [by left|done].
    + destruct (IH (id x :: seen) Hm) as (m' & Hm' & Hid).
      { intros [?|?]%elem_of_cons; done. }
      exists m'. split; [by right|done].
Qed.

Lemma dedupe_first_wins all seen m :
  m ∈ dedupe all seen → first_with_id (id m) all = Some m.
Proof.
  unfold first_with_id.
  revert seen. induction all as [|x all IH]; intros seen; simpl; [by intros ?%elem_of_nil|].
  destruct (bool_decide_reflect (id x ∈ seen)) as [Hin|Hnotin].
  - intros Hm. pose proof (dedupe_elem_of _ _ _ Hm) as [_ Hseen].
    destruct (decide (id x = id m)) as [Heq|Hne]; [congruence|].
    specialize (IH _ Hm). destruct (list_find _ all) as [[j y]|]; by simplify_eq/=.
  - intros [->|Hm]%elem_of_cons; [by rewrite decide_True|].
    pose proof (dedupe_elem_of _ _ _ Hm) as [_ Hseen].
    destruct (decide (id x = id m)) as [Heq|Hne].
    { exfalso. apply Hseen. rewrite <- Heq. by left. }
    specialize (IH _ Hm). destruct (list_find _ all) as [[j y]|]; by simplify_eq/=.
Qed.

(** X14. The filter that de-duplicates the crawled messages by id keeps
    the first message of each id and drops the later ones: what it
    returns has pairwise different ids, is a sub-sequence of its input in
    the same order, still holds every id of the input, and each message
    kept is the first one of the input with its id. *)
Theorem dedupe_first_occurrence_wins (all : list mail) :
  NoDup (id <$> dedupe all []) ∧
  sublist (dedupe all []) all ∧
  (∀ m, m ∈ all → ∃ m', m' ∈ dedupe all [] ∧ id m' = id m) ∧
  (∀ m, m ∈ dedupe all [] → first_with_id (id m) all = Some m).
Proof.
  split; [apply dedupe_NoDup|]. split; [apply dedupe_sublist|]. split.
  - intros m Hm. apply dedupe_keeps_ids; [done|]. by intros ?%elem_of_nil.
  - intros m. apply dedupe_first_wins.
Qed.

End BootstrapFacts.

Section BootstrapRun.

Import Graph.
Variable server : nat → request → outcome Msg.t.
Variable with_params : string → list (string * string) → string.
Variable URL : string → option string.

Lemma lower_char_idem (c : ascii) : Str.lower_char (Str.lower_char c) = Str.lower_char c.
Proof. destruct c as [[] [] [] [] [] [] [] []]; reflexivity. Qed.

Lemma toLowerCase_idem (s : string) : Str.toLowerCase (Str.toLowerCase s) = Str.toLowerCase s.
Proof. induction s as [|c s IH]; simpl; [done|]. by rewrite lower_char_idem, IH. Qed.

Lemma toLowerCase_nonempty (s : string) : s ≠ EmptyString → Str.toLowerCase s ≠ EmptyString.
Proof. by destruct s. Qed.

(** The addresses collected by step 2 are pairwise different, not empty
    and in lower case. *)
Lemma discover_senders ms senders :
  NoDup senders →
  Forall (λ s, s ≠ EmptyString ∧ Str.toLowerCase s = s) senders →
  NoDup (discover ms senders) ∧
  Forall (λ s, s ≠ EmptyString ∧ Str.toLowerCase s = s) (discover ms senders).
Proof.
  revert senders. induction ms as [|m ms IH]; intros senders Hnd Hall; simpl; [done|].
  destruct (String.eqb_spec (Str.trim (JS.str_or (from m) EmptyString)) EmptyString)
    as [|Hne]; [by apply IH|].
  apply IH; unfold set_add;
    destruct (bool_decide_reflect
                (Str.toLowerCase (Str.trim (JS.str_or (from m) EmptyString)) ∈ senders));
    try done.
  - apply NoDup_app. split; [done|]. split; [|apply NoDup_singleton].
    intros s Hs ->%list_elem_of_singleton. done.
  - apply Forall_app. split; [done|]. constructor; [|done].
    split; [by apply toLowerCase_nonempty|apply toLowerCase_idem].
Qed.

(** X15. Whenever the name bootstrap returns: [count] is the length of
    [results]; no two results have the same id; the results are in
    descending order of [received] when every one of them has a
    [received] time; [discoveredSenders] lists pairwise different,
    non-empty, lower-case addresses; and when no address was discovered
    the results are empty. *)
Theorem bootstrap_results (fuel : nat) (token name : string)
    (maxAqs perSenderLimit : Z) (w w' : world) (lst : listing) :
  searchSenderByNameBootstrap server with_params URL fuel token name
    maxAqs perSenderLimit w = (Return lst, w') →
  count lst = Z.of_nat (length (results lst)) ∧
  NoDup (id <$> results lst) ∧
  (Forall (λ m, is_Some (received m)) (results lst) → newest_first (results lst)) ∧
  ∃ senders,
    extras lst = [("discoveredSenders", JArr (JStr <$> senders))] ∧
    NoDup senders ∧
    Forall (λ s, s ≠ EmptyString ∧ Str.toLowerCase s = s) senders ∧
    (senders = [] → results lst = []).
Proof.
  unfold searchSenderByNameBootstrap.
  destruct (String.eqb name EmptyString); [done|].
  destruct (searchAllMailAllPages _ _ _ _ _ _ _ _) as [[aqs|e|] w1]; try done.
  destruct (discover_senders (results aqs) []) as [Hnd Hall];
    [constructor|constructor|].
  destruct (length (discover (results aqs) []) =? 0)%nat eqn:Hlen.
  - intros [= <- _]. simpl. split; [done|]. split; [constructor|].
    split; [constructor|]. exists []. repeat split; (done || constructor).
  - destruct (crawl _ _ _ _ _ _ _ _ _) as [[all|e|] w2]; simpl; try done.
    intros [= <- _]. simpl. split; [done|]. split; [|split].
    + rewrite (Array_sort_perm by_received_desc (dedupe all [])). apply dedupe_NoDup.
    + intros Hrec. apply Array_sort_newest_first.
      by rewrite <- (Array_sort_perm by_received_desc (dedupe all [])).
    + exists (discover (results aqs) []). repeat split; try done.
      intros Hnil. rewrite Hnil in Hlen. done.
Qed.

End BootstrapRun.

(** The bootstrap scenario of the design document, run: two senders are
    discovered, three requests are made, and the five crawled messages
    come back as four, the newest first. *)
Example bootstrap_end_to_end :
  let run := Graph.searchSenderByNameBootstrap bootstrap_server plain_params Some 2
               "token" "ann" 300 2000 (Graph.World [] []) in
  run.1 = Graph.Return bootstrap_listing ∧
  length (Graph.requested run.2) = 3%nat.
Proof. split; vm_compute; reflexivity. Qed.

Lemma bootstrap_results_witness :
  let run := Graph.searchSenderByNameBootstrap bootstrap_server plain_params Some 2
               "token" "ann" 300 2000 (Graph.World [] []) in
  let lst := bootstrap_listing in
  run = (Graph.Return lst, run.2) ∧
  Graph.count lst = Z.of_nat (length (Graph.results lst)) ∧
  NoDup (Graph.id <$> Graph.results lst) ∧
  (Forall (λ m, is_Some (Graph.received m)) (Graph.results lst) →
   newest_first (Graph.results lst)) ∧
  ∃ senders,
    Graph.extras lst = [("discoveredSenders", JArr (JStr <$> senders))] ∧
    NoDup senders ∧
    Forall (λ s, s ≠ EmptyString ∧ Str.toLowerCase s = s) senders ∧
    (senders = [] → Graph.results lst = []).
Proof.
  cbv zeta.
  assert (Graph.searchSenderByNameBootstrap bootstrap_server plain_params Some 2
            "token" "ann" 300 2000 (Graph.World [] [])
          = (Graph.Return bootstrap_listing,
             (Graph.searchSenderByNameBootstrap bootstrap_server plain_params Some 2
                "token" "ann" 300 2000 (Graph.World [] [])).2)) as Hrun
    by (vm_compute; reflexivity).
  split; [exact Hrun|].
  exact (bootstrap_results bootstrap_server plain_params Some 2 "token" "ann" 300 2000
           (Graph.World [] []) _ bootstrap_listing Hrun).
Defined.

(** * Properties of the folder listings *)

Section FolderFacts.

Import Graph.
Variable server : nat → request → outcome Folder.t.
Variable with_params : string → list (string * string) → string.
Variable localeCompare : string → string → Z.








End FolderFacts.



(** * Properties of the dispatch *)

Section DispatchFacts.

Variable server : nat → Graph.request → Graph.outcome Graph.Msg.t.
Variable folder_server : nat → Graph.request → Graph.outcome Graph.Folder.t.
Variable with_params : string → list (string * string) → string.
Variable URL : string → option string.
Variable localeCompare : string → string → Z.
Variable computeRange : Tool.range_request → (string * string * string) + string.

Let dispatch := Tool.execute_action server folder_server with_params URL localeCompare
                  computeRange.

Lemma answer_shape {A : Type} (user_id : string) (payload : A → list (string * json))
    (run : Graph.result A * Graph.world) :
  match (Tool.answer user_id payload run).1 with
  | Graph.Return rep => names_identity user_id rep ∨ is_bad_request rep
  | Graph.Throw _ => False
  | Graph.OutOfFuel => True
  end.
Proof.
  destruct run as [[a|e|] w]; simpl; [left|right|done].
  - split; [done|]. by eexists.
  - split; [done|]. by eexists.
Qed.

(** X18. The dispatch never lets an exception escape and every reply it
    sends has one of two shapes: status 200 with the header
    [X-User-Id-Used] and the first member [user_id_used] both holding the
    identity key in use, or status 400 with a single [error] member and
    no such header. *)
Theorem execute_action_replies (fuel : nat) (token user_id : string)
    (action : option string) (inp : Tool.inputs) (w : Graph.world) :
  match (dispatch fuel token user_id action inp w).1 with
  | Graph.Return rep => names_identity user_id rep ∨ is_bad_request rep
  | Graph.Throw _ => False
  | Graph.OutOfFuel => True
  end.
Proof.
  unfold dispatch, Tool.execute_action.
  assert (∀ text, is_bad_request (Tool.bad_request text)) as Hbad.
  { intros text. split; [done|]. by eexists. }
  repeat (destruct (Tool.is_action action _); [try apply answer_shape|]).
  - destruct (String.eqb _ _); [right; by apply Hbad|apply answer_shape].
  - destruct (String.eqb _ _); [right; by apply Hbad|apply answer_shape].
  - destruct (computeRange _) as [[[s e] z]|text]; [apply answer_shape|].
    right. by apply Hbad.
  - destruct (_ || _); [right; by apply Hbad|apply answer_shape].
  - destruct (String.eqb _ _); [right; by apply Hbad|apply answer_shape].
  - destruct (String.eqb _ _); [right; by apply Hbad|apply answer_shape].
  - left. split; [done|]. by eexists.
Qed.

Lemma is_action_false (action : option string) (name : string) :
  action ≠ Some name → Tool.is_action action name = false.
Proof. intros Hne. by apply bool_decide_eq_false. Qed.

(** X19. Requests to the remote API are made only for a known action
    that has its required input. An action name outside the known ones
    (or none) is answered with status 200 and the member
    [error: "Invalid action"]; the folder-by-id actions without a
    [folderId], the date search without both dates, the sender search
    without an [email] and the bootstrap without a [name] (empty or blank
    after trimming) are answered with 400. In all these cases nothing is
    requested. *)
Theorem execute_action_needs_inputs (fuel : nat) (token user_id : string)
    (action : option string) (inp : Tool.inputs) (w : Graph.world) :
  let blank (v : option string) := Str.trim (JS.str_or v EmptyString) = EmptyString in
  let run := dispatch fuel token user_id action inp w in
  ((∀ known, known ∈ known_actions → action ≠ Some known) →
   run = (Graph.Return (Tool.ok user_id [("error", JStr "Invalid action")]), w)) ∧
  (action = Some "read_folder_id_all" ∨ action = Some "read_search_folder_id_all" →
   JS.str_or (Tool.folderId inp) EmptyString = EmptyString →
   run = (Graph.Return (Tool.bad_request "folderId is required"), w)) ∧
  (action = Some "search_by_date" →
   blank (Tool.startIso inp) ∨ blank (Tool.endIso inp) →
   run = (Graph.Return
            (Tool.bad_request "startIso and endIso are required (ISO 8601)"), w)) ∧
  (action = Some "search_sender_email" → blank (Tool.email inp) →
   run = (Graph.Return (Tool.bad_request "email is required"), w)) ∧
  (action = Some "search_sender_name_bootstrap" → blank (Tool.name inp) →
   run = (Graph.Return (Tool.bad_request "name is required"), w)).
Proof.
  intros blank run. unfold run, dispatch, Tool.execute_action.
  split; [|split; [|split; [|split]]].
  - intros Hunknown.
    assert (∀ known, known ∈ known_actions → Tool.is_action action known = false) as Hno.
    { intros known Hin. by apply is_action_false, Hunknown. }
    rewrite !Hno by (unfold known_actions; set_solver). done.
  - intros [->| ->] Hid; cbv zeta; rewrite Hid; reflexivity.
  - intros -> Hblank. cbv zeta.
    change (Tool.is_action (Some "search_by_date") "search_by_date") with true.
    assert (String.eqb (Str.trim (JS.str_or (Tool.startIso inp) EmptyString)) EmptyString
            || String.eqb (Str.trim (JS.str_or (Tool.endIso inp) EmptyString)) EmptyString
            = true) as Hor.
    { apply orb_true_iff. destruct Hblank as [H|H]; [left|right];
        unfold blank in H; by rewrite H. }
    by rewrite Hor.
  - intros -> Hblank. unfold blank in Hblank. cbv zeta. by rewrite Hblank.
  - intros -> Hblank. unfold blank in Hblank. cbv zeta. by rewrite Hblank.
Qed.

Lemma number_or_positive (x : Tool.number_input) (dflt : Z) :
  sensible_bound x → (1 ≤ dflt)%Z → (1 ≤ Tool.number_or x dflt)%Z.
Proof.
  destruct x as [|n|n]; simpl; try done.
  intros Hn Hd. destruct (Z.eqb_spec n 0); lia.
Qed.

Lemma answer_listing_bound (user_id : string) (bound : Z)
    (run : Graph.result Graph.listing * Graph.world) rep w' :
  (∀ lst w1, run = (Graph.Return lst, w1) →
             Graph.count lst = Z.of_nat (length (Graph.results lst)) ∧
             (Z.of_nat (length (Graph.results lst)) ≤ bound)%Z) →
  Tool.answer user_id Tool.listing_json run = (Graph.Return rep, w') →
  (∃ lst, rep = Tool.ok user_id (Tool.listing_json lst) ∧
          Graph.count lst = Z.of_nat (length (Graph.results lst)) ∧
          (Z.of_nat (length (Graph.results lst)) ≤ bound)%Z) ∨
  is_bad_request rep.
Proof.
  intros Hbound. destruct run as [[lst|e|] w1]; simpl; try done.
  - intros [= <- _]. left. exists lst. split; [done|]. by eapply Hbound.
  - intros [= <- _]. right. split; [done|]. by eexists.
Qed.

(** X20. Through the endpoint a sensible bound is respected. For the
    actions [read], [read_all] and [search_all], when the bound in
    [inputs] is missing, an integer that is not negative or a digit
    string reading at least one, a reply that is not a 400 carries a
    listing whose [count] is the length of [results] and whose length is
    at most the bound in force: the integer sent, or the default (10,
    1000, 1000) when it is missing or the number zero. *)
Theorem endpoint_respects_bounds (fuel : nat) (token user_id : string)
    (inp : Tool.inputs) (w w' : Graph.world) (rep : Tool.tool_reply)
    (action : string) (bound : Z) :
  (action, bound) ∈ [("read", Tool.number_or (Tool.top inp) 10);
                     ("read_all", Tool.number_or (Tool.max inp) 1000);
                     ("search_all", Tool.number_or (Tool.max inp) 1000)] →
  sensible_bound (Tool.top inp) →
  sensible_bound (Tool.max inp) →
  dispatch fuel token user_id (Some action) inp w = (Graph.Return rep, w') →
  (∃ lst, rep = Tool.ok user_id (Tool.listing_json lst) ∧
          Graph.count lst = Z.of_nat (length (Graph.results lst)) ∧
          (Z.of_nat (length (Graph.results lst)) ≤ bound)%Z) ∨
  is_bad_request rep.
Proof.
  intros Hin Htop Hmax Hrun.
  pose proof (number_or_positive _ 10 Htop ltac:(lia)) as Ht.
  pose proof (number_or_positive _ 1000 Hmax ltac:(lia)) as Hm.
  repeat (apply elem_of_cons in Hin as [[= -> ->]|Hin]); [..|by apply elem_of_nil in Hin].
  - change (dispatch fuel token user_id (Some "read") inp w)
      with (Tool.answer user_id Tool.listing_json
              (Graph.readLatest server with_params fuel token
                 (Tool.number_or (Tool.top inp) 10) w)) in Hrun.
    eapply answer_listing_bound; [|exact Hrun].
    intros lst w1 H. apply (on_return_listing _ (λ l, l)) in H as (out & Hout & -> & Hc).
    split; [done|]. apply for_await_at_most in Hout; simpl; lia.
  - change (dispatch fuel token user_id (Some "read_all") inp w)
      with (Tool.answer user_id Tool.listing_json
              (Graph.readAllMailbox server with_params fuel token
                 (Tool.number_or (Tool.max inp) 1000) w)) in Hrun.
    eapply answer_listing_bound; [|exact Hrun].
    intros lst w1 H. apply (on_return_listing _ (λ l, l)) in H as (out & Hout & -> & Hc).
    split; [done|]. apply for_await_at_most in Hout; simpl; lia.
  - change (dispatch fuel token user_id (Some "search_all") inp w)
      with (Tool.answer user_id Tool.listing_json
              (Graph.searchAllMailAllPages server with_params URL fuel token
                 (Str.trim (JS.str_or (Tool.q inp) EmptyString))
                 (Tool.number_or (Tool.max inp) 1000) w)) in Hrun.
    eapply answer_listing_bound; [|exact Hrun].
    intros lst w1 H. apply (on_return_listing _ (λ l, l)) in H as (out & Hout & -> & Hc).
    split; [done|]. apply page_loop_at_most in Hout; simpl; lia.
Qed.

(** X21. A fetch error is reported, not raised, and its HTTP status is
    not passed on. When the remote API rejects the next request with a
    status that is not retried, the actions [read], [read_sent],
    [read_all], [read_folder_all], [search] and [search_all] answer 400
    with the body of the remote error as [error] (its message when it has
    no body), after that single request. *)
Theorem endpoint_reports_fetch_error (fuel : nat) (token user_id : string)
    (inp : Tool.inputs) (w : Graph.world) (e : Graph.axios_error) :
  (2 ≤ fuel)%nat →
  (∀ req, server (length (Graph.requested w)) req = Graph.Rejected e) →
  Graph.retryable (Graph.status <$> Graph.response e) = false →
  let text :=
    JS.str_or (Graph.response e ≫= Graph.error_data)
              (JS.str_or (Some (Graph.message e)) "Unknown error") in
  ∀ action,
    action ∈ ["read"; "read_sent"; "read_all"; "read_folder_all"; "search"; "search_all"] →
    ∃ req,
      dispatch fuel token user_id (Some action) inp w
      = (Graph.Return (Tool.ToolReply [] (SendJson 400 (JObj [("error", JStr text)]))),
         Graph.World (Graph.requested w ++ [req]) (Graph.slept w)).
Proof.
  intros Hfuel Hsrv Hno text action Hin.
  assert (1 ≤ fuel)%nat as Hfuel1 by lia.
  assert (∀ extra url hs bound,
            Tool.answer user_id Tool.listing_json
              (Graph.on_return (Graph.listing_of extra)
                 (Graph.read_capped server fuel url hs bound w))
            = (Graph.Return (Tool.ToolReply [] (SendJson 400 (JObj [("error", JStr text)]))),
               Graph.World (Graph.requested w ++ [Graph.Request url hs]) (Graph.slept w)))
    as Hread.
  { intros extra url hs bound.
    by rewrite (read_capped_rejected server fuel url hs bound w e Hfuel (Hsrv _) Hno). }
  assert (∀ f url hs bound,
            Tool.answer user_id Tool.listing_json
              (Graph.on_return f (Graph.page_loop server URL fuel url hs [] bound w))
            = (Graph.Return (Tool.ToolReply [] (SendJson 400 (JObj [("error", JStr text)]))),
               Graph.World (Graph.requested w ++ [Graph.Request url hs]) (Graph.slept w)))
    as Hsearch.
  { intros f url hs bound.
    by rewrite (page_loop_rejected server URL fuel url hs [] bound w e Hfuel1 (Hsrv _) Hno). }
  repeat (apply elem_of_cons in Hin as [->|Hin]); [..|by apply elem_of_nil in Hin];
    eexists.
  - apply Hread.
  - apply Hread.
  - apply Hread.
  - apply Hread.
  - apply Hsearch.
  - apply Hsearch.
Qed.

End DispatchFacts.

(** The bound zero at the endpoint. Sent as the number 0 it is replaced
    by the default and both messages of the mailbox come back; sent as
    the string [0] it reaches [readAllMailbox] as zero and one message
    comes back. *)
Example endpoint_bound_zero :
  let dispatch := Tool.execute_action two_message_server no_folders plain_params Some
                    plain_compare no_range 5 "token"
                    "123e4567-e89b-42d3-a456-426614174000" (Some "read_all") in
  let listing items n :=
    Graph.Return
      (Tool.ok "123e4567-e89b-42d3-a456-426614174000"
         (Tool.listing_json (Graph.Listing (Graph.mapMsg <$> items) n []))) in
  (dispatch max_zero (Graph.World [] [])).1 = listing [older; newer] 2%Z ∧
  (dispatch max_text_zero (Graph.World [] [])).1 = listing [older] 1%Z.
Proof. split; vm_compute; reflexivity. Qed.

(** [read_all] with [max: 1] on the mailbox of two messages: the reply
    carries the first message only. *)
Lemma endpoint_respects_bounds_witness :
  let uid := "123e4567-e89b-42d3-a456-426614174000" in
  let dispatch := Tool.execute_action two_message_server no_folders plain_params Some
                    plain_compare no_range in
  let w := Graph.World [] [] in
  let url := plain_params Graph.messages_url
               [("$orderby", "receivedDateTime desc"); ("$top", "100");
                ("$select", Graph.select_full)] in
  let w' := Graph.World [Graph.Request url (Graph.text_headers "token")] [] in
  let rep := Tool.ok uid (Tool.listing_json (Graph.Listing [Graph.mapMsg older] 1 [])) in
  (sensible_bound (Tool.top max_one) ∧ sensible_bound (Tool.max max_one) ∧
   Tool.number_or (Tool.max max_one) 1000 = 1%Z ∧
   dispatch 5%nat "token" uid (Some "read_all") max_one w = (Graph.Return rep, w')) ∧
  ((∃ lst, rep = Tool.ok uid (Tool.listing_json lst) ∧
           Graph.count lst = Z.of_nat (length (Graph.results lst)) ∧
           (Z.of_nat (length (Graph.results lst)) ≤ 1)%Z) ∨
   is_bad_request rep).
Proof.
  cbv zeta.
  assert (sensible_bound (Tool.max max_one)) as Hmax by (simpl; lia).
  assert (Tool.execute_action two_message_server no_folders plain_params Some plain_compare
            no_range 5 "token" "123e4567-e89b-42d3-a456-426614174000" (Some "read_all")
            max_one (Graph.World [] [])
          = (Graph.Return
               (Tool.ok "123e4567-e89b-42d3-a456-426614174000"
                  (Tool.listing_json (Graph.Listing [Graph.mapMsg older] 1 []))),
             Graph.World
               [Graph.Request
                  (plain_params Graph.messages_url
                     [("$orderby", "receivedDateTime desc"); ("$top", "100");
                      ("$select", Graph.select_full)])
                  (Graph.text_headers "token")] [])) as Hrun by reflexivity.
  split; [split; [exact I|split; [exact Hmax|split; [reflexivity|exact Hrun]]]|].
  exact (endpoint_respects_bounds two_message_server no_folders plain_params Some
           plain_compare no_range 5 "token" "123e4567-e89b-42d3-a456-426614174000"
           max_one (Graph.World [] []) _ _ "read_all" 1
           ltac:(apply elem_of_cons; right; apply elem_of_cons; by left) I Hmax Hrun).
Defined.

Lemma endpoint_reports_fetch_error_witness :
  let uid := "123e4567-e89b-42d3-a456-426614174000" in
  let dispatch := Tool.execute_action not_found_server no_folders plain_params Some
                    plain_compare no_range in
  let w := Graph.World [] [] in
  let e := not_found_error in
  ((2 ≤ 2)%nat ∧
   (∀ req, not_found_server (length (Graph.requested w)) req = Graph.Rejected e) ∧
   Graph.retryable (Graph.status <$> Graph.response e) = false) ∧
  let text :=
    JS.str_or (Graph.response e ≫= Graph.error_data)
              (JS.str_or (Some (Graph.message e)) "Unknown error") in
  ∀ action,
    action ∈ ["read"; "read_sent"; "read_all"; "read_folder_all"; "search"; "search_all"] →
    ∃ req,
      dispatch 2%nat "token" uid (Some action) no_inputs w
      = (Graph.Return (Tool.ToolReply [] (SendJson 400 (JObj [("error", JStr text)]))),
         Graph.World (Graph.requested w ++ [req]) (Graph.slept w)).
Proof.
  cbv zeta. split; [split; [lia|split; [intros req; reflexivity|reflexivity]]|].
  exact (endpoint_reports_fetch_error not_found_server no_folders plain_params Some
           plain_compare no_range 2 "token" "123e4567-e89b-42d3-a456-426614174000"
           no_inputs (Graph.World [] []) not_found_error
           (le_n 2) (λ req, eq_refl) eq_refl).
Defined.

(** * Properties of the sign-in redirect *)

Lemma formEncode_all_chars (s : string) :
  all_chars Str.form_safe s = true → Str.formEncode s = s.
Proof.
  induction s as [|c s IH]; simpl; [done|].
  intros [Hc Hs]%andb_prop. by rewrite Hc, (IH Hs).
Qed.

Lemma uuid_char_form_safe (c : ascii) :
  uuid_char c = true → Str.form_safe c = true.
Proof. destruct c as [[] [] [] [] [] [] [] []]; vm_compute; done. Qed.

(** X22. [/login] refuses exactly the requests whose [user_id] is
    missing, empty or blank, with status 400; every other request is
    redirected to the authorization endpoint of the tenant. For an
    identity key of the shape the tool endpoint hands out, the [state]
    parameter of the redirect is the key itself, unchanged by trimming
    and by the form encoding, so that the callback stores the credential
    under the key the client was given. *)
Theorem login_carries_key (CLIENT_ID TENANT_ID REDIRECT_URI SCOPES : string) :
  let login := Auth.login CLIENT_ID TENANT_ID REDIRECT_URI SCOPES in
  let location state :=
    ("https://login.microsoftonline.com/" ++ TENANT_ID ++ "/oauth2/v2.0/authorize"
     ++ "?client_id=" ++ Str.formEncode CLIENT_ID
     ++ "&response_type=code&redirect_uri=" ++ Str.formEncode REDIRECT_URI
     ++ "&response_mode=query&scope=" ++ Str.formEncode SCOPES
     ++ "&state=" ++ state ++ "&prompt=select_account") in
  (∀ q, (∃ r, login q = Auth.Refused r ∧ reply_status r = 400%Z)
        ↔ Str.trim (JS.str_or q EmptyString) = EmptyString) ∧
  (∀ q, Str.trim (JS.str_or q EmptyString) ≠ EmptyString →
        login q = Auth.Redirect
                    (location (Str.formEncode (Str.trim (JS.str_or q EmptyString))))) ∧
  (∀ k, Str.test_classes Index.UUID_RE k = true →
        login (Some k) = Auth.Redirect (location k)).
Proof.
  intros login location.
  assert (∀ a b c : string, ((a ++ b) ++ c = a ++ b ++ c)%string) as Hassoc.
  { intros a b c. induction a as [|x a IH]; [reflexivity|].
    change (String x ((a ++ b) ++ c) = String x (a ++ b ++ c))%string. by rewrite IH. }
  assert (∀ q, Str.trim (JS.str_or q EmptyString) ≠ EmptyString →
               login q = Auth.Redirect
                           (location (Str.formEncode (Str.trim (JS.str_or q EmptyString)))))
    as Hgo.
  { intros q Hq. unfold login, Auth.login.
    destruct (Str.trim (JS.str_or q EmptyString)) as [|c s] eqn:Hk; [done|].
    simpl JS.truthy. cbv iota. simpl negb. cbv iota.
    unfold location, Auth.AUTH_URL, Auth.login_params. cbn [Str.formSerialize].
    generalize (Str.formEncode (String c s)). intros st. f_equal.
    rewrite !Hassoc. reflexivity. }
  split; [|split]; [|exact Hgo|].
  - intros q. split.
    + intros (r & Hrun & _).
      destruct (decide (Str.trim (JS.str_or q EmptyString) = EmptyString)) as [|Hne];
        [done|]. by rewrite (Hgo q Hne) in Hrun.
    + intros Hq. unfold login, Auth.login. rewrite Hq. simpl. by eexists.
  - intros k Hk.
    pose proof (test_classes_all uuid_char _ _ UUID_RE_chars Hk) as Hall.
    destruct (uuid_key_facts k Hk) as (Htrim & _ & Htruthy & _).
    assert (JS.str_or (Some k) EmptyString = k) as Hstr.
    { simpl in Htruthy. apply negb_true_iff in Htruthy. simpl. by rewrite Htruthy. }
    assert (Str.trim (JS.str_or (Some k) EmptyString) = k) as Hkey by (by rewrite Hstr).
    rewrite Hgo; rewrite Hkey.
    + by rewrite (formEncode_all_chars k (all_chars_impl _ _ k uuid_char_form_safe Hall)).
    + intros ->. done.
Qed.

(** The redirect for a deployment with the default callback address and
    two scopes: the address is percent-encoded and the space between the
    scopes becomes a plus sign. *)
Example login_redirect_run :
  Auth.login "app-id" "contoso" "http://localhost:3001/auth/callback"
             "Mail.ReadWrite offline_access"
             (Some " 123e4567-e89b-42d3-a456-426614174000 ")
  = Auth.Redirect
      ("https://login.microsoftonline.com/contoso/oauth2/v2.0/authorize"
       ++ "?client_id=app-id&response_type=code"
       ++ "&redirect_uri=http%3A%2F%2Flocalhost%3A3001%2Fauth%2Fcallback"
       ++ "&response_mode=query&scope=Mail.ReadWrite+offline_access"
       ++ "&state=123e4567-e89b-42d3-a456-426614174000&prompt=select_account").
Proof. vm_compute. reflexivity. Qed.

(** Three requests to [/login]: a key made of a no-break space only is
    refused; a key in UUID form between white space is trimmed and
    becomes the [state] of the redirect as it is. *)
Lemma login_carries_key_witness :
  let login := Auth.login "app-id" "contoso" "http://localhost:3001/auth/callback"
                          "Mail.ReadWrite" in
  let uid := "123e4567-e89b-42d3-a456-426614174000" in
  (∃ r, login (Some nbsp) = Auth.Refused r ∧ reply_status r = 400%Z) ∧
  login (Some uid)
  = Auth.Redirect
      ("https://login.microsoftonline.com/contoso/oauth2/v2.0/authorize"
       ++ "?client_id=app-id&response_type=code"
       ++ "&redirect_uri=http%3A%2F%2Flocalhost%3A3001%2Fauth%2Fcallback"
       ++ "&response_mode=query&scope=Mail.ReadWrite"
       ++ "&state=123e4567-e89b-42d3-a456-426614174000&prompt=select_account").
Proof.
  cbv zeta. split.
  - exact (proj2 (proj1 (login_carries_key "app-id" "contoso"
                           "http://localhost:3001/auth/callback" "Mail.ReadWrite")
                    (Some nbsp)) eq_refl).
  - exact (proj2 (proj2 (login_carries_key "app-id" "contoso"
                           "http://localhost:3001/auth/callback" "Mail.ReadWrite"))
             "123e4567-e89b-42d3-a456-426614174000" eq_refl).
Defined.
